(** * CRetriever: the HTML normalizer and the bold-marker decoder

    A shallow embedding of two routines of [src/CRetriever.py]:

    - [parse_html_to_text] (lines 126-175), the recursive walk over the
      BeautifulSoup tree that flattens rich-text HTML into plain lines;
    - the per-line loop of [create_word_document_in_memory] (lines 504-527),
      which recovers bold runs from the [**bold**] convention with the
      regular expression [\*\*(.+?)\*\*].

    The walk of [parse_html_to_text] is modelled a second time with the
    bound of Python's call stack, for what it does on deeply nested
    markup.

    Around them, the functions that fetch what the report is made of:
    [get_settings] (lines 23-75), [get_odoo_connection] (325-338),
    [get_odoo_data] (344-397), the markup of [get_sale_order_details]
    (436-439), [get_odoo_order_references] (449-471),
    [get_odoo_companies] (477-498), [get_gmail_data] (284-319) and
    [summarize_text] (81-120), with the XML-RPC server, the Gmail client,
    the OpenAI client and the HTML parser as parameters.

    Python strings are modelled as lists of characters ([str]); a character
    is a code point below 256, so that [str.strip] can be modelled with the
    whitespace code points Python knows in that range. *)

From Stdlib Require Import List Arith Lia Bool Ascii String ZArith.
From Stdlib Require Import DecimalString Sorted Permutation.
From Equations Require Import Equations.
Import ListNotations.
Open Scope string_scope.
Open Scope nat_scope.
Open Scope list_scope.

(* [length] is the length of a list throughout. *)
Abbreviation length := List.length (only parsing).

(** ** Python strings *)

Definition str := list ascii.

(** String literals are read as character lists. *)
Coercion list_ascii_of_string : string >-> list.

Module Py.

Definition LF : ascii := "010"%char.
Definition star : ascii := "*"%char.
Definition space : ascii := " "%char.

(** [str.isspace] on one code point below 256: TAB, LF, VT, FF, CR, the
    four separators 0x1c-0x1f, the space, NEL (0x85) and NBSP (0xa0). *)
Definition isspace (c : ascii) : bool :=
  let n := nat_of_ascii c in
  ((9 <=? n) && (n <=? 13)) || ((28 <=? n) && (n <=? 32))
  || (n =? 133) || (n =? 160).

(** [s.lstrip()] *)
Fixpoint lstrip (s : str) : str :=
  match s with
  | [] => []
  | c :: s' => if isspace c then lstrip s' else s
  end.

(** [s.rstrip()] *)
Definition rstrip (s : str) : str := rev (lstrip (rev s)).

(** [s.strip()] *)
Definition strip (s : str) : str := rstrip (lstrip s).

(** [" " * n] *)
Definition spaces (n : nat) : str := repeat space n.

(** [sep.join(parts)] *)
Fixpoint join (sep : str) (parts : list str) : str :=
  match parts with
  | [] => []
  | [p] => p
  | p :: ps => p ++ sep ++ join sep ps
  end.

(** [s.split("\n")]: the pieces between line feeds, at least one piece. *)
Fixpoint split_lines (s : str) : list str :=
  match s with
  | [] => [[]]
  | c :: s' =>
      if Ascii.eqb c LF then [] :: split_lines s'
      else match split_lines s' with
           | [] => [[c]]
           | l :: ls => (c :: l) :: ls
           end
  end.

(** [s[a:b]] and [s[a:]] for indices within range. *)
Definition slice (s : str) (a b : nat) : str := firstn (b - a) (skipn a s).
Definition slice_from (s : str) (a : nat) : str := skipn a s.

(** Truthiness of a string: [if s:]. *)
Definition truthy (s : str) : bool :=
  match s with [] => false | _ :: _ => true end.

(** A blank string: nothing but whitespace. *)
Definition blank (s : str) : bool := forallb isspace s.

(** A stripped string: no whitespace at either end. *)
Definition stripped (s : str) : Prop := lstrip s = s /\ rstrip s = s.

End Py.

(** ** The regular expression [\*\*(.+?)\*\*]

    [re] is an external library; the pattern is fixed, so its matcher is
    written out for this one pattern.  A match attempt at the head of [s]
    reads two asterisks, then at least one character other than a line feed
    (the dot, no DOTALL flag), extending that group one character at a time
    (the lazy [+?]) until two asterisks follow. *)

Module Re.
Import Py.

Definition starts_with_stars (s : str) : bool :=
  match s with
  | a :: b :: _ => Ascii.eqb a star && Ascii.eqb b star
  | _ => false
  end.

(** The lazy extension of the group once its first character is read:
    the number of further characters the group takes before the closing
    asterisks, or [None] when a line feed or the end of input comes first. *)
Fixpoint lazy_tail (s : str) : option nat :=
  if starts_with_stars s then Some 0
  else match s with
       | [] => None
       | c :: s' =>
           if Ascii.eqb c LF then None else option_map S (lazy_tail s')
       end.

(** A match attempt anchored at the head of [s]: the length of group 1. *)
Definition match_at (s : str) : option nat :=
  if starts_with_stars s then
    match skipn 2 s with
    | [] => None
    | c :: s' =>
        if Ascii.eqb c LF then None else option_map S (lazy_tail s')
    end
  else None.

(** [pattern.search(s)]: the leftmost start at which an attempt succeeds,
    as (start, length of group 1); the match is [k + 4] characters long. *)
Fixpoint search (s : str) : option (nat * nat) :=
  match match_at s with
  | Some k => Some (0, k)
  | None =>
      match s with
      | [] => None
      | _ :: s' =>
          match search s' with
          | Some (st, k) => Some (S st, k)
          | None => None
          end
      end
  end.

(** A match object: [match.span()] and [match.group(1)]. *)
Record Match := mkMatch { m_start : nat; m_end : nat; group1 : str }.

Lemma lazy_tail_bound s k : lazy_tail s = Some k -> k + 2 <= length s.
Proof.
  revert k; induction s as [|c s IH]; intros k; simpl.
  - discriminate.
  - destruct s as [|d s'] eqn:Es.
    + simpl. destruct (Ascii.eqb c LF); discriminate.
    + rewrite <- Es in *.
      destruct (starts_with_stars (c :: s)) eqn:Est.
      * subst s. simpl in Est. rewrite Est. intros [= <-]. simpl. lia.
      * subst s. simpl in Est. rewrite Est.
        destruct (Ascii.eqb c LF); [discriminate|].
        destruct (lazy_tail (d :: s')) as [k'|] eqn:E; [|discriminate].
        intros [= <-]. specialize (IH _ eq_refl). simpl in *. lia.
Qed.

Lemma match_at_bound s k : match_at s = Some k -> k + 4 <= length s.
Proof.
  unfold match_at. destruct (starts_with_stars s) eqn:Est; [|discriminate].
  destruct s as [|a [|b s]]; try discriminate. simpl.
  destruct s as [|c s]; [discriminate|].
  destruct (Ascii.eqb c LF); [discriminate|].
  destruct (lazy_tail s) as [k'|] eqn:E; [|discriminate].
  intros [= <-]. apply lazy_tail_bound in E. simpl. lia.
Qed.

Lemma search_bound s st k : search s = Some (st, k) -> st + k + 4 <= length s.
Proof.
  revert st k; induction s as [|c s IH]; intros st k.
  - simpl. unfold match_at. simpl. discriminate.
  - cbn [search]. destruct (match_at (c :: s)) as [k0|] eqn:Em.
    + intros [= <- <-]. apply match_at_bound in Em. lia.
    + destruct (search s) as [[st' k']|] eqn:Es; [|discriminate].
      intros [= <- <-]. specialize (IH _ _ eq_refl). simpl. lia.
Qed.

Definition inspect {A} (a : A) : {b | a = b} := exist _ a eq_refl.

(** [pattern.finditer(line)]: the scanner holds its offset [off] in the
    line and the input [s] left from there; after a match it resumes at
    the match's end. *)
Equations? finditer_from (off : nat) (s : str) : list Match
  by wf (length s) lt :=
  finditer_from off s with inspect (search s) := {
    | exist _ None _ => [];
    | exist _ (Some (st, k)) e =>
        mkMatch (off + st) (off + st + k + 4) (firstn k (skipn (st + 2) s))
          :: finditer_from (off + st + k + 4) (skipn (st + k + 4) s) }.
Proof.
  apply search_bound in e. rewrite length_skipn. lia.
Qed.

Definition finditer (line : str) : list Match := finditer_from 0 line.

(** *** What a match is, stated without the matcher *)

Definition stars : str := [star; star].

(** What the group [(.+?)] can hold: at least one character, no line feed. *)
Definition dot_plus (g : str) : Prop := g <> [] /\ Forall (fun c => c <> LF) g.

(** A line has a complete [**...**] span. *)
Definition has_match (s : str) : Prop :=
  exists pre g rest, s = pre ++ stars ++ g ++ stars ++ rest /\ dot_plus g.

(** [pre ++ ** ++ g ++ ** ++ rest] is the leftmost span of the line, and [g]
    is the shortest group that closes a span from there. *)
Definition first_match (line pre g rest : str) : Prop :=
  line = pre ++ stars ++ g ++ stars ++ rest
  /\ dot_plus g
  /\ (forall pre' g' rest',
        line = pre' ++ stars ++ g' ++ stars ++ rest' -> dot_plus g' ->
        length pre <= length pre')
  /\ (forall g' rest',
        g ++ stars ++ rest = g' ++ stars ++ rest' -> dot_plus g' ->
        length g <= length g').

(** *** The spans of a scan *)


(** The indices of the four asterisks of each match. *)
Definition marker_positions (ms : list Match) : list nat :=
  flat_map (fun m => [m_start m; m_start m + 1; m_end m - 2; m_end m - 1]) ms.

Definition is_marker (ms : list Match) (i : nat) : bool :=
  existsb (Nat.eqb i) (marker_positions ms).

End Re.

(** ** The bold-marker decoder: the loop of [create_word_document_in_memory] *)

(** What [paragraph.add_run(text)] followed by [run.bold = b] leaves in the
    paragraph. *)
Record Run := mkRun { bold : bool; text : str }.

Module Decoder.
Import Py Re.

(** One turn of [for match in bold_pattern.finditer(line)]; the state is
    [last_end] and the runs of the paragraph so far. *)
Definition loop_body (line : str) (st : nat * list Run) (m : Match)
  : nat * list Run :=
  let '(last_end, runs) := st in
  let normal_text := slice line last_end (m_start m) in
  let runs := if truthy normal_text
              then runs ++ [mkRun false normal_text] else runs in
  let runs := runs ++ [mkRun true (group1 m)] in
  (m_end m, runs).

(** After the loop: [if last_end < len(line)] the trailing text is added. *)
Definition finish (line : str) (st : nat * list Run) : list Run :=
  let '(last_end, runs) := st in
  if last_end <? length line
  then runs ++ [mkRun false (slice_from line last_end)]
  else runs.

(** The runs added to the paragraph of one line. *)
Definition decode_line (line : str) : list Run :=
  finish line (fold_left (loop_body line) (finditer line) (0, [])).

(** The document body: one paragraph per piece of [content_text.split("\n")]. *)
Definition decode_text (content_text : str) : list (list Run) :=
  map decode_line (split_lines content_text).

(** The runs one match contributes: the text before it, when there is
    some, and the group in bold. *)
Definition match_runs (s : str) (st k : nat) : list Run :=
  (if truthy (firstn st s) then [mkRun false (firstn st s)] else [])
  ++ [mkRun true (firstn k (skipn (st + 2) s))].

(** *** Writing the runs back, and the line without its markers *)

Definition encode_run (r : Run) : str :=
  if bold r then stars ++ text r ++ stars else text r.

Definition encode (runs : list Run) : str := List.concat (map encode_run runs).

Definition plain_text (runs : list Run) : str := List.concat (map text runs).

(** The characters of [s], numbered from [off], whose index passes [p]. *)
Fixpoint select (p : nat -> bool) (off : nat) (s : str) : str :=
  match s with
  | [] => []
  | c :: s' => if p off then c :: select p (S off) s' else select p (S off) s'
  end.

(** The line with the asterisks of its matches taken out. *)
Definition without_markers (line : str) : str :=
  select (fun i => negb (is_marker (finditer line) i)) 0 line.

End Decoder.

(** ** The BeautifulSoup tree

    [bs4] is an external library.  Its tree is modelled as far as
    [parse_node] looks at it: a node is a string or a tag; a tag has a
    name, attributes and children in document order.  Every string class
    of bs4 passes [isinstance(node, NavigableString)]; [get_text] keeps only
    the classes [NavigableString] and [CData], and leaves comments, doctypes
    and the like out. *)

Inductive StringClass := PlainString | CData | SpecialString.

Unset Elimination Schemes.
Inductive Node :=
| NavigableString (cls : StringClass) (data : str)
| Tag (name : string) (attrs : list (string * str)) (children : list Node).
Set Elimination Schemes.

(** Induction over a tree, with the hypothesis for every child of a tag. *)
Fixpoint Node_ind (P : Node -> Prop)
  (Hstr : forall cls data, P (NavigableString cls data))
  (Htag : forall name attrs children,
      Forall P children -> P (Tag name attrs children))
  (node : Node) : P node :=
  match node with
  | NavigableString cls data => Hstr cls data
  | Tag name attrs children =>
      Htag name attrs children
        ((fix all (l : list Node) : Forall P l :=
            match l with
            | [] => Forall_nil P
            | n :: l' => Forall_cons n (Node_ind P Hstr Htag n) (all l')
            end) children)
  end.

(** What a call can do: return a value or raise. *)
Inductive Outcome (A : Type) :=
| Returned (a : A)
| Raised (exc : string).
Arguments Returned {A} a.
Arguments Raised {A} exc.

Module Soup.
Import Py.

Definition in_text (cls : StringClass) : bool :=
  match cls with PlainString | CData => true | SpecialString => false end.

(** The strings [node.get_text(strip=True)] collects: each one stripped,
    the empty ones skipped. *)
Fixpoint all_strings (node : Node) : list str :=
  match node with
  | NavigableString cls data =>
      if in_text cls && truthy (strip data) then [strip data] else []
  | Tag _ _ children => flat_map all_strings children
  end.

(** [node.get_text(strip=True)] of a tag with these children. *)
Definition get_text (children : list Node) : str :=
  List.concat (flat_map all_strings children).

(** [node.get(key, default)] *)
Fixpoint get (attrs : list (string * str)) (key : string) (default : str)
  : str :=
  match attrs with
  | [] => default
  | (k, v) :: attrs' => if String.eqb k key then v else get attrs' key default
  end.

(** The attribute as the dictionary holds it, if it does. *)
Fixpoint lookup (attrs : list (string * str)) (key : string) : option str :=
  match attrs with
  | [] => None
  | (k, v) :: attrs' => if String.eqb k key then Some v else lookup attrs' key
  end.

End Soup.

(** ** The normalizer: [parse_html_to_text] *)

Module Normalizer.
Import Py Soup.

(** [bullet = "- " if list_type != "ol" else "1. "] *)
Definition bullet_of (list_type : option string) : str :=
  match list_type with
  | Some t => if String.eqb t "ol" then "1. " else "- "
  | None => "- "
  end.

(** The nested function [parse_node(node, indent, list_type)]. *)
Fixpoint parse_node (node : Node) (indent : nat) (list_type : option string)
  : list str :=
  match node with
  | NavigableString _ data =>
      let text := strip data in
      if truthy text then [spaces indent ++ text] else []
  | Tag name attrs children =>
      if String.eqb name "ul" || String.eqb name "ol" then
        flat_map (fun child => parse_node child indent (Some name)) children
      else if String.eqb name "li" then
        let bullet := bullet_of list_type in
        let sublines :=
          flat_map (fun child => parse_node child (indent + 2) None) children in
        match sublines with
        | first :: rest =>
            let first_line := bullet ++ lstrip first in
            (spaces indent ++ first_line)
              :: map (fun line => spaces (indent + 2) ++ line) rest
        | [] => [spaces indent ++ bullet]
        end
      else if String.eqb name "a" then
        let link_text := get_text children in
        let link_href := get attrs "href" "" in
        let md_link :=
          if truthy link_href
          then "[" ++ link_text ++ "](" ++ link_href ++ ")"
          else link_text in
        [spaces indent ++ md_link]
      else if String.eqb name "br" then
        [[]]
      else if String.eqb name "p" || String.eqb name "div" then
        let sublines :=
          flat_map (fun child => parse_node child indent list_type) children in
        match sublines with
        | [] => []
        | _ :: _ => sublines ++ [[]]
        end
      else
        flat_map (fun child => parse_node child indent list_type) children
  end.

(** [for element in soup.children: parsed_lines.extend(parse_node(element, 0, None))] *)
Definition parsed_lines (soup : list Node) : list str :=
  flat_map (fun element => parse_node element 0 None) soup.

(** [[line.rstrip() for line in parsed_lines if line.strip() != ""]] *)
Definition final_lines (lines : list str) : list str :=
  map rstrip (filter (fun line => truthy (strip line)) lines).

(** Lines 171-175: what the function makes of [soup.children]. *)
Definition normalize_soup (soup : list Node) : str :=
  join [LF] (final_lines (parsed_lines soup)).

(** The whole function.  The parse step [BeautifulSoup(html_content,
    "html.parser")] lies outside the repository: it is a parameter that
    returns the children of the soup or raises.  The function has no
    handler, so what the parse step raises leaves the function. *)
Section ParseStep.

Variable BeautifulSoup : str -> Outcome (list Node).

Definition parse_html_to_text (html_content : str) : Outcome str :=
  match BeautifulSoup html_content with
  | Returned soup => Returned (normalize_soup soup)
  | Raised exc => Raised exc
  end.

End ParseStep.

(** The tree of a markup-free text: nothing for the empty text, else the
    text as one string. *)
Definition text_soup (s : str) : list Node :=
  match s with
  | [] => []
  | _ :: _ => [NavigableString PlainString s]
  end.

(** *** Notions about lines *)

Definition nonblank (line : str) : bool := negb (blank line).

(** The first line that survives the filter, if any, has no whitespace in
    front. *)
Definition head_clean (lines : list str) : Prop :=
  match find nonblank lines with
  | Some l => lstrip l = l
  | None => True
  end.

(** A string that ends in a character that is not whitespace. *)
Definition ends_clean (s : str) : Prop :=
  exists r c, s = r ++ [c] /\ isspace c = false.

(** The number of spaces a line starts with. *)
Fixpoint leading_spaces (s : str) : nat :=
  match s with
  | c :: s' => if Ascii.eqb c space then S (leading_spaces s') else 0
  | [] => 0
  end.

(** A string without a line feed. *)
Definition one_line (s : str) : bool := forallb (fun c => negb (Ascii.eqb c LF)) s.

(** A tree that gives no entry with a line feed in it: no string that
    is walked holds one once it is stripped, and no link holds one in
    its text or its address.  Line feeds around a text, between tags
    and in other attributes do not count. *)
Fixpoint tidy (node : Node) : bool :=
  match node with
  | NavigableString _ data => one_line (strip data)
  | Tag name attrs children =>
      if String.eqb name "a"
      then one_line (get_text children) && one_line (get attrs "href" "")
      else forallb tidy children
  end.

(** The bullet of an item once [rstrip] has taken its trailing space. *)
Definition bare_bullet (list_type : option string) : str :=
  match list_type with
  | Some t => if String.eqb t "ol" then "1." else "-"
  | None => "-"
  end.

End Normalizer.

(** ** Sample trees and parse steps

    The trees html.parser builds for the inputs quoted below. *)

Module Samples.
Import Py Soup Normalizer.

Definition txt (s : str) : Node := NavigableString PlainString s.

(** [<ul><li>A</li><li>B</li></ul>] *)
Definition ul_a_b : list Node :=
  [Tag "ul" [] [Tag "li" [] [txt "A"]; Tag "li" [] [txt "B"]]].

(** [<ol><li>First</li></ol>] *)
Definition ol_first : list Node := [Tag "ol" [] [Tag "li" [] [txt "First"]]].

(** [<ol><li>A</li><li>B</li></ol>] *)
Definition ol_a_b : list Node :=
  [Tag "ol" [] [Tag "li" [] [txt "A"]; Tag "li" [] [txt "B"]]].

(** [<ul><li>A<ul><li>B</li></ul></li></ul>] *)
Definition nested_children : list Node :=
  [txt "A"; Tag "ul" [] [Tag "li" [] [txt "B"]]].
Definition nested_list : list Node :=
  [Tag "ul" [] [Tag "li" [] nested_children]].

(** [<a href="http://x">click</a>] *)
Definition a_click : list Node :=
  [Tag "a" [("href", "http://x" : str)] [txt "click"]].

(** [<ul><li> </li></ul>] *)
Definition ul_blank_item : list Node := [Tag "ul" [] [Tag "li" [] [txt " "]]].

(** The text [a], an empty line, [b]. *)
Definition text_with_blank_line : str := "a" ++ [LF; LF] ++ "b".

(** A parse step for the examples: it knows one document and takes
    everything else for text. *)
Definition sample_parse_step (html : str) : Outcome (list Node) :=
  if String.eqb (string_of_list_ascii html) "<ul><li>A</li><li>B</li></ul>"
  then Returned ul_a_b
  else Returned (text_soup html).

(** [<p>a</p>], a line feed, [<p>b</p>], and a division with a title of
    two lines. *)
Definition two_paragraphs : list Node :=
  [Tag "p" [] [txt "a"]; txt [LF]; Tag "p" [] [txt "b"];
   Tag "div" [("title", "x" ++ [LF] ++ "y")] [txt "c"]].

(** What html.parser makes of a character reference: in a text without
    [<] whose only references are [&amp;], each [&amp;] stands for [&]. *)
Fixpoint unescape_amp (s : str) : str :=
  match s with
  | "&"%char :: (("a"%char :: "m"%char :: "p"%char :: ";"%char :: rest) as s')
    => "&"%char :: unescape_amp rest
  | c :: s' => c :: unescape_amp s'
  | [] => []
  end.

(** The parse step on such a text: one string, the references resolved. *)
Definition entity_parse_step (html : str) : Outcome (list Node) :=
  Returned (text_soup (unescape_amp html)).

End Samples.

(** ** More of Python's strings *)

Module PyText.
Import Py.

(** [c.lower()] on a code point below 256: the letters A-Z and the
    capital letters of Latin-1 (0xc0-0xde without the sign 0xd7). *)
Definition lower_char (c : ascii) : ascii :=
  let n := nat_of_ascii c in
  if ((65 <=? n) && (n <=? 90))
     || ((192 <=? n) && (n <=? 222) && negb (n =? 215))
  then ascii_of_nat (n + 32) else c.

(** [s.lower()] *)
Definition lower (s : str) : str := map lower_char s.

(** [s.split()]: the words between runs of whitespace; [w] is the word
    being read, last character first. *)
Fixpoint split_go (w : str) (s : str) : list str :=
  match s with
  | [] => match w with [] => [] | _ :: _ => [rev w] end
  | c :: s' =>
      if isspace c
      then match w with
           | [] => split_go [] s'
           | _ :: _ => rev w :: split_go [] s'
           end
      else split_go (c :: w) s'
  end.

Definition split_ws (s : str) : list str := split_go [] s.

(** [a == b] on strings. *)
Fixpoint str_eqb (a b : str) : bool :=
  match a, b with
  | [], [] => true
  | x :: a', y :: b' => Ascii.eqb x y && str_eqb a' b'
  | _, _ => false
  end.

(** [a <= b] on strings: code point by code point, a prefix first. *)
Fixpoint str_leb (a b : str) : bool :=
  match a, b with
  | [], _ => true
  | _ :: _, [] => false
  | x :: a', y :: b' =>
      if nat_of_ascii x <? nat_of_ascii y then true
      else if nat_of_ascii y <? nat_of_ascii x then false
      else str_leb a' b'
  end.

(** [str(n)] of an integer. *)
Definition str_of_int (n : Z) : str :=
  list_ascii_of_string (NilZero.string_of_int (Z.to_int n)).

(** [x in seen] for a collection of strings. *)
Definition str_in (x : str) (seen : list str) : bool := existsb (str_eqb x) seen.

(** Insertion into a sorted list, and [sorted(...)] by it. *)
Fixpoint insert_by {A} (leb : A -> A -> bool) (x : A) (l : list A) : list A :=
  match l with
  | [] => [x]
  | y :: l' => if leb x y then x :: l else y :: insert_by leb x l'
  end.

Definition sort_by {A} (leb : A -> A -> bool) (l : list A) : list A :=
  fold_right (insert_by leb) [] l.

End PyText.

(** ** Settings: [get_settings]

    [st.secrets] is a table of tables of strings, the environment a table
    of strings.  The secrets are those of a secrets file that is there:
    without a file the first use of [st.secrets] raises, and none of the
    functions that start with [get_settings] gets any further. *)

Module Config.
Import Py Soup.

Definition Table := list (string * str).
Definition Secrets := list (string * Table).

(** [st.secrets[name]] when [name in st.secrets]. *)
Fixpoint table (secrets : Secrets) (name : string) : option Table :=
  match secrets with
  | [] => None
  | (k, t) :: secrets' => if String.eqb k name then Some t else table secrets' name
  end.

(** [os.getenv(key, "")] *)
Definition getenv (environ : Table) (key : string) : str := get environ key "".

Record Settings := mkSettings {
  odoo_url : str;
  odoo_db : str;
  odoo_username : str;
  odoo_password : str;
  redirect_uri : str;
  openai_api_key : str;
  openai_model : str
}.

(** [st.secrets[name].get(key, default)] if the table is there, else what
    the settings start with. *)
Definition secret (secrets : Secrets) (name key : string) (start default : str)
  : str :=
  match table secrets name with
  | Some t => get t key default
  | None => start
  end.

(** [if not settings[k]: settings[k] = os.getenv(K, "")] *)
Definition or_env (environ : Table) (value : str) (key : string) : str :=
  if truthy value then value else getenv environ key.

Definition get_settings (secrets : Secrets) (environ : Table) : Settings :=
  let url := secret secrets "odoo" "ODOO_URL" "" "" in
  let db := secret secrets "odoo" "ODOO_DB" "" "" in
  let username := secret secrets "odoo" "ODOO_USERNAME" "" "" in
  let password := secret secrets "odoo" "ODOO_PASSWORD" "" "" in
  let redirect := secret secrets "auth" "redirect_uri" "" "" in
  let api_key := secret secrets "openai" "api_key" "" "" in
  let model := secret secrets "openai" "model" "gpt-4-turbo" "gpt-4-turbo" in
  mkSettings
    (or_env environ url "ODOO_URL")
    (or_env environ db "ODOO_DB")
    (or_env environ username "ODOO_USERNAME")
    (or_env environ password "ODOO_PASSWORD")
    (or_env environ redirect "REDIRECT_URI")
    (or_env environ api_key "OPENAI_API_KEY")
    model.

(** The check of [main] (line 571) and of [get_odoo_connection]
    (line 327): all four connection details are there. *)
Definition odoo_details_present (url db username password : str) : bool :=
  truthy url && truthy db && truthy username && truthy password.

End Config.

(** ** What XML-RPC delivers

    A field of a record is a boolean ([False] for an unset field), an
    integer, a string, or a list of integers and strings (the pair
    [[id, display name]] of a relational field, the ids of a to-many
    field).  Doubles, dates and nested structures are left out. *)

Inductive Item := IInt (n : Z) | IStr (s : str).

Inductive Field :=
| FBool (b : bool)
| FItem (i : Item)
| FList (items : list Item).

(** A record of [search_read]: a dictionary from field names to values. *)
Definition Rec := list (string * Field).

(** A search domain: triples of field path, operator and value. *)
Definition Domain := list (string * string * Field).

Module PyValue.
Import Py PyText.

(** Truthiness: [if v:]. *)
Definition item_truthy (i : Item) : bool :=
  match i with
  | IInt n => negb (Z.eqb n 0)
  | IStr s => truthy s
  end.

Definition field_truthy (v : Field) : bool :=
  match v with
  | FBool b => b
  | FItem i => item_truthy i
  | FList items => match items with [] => false | _ :: _ => true end
  end.

(** [d.get(key)]: [None] stands for Python's [None]. *)
Fixpoint rec_get (r : Rec) (key : string) : option Field :=
  match r with
  | [] => None
  | (k, v) :: r' => if String.eqb k key then Some v else rec_get r' key
  end.

(** [type(v).__name__], as error messages quote it. *)
Definition item_type (i : Item) : string :=
  match i with IInt _ => "int" | IStr _ => "str" end.

End PyValue.

(** A computation that may raise: sequencing. *)
Definition bind {A B} (m : Outcome A) (k : A -> Outcome B) : Outcome B :=
  match m with
  | Returned a => k a
  | Raised exc => Raised exc
  end.

Notation "x <- m ;; k" := (bind m (fun x => k))
  (at level 61, m at next level, right associativity).

(** [for x in xs: ys.append(f(x))] where [f] may raise. *)
Fixpoint map_outcome {A B} (f : A -> Outcome B) (xs : list A)
  : Outcome (list B) :=
  match xs with
  | [] => Returned []
  | x :: xs' => y <- f x ;; ys <- map_outcome f xs' ;; Returned (y :: ys)
  end.

(** ** The walk on Python's call stack

    [parse_node] calls itself for the children of a node, and Python
    gives every call a frame of a stack of bounded height
    ([sys.getrecursionlimit()], 1000 unless it is raised): a call for
    which no frame is left raises [RecursionError].  The exception is
    known here by its class; its message depends on the call that found
    the stack full. *)

Module Stack.
Import Py Soup Normalizer Samples.

Definition RecursionError : string := "RecursionError".

(** [for child in children: lines.extend(f(child))]: the entries of all
    children, or what the first failing call raises. *)
Definition extend_all (f : Node -> Outcome (list str)) (children : list Node)
  : Outcome (list str) :=
  rows <- map_outcome f children ;; Returned (List.concat rows).

(** [parse_node] with [frames] calls left, one inside the other.  The
    calls into bs4 ([children], [get_text], [get]) do not call
    [parse_node]; the frames they need are taken as set aside. *)
Fixpoint parse_node_on (frames : nat) (node : Node) (indent : nat)
  (list_type : option string) : Outcome (list str) :=
  match frames with
  | 0 => Raised RecursionError
  | S frames' =>
      match node with
      | NavigableString _ data =>
          let text := strip data in
          Returned (if truthy text then [spaces indent ++ text] else [])
      | Tag name attrs children =>
          if String.eqb name "ul" || String.eqb name "ol" then
            extend_all
              (fun child => parse_node_on frames' child indent (Some name))
              children
          else if String.eqb name "li" then
            let bullet := bullet_of list_type in
            sublines <-
              extend_all
                (fun child => parse_node_on frames' child (indent + 2) None)
                children ;;
            Returned
              match sublines with
              | first :: rest =>
                  let first_line := bullet ++ lstrip first in
                  (spaces indent ++ first_line)
                    :: map (fun line => spaces (indent + 2) ++ line) rest
              | [] => [spaces indent ++ bullet]
              end
          else if String.eqb name "a" then
            let link_text := get_text children in
            let link_href := get attrs "href" "" in
            let md_link :=
              if truthy link_href
              then "[" ++ link_text ++ "](" ++ link_href ++ ")"
              else link_text in
            Returned [spaces indent ++ md_link]
          else if String.eqb name "br" then
            Returned [[]]
          else if String.eqb name "p" || String.eqb name "div" then
            sublines <-
              extend_all
                (fun child => parse_node_on frames' child indent list_type)
                children ;;
            Returned
              match sublines with
              | [] => []
              | _ :: _ => sublines ++ [[]]
              end
          else
            extend_all
              (fun child => parse_node_on frames' child indent list_type)
              children
      end
  end.


(** The calls of [parse_node], one inside the other, that a node takes:
    a string, a link and a break take one, any other tag one more than
    its deepest child. *)
Fixpoint walk_depth (node : Node) : nat :=
  match node with
  | NavigableString _ _ => 1
  | Tag name _ children =>
      if String.eqb name "a" || String.eqb name "br" then 1
      else S (list_max (map walk_depth children))
  end.




End Stack.

(** ** The Odoo connection: [get_odoo_connection] *)

Module Odoo.
Import Py PyText PyValue Soup Normalizer Config.

Section Server.

(** The XML-RPC client lies outside the repository: a proxy is made from
    a URL, and the two remote calls the code uses return or raise.  An
    exception is known by its message, [str(e)]. *)
Variable Proxy : Type.
Variable ServerProxy : str -> Outcome Proxy.
Variable authenticate : Proxy -> str -> str -> str -> Outcome Field.
Variable execute_kw :
  Proxy -> str -> Field -> str -> string -> string -> Domain -> list string ->
  Outcome (list Rec).

(** The body of the [try] of [get_odoo_connection]. *)
Definition connect (odoo_url db_name username password : str)
  : Outcome (Field * Proxy) :=
  common <- ServerProxy (odoo_url ++ "/xmlrpc/2/common") ;;
  uid <- authenticate common db_name username password ;;
  if negb (field_truthy uid)
  then Raised "Failed to authenticate to Odoo. Check your credentials."
  else
    models <- ServerProxy (odoo_url ++ "/xmlrpc/2/object") ;;
    Returned (uid, models).

(** [get_odoo_connection]; the cache of [st.cache_resource] is left out. *)
Definition get_odoo_connection (odoo_url db_name username password : str)
  : Outcome (Field * Proxy) :=
  if negb (truthy odoo_url) || negb (truthy db_name)
     || negb (truthy username) || negb (truthy password)
  then Raised "Odoo connection details missing. Please check your configuration."
  else
    match connect odoo_url db_name username password with
    | Returned r => Returned r
    | Raised exc => Raised ("Odoo connection failed: " ++ exc)%string
    end.

(** *** The names for the two dropdowns *)

(** [if f and isinstance(f, list) and len(f) == 2: names.add(f[1])] *)
Definition pair_name (f : option Field) : list Item :=
  match f with
  | Some (FList [_; name]) => [name]
  | _ => []
  end.

(** The loop over the lines, adding to the set. *)
Definition collect_names (key : string) (lines : list Rec) : list Item :=
  flat_map (fun line => pair_name (rec_get line key)) lines.

Definition is_str (i : Item) : bool :=
  match i with IStr _ => true | IInt _ => false end.

Definition the_strs (items : list Item) : list str :=
  flat_map (fun i => match i with IStr s => [s] | IInt _ => [] end) items.

Definition the_ints (items : list Item) : list Z :=
  flat_map (fun i => match i with IInt n => [n] | IStr _ => [] end) items.

Definition item_eqb (a b : Item) : bool :=
  match a, b with
  | IInt m, IInt n => Z.eqb m n
  | IStr s, IStr t => str_eqb s t
  | _, _ => false
  end.

(** The set as a list: each member once. *)
Fixpoint distinct (items : list Item) : list Item :=
  match items with
  | [] => []
  | i :: items' =>
      if existsb (item_eqb i) items' then distinct items'
      else i :: distinct items'
  end.

(** [sorted(list(names))] for a set [names]: strings sort by code point,
    integers by value; a set of both cannot be sorted ([TypeError],
    here [None]). *)
Definition sorted_set (items : list Item) : option (list Item) :=
  let members := distinct items in
  if forallb is_str members
  then Some (map IStr (sort_by str_leb (the_strs members)))
  else if forallb (fun i => negb (is_str i)) members
  then Some (map IInt (sort_by Z.leb (the_ints members)))
  else None.

(** The body of the [try] of [get_odoo_companies] and of
    [get_odoo_order_references]. *)
Definition names_of (settings : Settings) (domain : Domain) (key : string)
  : Outcome (option (list Item)) :=
  conn <- get_odoo_connection (odoo_url settings) (odoo_db settings)
            (odoo_username settings) (odoo_password settings) ;;
  let '(uid, models) := conn in
  lines <- execute_kw models (odoo_db settings) uid (odoo_password settings)
             "sale.order.line" "search_read" domain [key] ;;
  Returned (sorted_set (collect_names key lines)).

(** [except Exception: ... return []] *)
Definition or_empty (r : Outcome (option (list Item))) : list Item :=
  match r with
  | Returned (Some names) => names
  | Returned None => []
  | Raised _ => []
  end.

Definition get_odoo_companies (secrets : Secrets) (environ : Table)
  : list Item :=
  or_empty (names_of (get_settings secrets environ) [] "company_id").

Definition get_odoo_order_references (secrets : Secrets) (environ : Table)
  (company : str) : list Item :=
  or_empty
    (names_of (get_settings secrets environ)
       [("company_id.name", "=", FItem (IStr company))] "order_id").

End Server.

End Odoo.

(** ** The task report: [get_odoo_data] *)

Module Tasks.
Import Py PyText PyValue Soup Normalizer Config.

(** [str(v)], which an f-string puts in for [{v}]. *)
Definition item_str (i : Item) : str :=
  match i with
  | IInt n => str_of_int n
  | IStr s => s
  end.

(** [" ".join(task_info.strip().split())] *)
Definition normalized (task_info : str) : str :=
  join " " (split_ws (strip task_info)).

(** The end of the loop body: the text is kept unless its normalized
    form was seen before.  The state is [seen_normalized] and
    [task_data]. *)
Definition dedupe_step (st : list str * list str) (task_info : str)
  : list str * list str :=
  let '(seen_normalized, task_data) := st in
  if str_in (normalized task_info) seen_normalized
  then st
  else (normalized task_info :: seen_normalized, task_data ++ [task_info]).

(** The texts kept of a list of texts. *)
Definition dedupe (task_infos : list str) : list str :=
  snd (fold_left dedupe_step task_infos ([], [])).

Definition rule : str := "-----------------------------------------".

Section Server.

Variable Proxy : Type.
Variable ServerProxy : str -> Outcome Proxy.
Variable authenticate : Proxy -> str -> str -> str -> Outcome Field.
Variable execute_kw :
  Proxy -> str -> Field -> str -> string -> string -> Domain -> list string ->
  Outcome (list Rec).

(** The parse step of [parse_html_to_text], on a string and on a value
    that is no string, and [repr] of a string: bs4 and Python decide. *)
Variable BeautifulSoup : str -> Outcome (list Node).
Variable BeautifulSoup_other : Field -> Outcome (list Node).
Variable repr_str : str -> str.

Definition item_repr (i : Item) : str :=
  match i with
  | IInt n => str_of_int n
  | IStr s => repr_str s
  end.

Definition field_str (v : Field) : str :=
  match v with
  | FBool true => "True"
  | FBool false => "False"
  | FItem i => item_str i
  | FList items => "[" ++ join ", " (map item_repr items) ++ "]"
  end.

Definition field_type (v : Field) : string :=
  match v with
  | FBool _ => "bool"
  | FItem i => item_type i
  | FList _ => "list"
  end.

(** [sep.join(items)]: every item has to be a string. *)
Fixpoint join_fields (sep : str) (index : nat) (items : list Field)
  : Outcome (list str) :=
  match items with
  | [] => Returned []
  | FItem (IStr s) :: items' =>
      rest <- join_fields sep (S index) items' ;; Returned (s :: rest)
  | v :: _ =>
      Raised ("sequence item " ++ NilZero.string_of_uint (Nat.to_uint index)
              ++ ": expected str instance, " ++ field_type v ++ " found")%string
  end.

Definition py_join (sep : str) (items : list Field) : Outcome str :=
  parts <- join_fields sep 0 items ;; Returned (join sep parts).

Section Connected.

Variable settings : Settings.
Variable uid : Field.
Variable models : Proxy.

(** The nested function [get_user_names(user_ids)]. *)
Definition get_user_names (user_ids : Field) : Outcome (list Field) :=
  if negb (field_truthy user_ids) then Returned []
  else
    user_records <-
      execute_kw models (odoo_db settings) uid (odoo_password settings)
        "res.users" "search_read" [("id", "in", user_ids)] ["name"] ;;
    map_outcome
      (fun record =>
         match rec_get record "name" with
         | Some name => Returned name
         | None => Raised "'name'"
         end)
      user_records.

(** [parse_html_to_text(raw_desc)] for whatever the field holds. *)
Definition clean_description (raw_desc : Field) : Outcome str :=
  match raw_desc with
  | FItem (IStr html) => parse_html_to_text BeautifulSoup html
  | other =>
      soup <- BeautifulSoup_other other ;; Returned (normalize_soup soup)
  end.

(** The loop body up to [task_info]. *)
Definition task_info (task : Rec) : Outcome str :=
  let user_ids :=
    match rec_get task "user_ids" with Some v => v | None => FList [] end in
  user_names <- get_user_names user_ids ;;
  assigned_to <-
    match user_names with
    | [] => Returned ("N/A" : str)
    | _ :: _ => py_join ", " user_names
    end ;;
  let sale_line :=
    match rec_get task "sale_line_id" with Some v => v | None => FList [] end in
  let sale_line_val :=
    match sale_line with
    | FList [_; name] => name
    | _ => IStr "N/A"
    end in
  let raw_desc :=
    match rec_get task "description" with
    | Some v => if field_truthy v then v else FItem (IStr "")
    | None => FItem (IStr "")
    end in
  desc_clean <- clean_description raw_desc ;;
  let desc_text : str :=
    if truthy (strip desc_clean)
    then "Description:" ++ [LF] ++ desc_clean ++ [LF]
    else [] in
  let name :=
    match rec_get task "name" with
    | Some v => field_str v
    | None => []
    end in
  let deadline : str :=
    match rec_get task "date_deadline" with
    | Some v => field_str v
    | None => "No deadline"
    end in
  Returned
    ("Task: " ++ name ++ [LF]
     ++ "Assigned to: " ++ assigned_to ++ [LF]
     ++ "Deadline: " ++ deadline ++ [LF]
     ++ "Sale Line: " ++ item_str sale_line_val ++ [LF]
     ++ desc_text
     ++ rule ++ [LF]).

(** [for task in all_tasks: ...] *)
Fixpoint report_loop (tasks : list Rec) (st : list str * list str)
  : Outcome (list str) :=
  match tasks with
  | [] => Returned (snd st)
  | task :: tasks' =>
      info <- task_info task ;; report_loop tasks' (dedupe_step st info)
  end.

End Connected.

(** The body of the [try]. *)
Definition task_report (settings : Settings) (order_reference company : str)
  : Outcome str :=
  conn <- Odoo.get_odoo_connection Proxy ServerProxy authenticate
            (odoo_url settings) (odoo_db settings)
            (odoo_username settings) (odoo_password settings) ;;
  let '(uid, models) := conn in
  all_tasks <-
    execute_kw models (odoo_db settings) uid (odoo_password settings)
      "project.task" "search_read"
      [("sale_line_id.order_id.name", "=", FItem (IStr order_reference));
       ("sale_line_id.company_id.name", "=", FItem (IStr company))]
      ["id"; "name"; "user_ids"; "date_deadline"; "sale_line_id";
       "description"] ;;
  task_data <- report_loop settings uid models all_tasks ([], []) ;;
  Returned (join [LF] task_data).

(** [get_odoo_data]: whatever is raised becomes the text returned. *)
Definition get_odoo_data (secrets : Secrets) (environ : Table)
  (order_reference company : str) : str :=
  match task_report (get_settings secrets environ) order_reference company with
  | Returned text => text
  | Raised exc => "Error fetching Odoo tasks: " ++ exc
  end.

End Server.

End Tasks.

(** ** The mail digest: [get_gmail_data] *)

Module Gmail.
Import Py PyText Soup.

(** What the Gmail API delivers, as far as the code reads it: a header is
    a dictionary of strings; a message may have a payload, the payload
    headers, and the message a snippet; the result of a search may have
    the key [messages], a list of references with an [id]. *)
Definition Header := list (string * str).
Record Message := mkMessage {
  payload : option (option (list Header));
  snippet : option str
}.
Record SearchResult := mkSearchResult { messages : option (list str) }.

(** [message.get('payload', {}).get('headers', [])] *)
Definition headers_of (message : Message) : list Header :=
  match payload message with
  | Some (Some headers) => headers
  | _ => []
  end.

(** One turn of [for header in headers]; the state is [sender] and
    [subject]. *)
Definition header_step (st : str * str) (header : Header) : str * str :=
  let '(sender, subject) := st in
  if str_eqb (lower (get header "name" "")) "from"
  then (get header "value" "Unknown", subject)
  else if str_eqb (lower (get header "name" "")) "subject"
  then (sender, get header "value" "No Subject")
  else st.

Definition scan_headers (headers : list Header) : str * str :=
  fold_left header_step headers ("Unknown" : str, "No Subject" : str).

Definition mail_rule : str := "-----------------".

(** The text of one message. *)
Definition format_message (message : Message) : str :=
  let '(sender, subject) := scan_headers (headers_of message) in
  let snippet := match snippet message with Some s => s | None => [] end in
  "Sender: " ++ sender ++ [LF]
  ++ "Subject: " ++ subject ++ [LF]
  ++ "Email content: " ++ snippet ++ [LF]
  ++ mail_rule ++ [LF].

Section Service.

(** The Gmail client lies outside the repository, and so does the OAuth
    flow of [get_gmail_service]: the service is there or the flow stops
    the script; the two calls of the API return or raise. *)
Variable Service : Type.
Variable get_gmail_service : Outcome Service.
Variable messages_list : Service -> str -> Outcome SearchResult.
Variable messages_get : Service -> str -> Outcome Message.

(** The body of the [try]; the progress lines written to the page are
    left out. *)
Definition mail_digest (service : Service) (query : str) : Outcome str :=
  results <- messages_list service query ;;
  match messages results with
  | Some refs =>
      formatted_messages <-
        map_outcome
          (fun id => message <- messages_get service id ;;
                     Returned (format_message message))
          refs ;;
      Returned (join [LF] formatted_messages)
  | None => Returned ("No emails found related to this sales order." : str)
  end.

(** [get_gmail_data]: what [get_gmail_service] raises leaves the
    function, what is raised after that becomes the text returned. *)
Definition get_gmail_data (sales_order_code : str) : Outcome str :=
  service <- get_gmail_service ;;
  match mail_digest service sales_order_code with
  | Returned text => Returned text
  | Raised exc => Returned ("Error fetching Gmail data: " ++ exc)
  end.

End Service.

End Gmail.

(** ** The order lines: the markup of [get_sale_order_details] *)

Module SaleOrder.
Import Py.

(** Lines 436-439, for the texts the f-strings put in for the product,
    the description and the two quantities. *)
Definition order_line_markup (product description quantity delivered : str)
  : str :=
  "- **Product:** " ++ product ++ [LF]
  ++ "  - **Description:** " ++ description ++ [LF]
  ++ "  - **Quantity:** " ++ quantity ++ [LF]
  ++ "  - **Delivered:** " ++ delivered ++ [LF; LF].

End SaleOrder.

(** ** The briefing: [summarize_text] *)

Module Briefing.
Import Py Config.

(** The prompt before the text. *)
Definition prompt_head : str :=
  "Please provide a comprehensive briefing of the following text. "
  ++ "The briefing should particularly emphasize the detailed descriptions from the Odoo tasks and "
  ++ "the sales order order lines. Include all key details and structure your briefing with the following headings:"
  ++ [LF; LF]
  ++ "**Project**: Provide an overview of the project, including customer and order date."
  ++ [LF]
  ++ "**Odoo Task Descriptions**: Focus on the task details, deadlines, and descriptions provided in Odoo."
  ++ [LF]
  ++ "**Sales Order Order Lines**: Include detailed information about each order line (product, description, quantity, delivered)."
  ++ [LF]
  ++ "**Gmail Communications**: Summarize the key points from the Gmail data."
  ++ [LF]
  ++ "**Conclusion**: Provide final insights."
  ++ [LF; LF]
  ++ "Please retain any hyperlinks as they appear. Here is the text for the briefing:"
  ++ [LF; LF].

Section Client.

(** The OpenAI client lies outside the repository.  The call is
    [openai.ChatCompletion.create] with one user message, temperature 0.7
    and at most 700 tokens, followed by
    [response.choices[0].message["content"]]: it gives the content for a
    model and a prompt, or raises. *)
Variable ChatCompletion_create : str -> str -> Outcome str.

(** [setup_openai] sets [openai.api_key] from the settings and returns
    the model; [summarize_text] reads the key back. *)
Definition setup_openai (settings : Settings) : str * str :=
  (openai_api_key settings, openai_model settings).

Definition summarize_text (secrets : Secrets) (environ : Table) (text : str)
  : str :=
  let '(api_key, model) := setup_openai (get_settings secrets environ) in
  if negb (truthy api_key)
  then "Unable to generate summary: API key missing"
  else
    let prompt := prompt_head ++ text in
    match ChatCompletion_create model prompt with
    | Returned content => strip content
    | Raised exc => "Error generating summary: " ++ exc
    end.

End Client.

End Briefing.


(** ** Notions the further properties are stated with *)

Module Shape.
Import Py PyText Re Decoder Soup Normalizer Samples Tasks Gmail.

(** A plain run after which a plain run follows does not occur. *)
Fixpoint plain_runs_apart (runs : list Run) : Prop :=
  match runs with
  | r1 :: (r2 :: _) as tl =>
      (bold r1 = false -> bold r2 = true) /\ plain_runs_apart tl
  | _ => True
  end.

(** [star_free s]: no asterisk in [s]. *)
Definition star_free (s : str) : bool :=
  forallb (fun c => negb (Ascii.eqb c star)) s.

(** The tags [parse_node] walks through without a mark of their own. *)
Definition plain_container (name : string) : bool :=
  negb (String.eqb name "ul" || String.eqb name "ol" || String.eqb name "li"
        || String.eqb name "a" || String.eqb name "br").

(** An entry made at indent [n] is empty or starts with [n] spaces. *)
Definition indented (n : nat) (line : str) : Prop :=
  line = [] \/ exists r, line = spaces n ++ r.

(** A list of depth [d]: each item holds the text [A] and, below the
    last level, the next list. *)
Fixpoint nest (d : nat) : Node :=
  Tag "ul" []
    [Tag "li" []
       (txt "A" :: match d with 0 => [] | S d' => [nest d'] end)].

(** The indentation of the item at depth [k] when the walk starts at
    indent [i]. *)
Definition nest_indent (i k : nat) : nat := (k + 1) * i + k * k + 3 * k.

(** A word: not empty, no whitespace in it. *)
Definition word (w : str) : Prop :=
  w <> [] /\ forallb (fun c => negb (isspace c)) w = true.

(** [a < b] on strings. *)
Definition str_lt (a b : str) : Prop := str_leb a b = true /\ a <> b.

(** The texts kept, read from the front: a text is dropped when its
    normalized form is among [seen]. *)
Fixpoint kept (seen : list str) (task_infos : list str) : list str :=
  match task_infos with
  | [] => []
  | info :: rest =>
      if str_in (normalized info) seen then kept seen rest
      else info :: kept (normalized info :: seen) rest
  end.

(** The header names the scan looks for. *)
Definition is_from (header : Header) : bool :=
  str_eqb (lower (get header "name" "")) "from".
Definition is_subject (header : Header) : bool :=
  str_eqb (lower (get header "name" "")) "subject".

(** The last header that passes [p]. *)
Definition last_header (p : Header -> bool) (headers : list Header)
  : option Header :=
  find p (rev headers).

End Shape.

(** ** A sample server

    Secrets, a server and a parse step to try the functions on. *)

Module SampleServer.
Import Py PyText PyValue Soup Normalizer Samples Config.

Definition secrets : Secrets :=
  [("odoo", [("ODOO_URL", "https://odoo.example" : str);
             ("ODOO_DB", "prod" : str);
             ("ODOO_USERNAME", "" : str)])].

Definition environ : Table :=
  [("ODOO_USERNAME", "bot" : str); ("ODOO_PASSWORD", "secret" : str);
   ("ODOO_URL", "https://other.example" : str)].

Definition ServerProxy (url : str) : Outcome unit := Returned tt.

Definition authenticate (common : unit) (db username password : str)
  : Outcome Field :=
  Returned (FItem (IInt 2)).

Definition company (id : Z) (name : str) : Rec :=
  [("id", FItem (IInt id)); ("company_id", FList [IInt 1; IStr name])].

Definition task (name : str) (description : Field) : Rec :=
  [("id", FItem (IInt 7)); ("name", FItem (IStr name));
   ("user_ids", FList []); ("date_deadline", FBool false);
   ("sale_line_id", FList [IInt 3; IStr "S001 - Desk"]);
   ("description", description)].

Definition execute_kw (models : unit) (db : str) (uid : Field) (password : str)
  (model method : string) (domain : Domain) (fields : list string)
  : Outcome (list Rec) :=
  if String.eqb model "sale.order.line"
  then Returned [company 1 "Zeta"; company 2 "Acme"; company 3 "Zeta";
                 [("id", FItem (IInt 4)); ("company_id", FBool false)]]
  else if String.eqb model "project.task"
  then Returned [task "Build it" (FItem (IStr "<p>Oak</p>"));
                 task "Build  it" (FItem (IStr "<p> Oak </p>"));
                 task "Paint" (FBool false)]
  else Returned [].

(** Tasks of which the second has a description the parse step gives up
    on. *)
Definition execute_kw_bad (models : unit) (db : str) (uid : Field)
  (password : str) (model method : string) (domain : Domain)
  (fields : list string) : Outcome (list Rec) :=
  Returned [task "Build" (FItem (IStr "<p>Oak</p>"));
            task "Paint" (FItem (IStr "<"))].

Definition BeautifulSoup (html : str) : Outcome (list Node) :=
  if str_eqb html "<p>Oak</p>" then Returned [Tag "p" [] [txt "Oak"]]
  else if str_eqb html "<p> Oak </p>" then Returned [Tag "p" [] [txt " Oak "]]
  else if str_eqb html "<" then Raised "ParserRejectedMarkup"
  else Returned (text_soup html).

Definition BeautifulSoup_other (v : Field) : Outcome (list Node) :=
  Raised "TypeError".

Definition repr_str (s : str) : str := "'" ++ s ++ "'".

End SampleServer.

Module SampleData.
Import Py PyText PyValue Soup Normalizer Config Odoo Tasks.

(** The lines and the tasks of the sample server. *)
Definition sample_lines : list Rec := Eval vm_compute in
    match SampleServer.execute_kw tt [] (FBool false) []
            "sale.order.line" "search_read" [] [] with
    | Returned lines => lines
    | Raised _ => []
    end.

Definition sample_settings : Settings :=
  get_settings SampleServer.secrets SampleServer.environ.

Definition sample_infos : list str := Eval vm_compute in
    match map_outcome
            (task_info unit SampleServer.execute_kw SampleServer.BeautifulSoup
               SampleServer.BeautifulSoup_other SampleServer.repr_str
               sample_settings (FItem (IInt 2)) tt)
            match SampleServer.execute_kw tt [] (FBool false) []
                    "project.task" "search_read" [] [] with
            | Returned tasks => tasks
            | Raised _ => []
            end with
    | Returned infos => infos
    | Raised _ => []
    end.

End SampleData.

(** ** A sample mailbox *)

Module SampleMail.
Import Py PyText Gmail.

Definition get_gmail_service : Outcome unit := Returned tt.

Definition messages_list (service : unit) (query : str)
  : Outcome SearchResult :=
  if str_eqb query "S001" then Returned (mkSearchResult (Some ["m1" : str; "m2" : str]))
  else if str_eqb query "S002"
  then Returned (mkSearchResult (Some ["m1" : str; "m3" : str; "m2" : str]))
  else Returned (mkSearchResult None).

Definition messages_get (service : unit) (id : str) : Outcome Message :=
  if str_eqb id "m1"
  then Returned
         (mkMessage
            (Some (Some [[("name", "From" : str); ("value", "ann@example.org" : str)];
                         [("name", "Subject" : str); ("value", "Desk" : str)];
                         [("name", "FROM" : str); ("value", "bob@example.org" : str)];
                         [("name", "To" : str); ("value", "me@example.org" : str)]]))
            (Some ("Hello" : str)))
  else if str_eqb id "m2" then Returned (mkMessage None None)
  else Raised "HttpError 404".

End SampleMail.

(** ** A sample client *)

Module SampleClient.
Import Py PyText Config.

Definition secrets : Secrets :=
  [("openai", [("api_key", "sk-sample" : str)])].

(** Answers with the model and the length of the prompt, between blanks;
    gives up on the model [none]. *)
Definition ChatCompletion_create (model prompt : str) : Outcome str :=
  if str_eqb model "none" then Raised "InvalidRequestError"
  else Returned ("  **Project**: " ++ model ++ [LF] ++ " ").

End SampleClient.

(** * Properties *)

(** ** Facts about strings *)

Module PyFacts.
Import Py.

(** Induction on the length of a string. *)
Lemma str_length_ind (P : str -> Prop) :
  (forall s, (forall s', length s' < length s -> P s') -> P s) ->
  forall s, P s.
Proof.
  intros H s. remember (length s) as n eqn:En.
  revert s En. induction n as [n IH] using lt_wf_ind.
  intros s ->. apply H. intros s' Hlt. now apply (IH (length s')).
Qed.

(** Two ways of cutting one string at the same length agree. *)
Lemma app_eq_length (a b a' b' : str) :
  a ++ b = a' ++ b' -> length a = length a' -> a = a' /\ b = b'.
Proof.
  revert a'; induction a as [|x a IH]; intros [|y a'] H L; simpl in *;
    try discriminate; auto.
  injection H as -> H. injection L as L.
  destruct (IH _ H L) as [-> ->]. auto.
Qed.

Lemma lstrip_blank s : truthy (lstrip s) = negb (blank s).
Proof.
  induction s as [|c s IH]; [reflexivity|]. cbn [lstrip blank forallb].
  destruct (isspace c); [exact IH | reflexivity].
Qed.

Lemma blank_rev s : blank (rev s) = blank s.
Proof.
  unfold blank. induction s as [|c s IH]; [reflexivity|].
  cbn [rev forallb]. rewrite forallb_app, IH. cbn [forallb].
  rewrite andb_true_r. apply andb_comm.
Qed.

Lemma truthy_rev s : truthy (rev s) = truthy s.
Proof.
  destruct s as [|c s]; [reflexivity|]. cbn [rev].
  destruct (rev s); reflexivity.
Qed.

Lemma rstrip_blank s : truthy (rstrip s) = negb (blank s).
Proof. unfold rstrip. now rewrite truthy_rev, lstrip_blank, blank_rev. Qed.

(** [lstrip] leaves a suffix whose head is not whitespace. *)
Lemma lstrip_head s c r : lstrip s = c :: r -> isspace c = false.
Proof.
  induction s as [|d s IH]; [discriminate|]. cbn [lstrip].
  destruct (isspace d) eqn:Ed; [exact IH|]. now intros [= <- <-].
Qed.

Lemma lstrip_fixed c r : isspace c = false -> lstrip (c :: r) = c :: r.
Proof. intros H. cbn [lstrip]. now rewrite H. Qed.

Lemma lstrip_idem s : lstrip (lstrip s) = lstrip s.
Proof.
  destruct (lstrip s) as [|c r] eqn:E; [reflexivity|].
  apply lstrip_fixed. eapply lstrip_head; eauto.
Qed.

Lemma blank_lstrip s : blank (lstrip s) = blank s.
Proof.
  induction s as [|c s IH]; [reflexivity|]. cbn [lstrip].
  destruct (isspace c) eqn:Ec; [|reflexivity].
  rewrite IH. cbn [blank forallb]. now rewrite Ec.
Qed.

Lemma strip_blank s : truthy (strip s) = negb (blank s).
Proof. unfold strip. now rewrite rstrip_blank, blank_lstrip. Qed.

Lemma rstrip_snoc_space s c : isspace c = true -> rstrip (s ++ [c]) = rstrip s.
Proof.
  intros H. unfold rstrip. rewrite rev_app_distr. cbn [rev app lstrip].
  now rewrite H.
Qed.

Lemma rstrip_snoc s c : isspace c = false -> rstrip (s ++ [c]) = s ++ [c].
Proof.
  intros H. unfold rstrip. rewrite rev_app_distr. cbn [rev app lstrip].
  rewrite H. cbn [rev]. now rewrite rev_involutive.
Qed.

(** [rstrip] keeps a prefix that is empty or ends in a character that is
    not whitespace. *)
Lemma rstrip_cases s :
  rstrip s = [] \/ exists r c, rstrip s = r ++ [c] /\ isspace c = false.
Proof.
  unfold rstrip. destruct (lstrip (rev s)) as [|c r] eqn:E; [now left|].
  right. exists (rev r), c. split; [reflexivity|]. eapply lstrip_head; eauto.
Qed.

Lemma lstrip_suffix s : exists w, s = w ++ lstrip s.
Proof.
  induction s as [|c s [w Hw]]; [now exists []|]. cbn [lstrip].
  destruct (isspace c); [|now exists []].
  exists (c :: w). cbn [app]. now f_equal.
Qed.

Lemma rstrip_prefix s : exists w, s = rstrip s ++ w.
Proof.
  unfold rstrip. destruct (lstrip_suffix (rev s)) as [w Hw].
  exists (rev w). rewrite <- rev_app_distr, <- Hw. now rewrite rev_involutive.
Qed.

Lemma rstrip_idem s : rstrip (rstrip s) = rstrip s.
Proof.
  destruct (rstrip_cases s) as [-> | (r & c & -> & Hc)]; [reflexivity|].
  now apply rstrip_snoc.
Qed.

(** The head of a line survives [rstrip] when the line is not blank. *)
Lemma rstrip_keeps_head c r :
  isspace c = false -> exists r', rstrip (c :: r) = c :: r'.
Proof.
  intros Hc. destruct (rstrip_prefix (c :: r)) as [w Hw].
  destruct (rstrip (c :: r)) as [|c' r'] eqn:E.
  - pose proof (rstrip_blank (c :: r)) as Hb. rewrite E in Hb.
    cbn [truthy blank forallb] in Hb. now rewrite Hc in Hb.
  - cbn [app] in Hw. injection Hw as <- _. now exists r'.
Qed.

Lemma lstrip_rstrip_comm_head s : lstrip (rstrip (lstrip s)) = rstrip (lstrip s).
Proof.
  destruct (lstrip s) as [|c r] eqn:E; [reflexivity|].
  apply lstrip_head in E.
  destruct (rstrip_keeps_head c r E) as [r' ->]. now apply lstrip_fixed.
Qed.

Lemma strip_stripped s : stripped (strip s).
Proof.
  unfold stripped, strip. split.
  - apply lstrip_rstrip_comm_head.
  - apply rstrip_idem.
Qed.

Lemma stripped_strip s : stripped s -> strip s = s.
Proof. intros [Hl Hr]. unfold strip. now rewrite Hl. Qed.

Lemma blank_rstrip s : blank (rstrip s) = blank s.
Proof.
  pose proof (rstrip_blank s) as H.
  destruct (rstrip_cases s) as [E | (r & c & E & Hc)]; rewrite E in *.
  - cbn [truthy] in H. now destruct (blank s).
  - unfold blank at 1. rewrite forallb_app. cbn [forallb]. rewrite Hc.
    rewrite andb_false_r.
    destruct r; cbn [app truthy] in H; now destruct (blank s).
Qed.

End PyFacts.

(** ** Facts about the matcher *)

Module ReFacts.
Import Py Re PyFacts.

(** Decides the index comparisons of a goal that [lia] refutes. *)
Ltac eqb_false :=
  repeat match goal with
         | |- context [?a =? ?b] =>
             replace (a =? b) with false by (symmetry; apply Nat.eqb_neq; lia)
         end.

Lemma starts_with_stars_true s :
  starts_with_stars s = true -> exists r, s = star :: star :: r.
Proof.
  destruct s as [|a [|b r]]; simpl; try discriminate.
  intros H. apply andb_prop in H as [Ha Hb].
  apply Ascii.eqb_eq in Ha, Hb. subst. now exists r.
Qed.

Lemma starts_with_stars_stars r : starts_with_stars (stars ++ r) = true.
Proof. reflexivity. Qed.

Lemma lazy_tail_eq s :
  lazy_tail s =
  if starts_with_stars s then Some 0
  else match s with
       | [] => None
       | c :: s' => if Ascii.eqb c LF then None else option_map S (lazy_tail s')
       end.
Proof. destruct s; reflexivity. Qed.

Lemma lazy_tail_sound s : forall k,
  lazy_tail s = Some k ->
  s = firstn k s ++ stars ++ skipn (k + 2) s
  /\ Forall (fun c => c <> LF) (firstn k s).
Proof.
  induction s as [|c s IH]; intros k; rewrite lazy_tail_eq.
  - discriminate.
  - destruct (starts_with_stars (c :: s)) eqn:Est.
    + intros [= <-]. apply starts_with_stars_true in Est as [r ->].
      split; [reflexivity | constructor].
    + destruct (Ascii.eqb c LF) eqn:Ec; [discriminate|].
      destruct (lazy_tail s) as [k'|]; [|discriminate].
      intros [= <-]. destruct (IH _ eq_refl) as [Hs Hg].
      apply Ascii.eqb_neq in Ec. split.
      * cbn [firstn Nat.add skipn app]. now rewrite <- Hs.
      * cbn [firstn]. now constructor.
Qed.

Lemma match_at_sound s k :
  match_at s = Some k ->
  s = stars ++ firstn k (skipn 2 s) ++ stars ++ skipn (k + 4) s
  /\ 1 <= k /\ Forall (fun c => c <> LF) (firstn k (skipn 2 s)).
Proof.
  unfold match_at. destruct (starts_with_stars s) eqn:Est; [|discriminate].
  apply starts_with_stars_true in Est as [r ->]. cbn [skipn].
  destruct r as [|c r]; [discriminate|].
  destruct (Ascii.eqb c LF) eqn:Ec; [discriminate|].
  destruct (lazy_tail r) as [k'|] eqn:El; [|discriminate].
  intros [= <-]. apply lazy_tail_sound in El as [Hr Hg].
  apply Ascii.eqb_neq in Ec. repeat split.
  - cbn [firstn stars app]. do 3 f_equal.
    replace (S k' + 4) with (S (S (S (k' + 2)))) by lia. cbn [skipn]. exact Hr.
  - lia.
  - cbn [firstn]. now constructor.
Qed.

Lemma search_eq s :
  search s =
  match match_at s with
  | Some k => Some (0, k)
  | None =>
      match s with
      | [] => None
      | _ :: s' =>
          match search s' with
          | Some (st, k) => Some (S st, k)
          | None => None
          end
      end
  end.
Proof. destruct s; reflexivity. Qed.

(** A match found by [search] is a span [**g**] of the line. *)
Lemma search_sound s : forall st k,
  search s = Some (st, k) ->
  s = firstn st s ++ stars ++ firstn k (skipn (st + 2) s) ++ stars
        ++ skipn (st + k + 4) s
  /\ 1 <= k /\ Forall (fun c => c <> LF) (firstn k (skipn (st + 2) s)).
Proof.
  induction s as [|c s IH]; intros st k; rewrite search_eq.
  - destruct (match_at []) eqn:Em; [|discriminate].
    apply match_at_bound in Em. simpl in Em. lia.
  - destruct (match_at (c :: s)) as [k0|] eqn:Em.
    + intros [= <- <-]. now apply match_at_sound in Em.
    + destruct (search s) as [[st' k']|] eqn:Es; [|discriminate].
      intros [= <- <-]. destruct (IH _ _ eq_refl) as (Hs & Hk & Hg).
      cbn [firstn Nat.add skipn app]. rewrite <- Hs. auto.
Qed.

Lemma lazy_tail_complete g rest :
  Forall (fun c => c <> LF) g ->
  exists k, lazy_tail (g ++ stars ++ rest) = Some k /\ k <= length g.
Proof.
  induction 1 as [|c g Hc Hg IH]; rewrite lazy_tail_eq.
  - exists 0. cbn [app]. now rewrite starts_with_stars_stars.
  - destruct (starts_with_stars ((c :: g) ++ stars ++ rest)).
    + exists 0. split; [reflexivity | lia].
    + cbn [app]. apply Ascii.eqb_neq in Hc. rewrite Hc.
      destruct IH as (k & -> & Hk). exists (S k). split; [reflexivity|].
      simpl. lia.
Qed.

Lemma match_at_complete g rest :
  dot_plus g -> exists k, match_at (stars ++ g ++ stars ++ rest) = Some k.
Proof.
  intros [Hne Hg]. unfold match_at. rewrite starts_with_stars_stars.
  change (skipn 2 (stars ++ g ++ stars ++ rest)) with (g ++ stars ++ rest).
  destruct Hg as [|c g Hc Hg]; [contradiction|].
  cbn [app]. apply Ascii.eqb_neq in Hc. rewrite Hc.
  destruct (lazy_tail_complete _ rest Hg) as (k & -> & _). now exists (S k).
Qed.

(** [search] finds a match whenever the line has a complete span. *)
Lemma search_complete s : has_match s -> search s <> None.
Proof.
  intros (pre & g & rest & -> & Hg).
  induction pre as [|c pre IH]; rewrite search_eq.
  - destruct (match_at_complete _ rest Hg) as [k Hk]. cbn [app]. now rewrite Hk.
  - destruct (match_at ((c :: pre) ++ stars ++ g ++ stars ++ rest));
      [discriminate|].
    cbn [app].
    destruct (search (pre ++ stars ++ g ++ stars ++ rest)) as [[st k]|];
      [discriminate | contradiction].
Qed.

Lemma search_has_match s st k : search s = Some (st, k) -> has_match s.
Proof.
  intros E. destruct (search_sound _ _ _ E) as (Hs & Hk & Hg).
  exists (firstn st s), (firstn k (skipn (st + 2) s)), (skipn (st + k + 4) s).
  split; [exact Hs|]. split; [|exact Hg].
  intros Hnil. apply (f_equal (@List.length _)) in Hnil.
  pose proof (search_bound _ _ _ E). rewrite length_firstn, length_skipn in Hnil.
  simpl in Hnil. lia.
Qed.

Lemma search_none_iff s : search s = None <-> ~ has_match s.
Proof.
  split.
  - intros E H. now apply search_complete in H.
  - intros H. destruct (search s) as [[st k]|] eqn:E; [|reflexivity].
    exfalso. apply H. eapply search_has_match; eauto.
Qed.

Lemma match_at_shortest g rest k :
  dot_plus g -> match_at (stars ++ g ++ stars ++ rest) = Some k ->
  k <= length g.
Proof.
  intros [Hne Hg]. unfold match_at. rewrite starts_with_stars_stars.
  change (skipn 2 (stars ++ g ++ stars ++ rest)) with (g ++ stars ++ rest).
  destruct Hg as [|c g Hc Hg]; [contradiction|].
  cbn [app]. apply Ascii.eqb_neq in Hc. rewrite Hc.
  destruct (lazy_tail_complete _ rest Hg) as (k' & -> & Hk').
  intros [= <-]. simpl. lia.
Qed.

Lemma search_leftmost pre g rest : forall st k,
  dot_plus g -> search (pre ++ stars ++ g ++ stars ++ rest) = Some (st, k) ->
  st <= length pre.
Proof.
  induction pre as [|c pre IH]; intros st k Hg; rewrite search_eq.
  - destruct (match_at_complete _ rest Hg) as [k' Hk']. cbn [app].
    rewrite Hk'. intros [= <- <-]. lia.
  - destruct (match_at ((c :: pre) ++ stars ++ g ++ stars ++ rest)).
    + intros [= <- <-]. lia.
    + cbn [app].
      destruct (search (pre ++ stars ++ g ++ stars ++ rest)) as [[st' k']|] eqn:E;
        [|discriminate].
      intros [= <- <-]. specialize (IH _ _ Hg eq_refl). simpl. lia.
Qed.

Lemma search_match_at s : forall st k,
  search s = Some (st, k) -> match_at (skipn st s) = Some k.
Proof.
  induction s as [|c s IH]; intros st k; rewrite search_eq.
  - destruct (match_at []) eqn:Em; [|discriminate].
    intros [= <- <-]. exact Em.
  - destruct (match_at (c :: s)) as [k0|] eqn:Em.
    + intros [= <- <-]. exact Em.
    + destruct (search s) as [[st' k']|] eqn:Es; [|discriminate].
      intros [= <- <-]. cbn [skipn]. now apply IH.
Qed.

(** What [search] returns is the first match. *)
Lemma search_first_match s st k :
  search s = Some (st, k) ->
  first_match s (firstn st s) (firstn k (skipn (st + 2) s))
    (skipn (st + k + 4) s).
Proof.
  intros E. pose proof (search_bound _ _ _ E) as Hb.
  destruct (search_sound _ _ _ E) as (Hs & Hk & Hg).
  set (pre := firstn st s) in *.
  set (g := firstn k (skipn (st + 2) s)) in *.
  set (rest := skipn (st + k + 4) s) in *.
  assert (Lpre : length pre = st) by (subst pre; rewrite length_firstn; lia).
  assert (Lg : length g = k)
    by (subst g; rewrite length_firstn, length_skipn; lia).
  assert (Hdp : dot_plus g).
  { split; [|exact Hg]. intros Hnil. rewrite Hnil in Lg. simpl in Lg. lia. }
  repeat split; try assumption; try apply Hdp.
  - intros pre' g' rest' Hs' Hg'. rewrite Lpre. rewrite Hs' in E.
    eapply search_leftmost; eauto.
  - intros g' rest' Heq Hg'. rewrite Lg.
    pose proof (search_match_at _ _ _ E) as Em.
    assert (Hsk : skipn st s = stars ++ g' ++ stars ++ rest').
    { rewrite Hs. rewrite <- Lpre at 1.
      rewrite skipn_app, skipn_all, Nat.sub_diag. cbn [skipn app].
      change (stars ++ g ++ stars ++ rest) with ([star; star] ++ (g ++ stars ++ rest)).
      rewrite Heq. reflexivity. }
    rewrite Hsk in Em. eapply match_at_shortest; eauto.
Qed.

(** The first match is unique: it is the one [search] returns. *)
Lemma first_match_search line pre g rest :
  first_match line pre g rest ->
  search line = Some (length pre, length g)
  /\ pre = firstn (length pre) line
  /\ g = firstn (length g) (skipn (length pre + 2) line)
  /\ rest = skipn (length pre + length g + 4) line.
Proof.
  intros (Hs & Hg & Hleft & Hshort).
  assert (Hm : has_match line) by (exists pre, g, rest; auto).
  destruct (search line) as [[st k]|] eqn:E;
    [|now apply search_complete in Hm].
  destruct (search_first_match _ _ _ E) as (Hs0 & Hg0 & Hleft0 & Hshort0).
  pose proof (search_bound _ _ _ E) as Hb.
  set (pre0 := firstn st line) in *.
  set (g0 := firstn k (skipn (st + 2) line)) in *.
  set (rest0 := skipn (st + k + 4) line) in *.
  assert (Lpre : length pre0 = st) by (subst pre0; rewrite length_firstn; lia).
  assert (Lg : length g0 = k)
    by (subst g0; rewrite length_firstn, length_skipn; lia).
  assert (Hst : length pre = st).
  { apply Nat.le_antisymm.
    - rewrite <- Lpre. eapply Hleft; eauto.
    - rewrite <- Lpre. eapply Hleft0; eauto. }
  assert (Heq : pre ++ stars ++ g ++ stars ++ rest
                = pre0 ++ stars ++ g0 ++ stars ++ rest0) by congruence.
  apply app_eq_length in Heq as [Hpre Heq]; [|lia].
  apply (app_eq_length stars _ stars _) in Heq as [_ Heq]; [|reflexivity].
  assert (Hk : length g = k).
  { apply Nat.le_antisymm.
    - rewrite <- Lg. eapply Hshort; eauto.
    - rewrite <- Lg. eapply Hshort0; eauto. }
  apply app_eq_length in Heq as [Hgg Heq]; [|lia].
  apply (app_eq_length stars _ stars _) in Heq as [_ Hrest]; [|reflexivity].
  rewrite Hst, Hk. subst pre0 g0 rest0. auto.
Qed.

Lemma finditer_from_unfold off s :
  finditer_from off s =
  match search s with
  | None => []
  | Some (st, k) =>
      mkMatch (off + st) (off + st + k + 4) (firstn k (skipn (st + 2) s))
        :: finditer_from (off + st + k + 4) (skipn (st + k + 4) s)
  end.
Proof.
  funelim (finditer_from off s).
  - rewrite e. reflexivity.
  - rewrite e. reflexivity.
Qed.

Lemma finditer_from_none off s : search s = None -> finditer_from off s = [].
Proof. intros H. rewrite finditer_from_unfold, H. reflexivity. Qed.

Lemma finditer_from_some off s st k :
  search s = Some (st, k) ->
  finditer_from off s =
  mkMatch (off + st) (off + st + k + 4) (firstn k (skipn (st + 2) s))
    :: finditer_from (off + st + k + 4) (skipn (st + k + 4) s).
Proof. intros H. rewrite finditer_from_unfold, H. reflexivity. Qed.


Lemma is_marker_cons m ms i :
  is_marker (m :: ms) i =
  (i =? m_start m) || (i =? m_start m + 1) || (i =? m_end m - 2)
  || (i =? m_end m - 1) || is_marker ms i.
Proof.
  unfold is_marker, marker_positions. cbn [flat_map app existsb].
  now rewrite !orb_assoc.
Qed.

Lemma finditer_from_after n : forall s off, length s <= n ->
  forall i, i < off -> is_marker (finditer_from off s) i = false.
Proof.
  induction n as [|n IH]; intros s off Hn i Hi; rewrite finditer_from_unfold.
  - destruct s; [|simpl in Hn; lia]. reflexivity.
  - destruct (search s) as [[st k]|] eqn:E; [|reflexivity].
    pose proof (search_bound _ _ _ E) as Hb.
    rewrite is_marker_cons. cbn [m_start m_end].
    rewrite IH by (rewrite ?length_skipn; lia).
    now eqb_false.
Qed.

End ReFacts.

(** ** Facts about the decoder *)

Module DecoderFacts.
Import Py Re Decoder PyFacts ReFacts.

(** The scanner on a few lines. *)
Example finditer_six_stars :
  finditer "******" = [mkMatch 0 5 "*"].
Proof. reflexivity. Qed.
Example finditer_adjacent :
  finditer "**a****b**" = [mkMatch 0 5 "a"; mkMatch 5 10 "b"].
Proof. reflexivity. Qed.
Example finditer_star_group :
  finditer "***a**" = [mkMatch 0 6 "*a"].
Proof. reflexivity. Qed.
Example finditer_line_feed_in_group :
  finditer ("**a" ++ [LF] ++ "b**") = [].
Proof. reflexivity. Qed.
Example finditer_after_line_feed :
  finditer ("x**" ++ [LF] ++ "**y**z**") = [mkMatch 4 9 "y"].
Proof. reflexivity. Qed.

(** The decoder on a few lines. *)
Example decode_hello_world : decode_line "Hello **world** today" =
  [mkRun false "Hello "; mkRun true "world"; mkRun false " today"].
Proof. reflexivity. Qed.
Example decode_unterminated : decode_line "**unterminated" = [mkRun false "**unterminated"].
Proof. reflexivity. Qed.
Example decode_five_stars : decode_line "*****" = [mkRun true "*"].
Proof. reflexivity. Qed.
Example decode_four_stars : decode_line "****" = [mkRun false "****"].
Proof. reflexivity. Qed.
Example decode_odd_marker : decode_line "**a** **b" = [mkRun true "a"; mkRun false " **b"].
Proof. reflexivity. Qed.
Example decode_empty : decode_line "" = [].
Proof. reflexivity. Qed.

Lemma slice_skipn (s : str) e n : slice s e (e + n) = firstn n (skipn e s).
Proof. unfold slice. f_equal. lia. Qed.

Lemma loop_body_at (s : str) e runs st k g :
  g = firstn k (skipn (st + 2) (skipn e s)) ->
  loop_body s (e, runs) (mkMatch (e + st) (e + st + k + 4) g)
  = (e + st + k + 4, runs ++ match_runs (skipn e s) st k).
Proof.
  intros ->. unfold loop_body, match_runs. cbn [m_start m_end group1].
  rewrite slice_skipn.
  destruct (truthy (firstn st (skipn e s))); rewrite <- ?app_assoc; reflexivity.
Qed.

(** Resuming the loop at [last_end = e] decodes what is left of the line
    as a line of its own. *)
Lemma decode_resume n : forall (s : str) e runs,
  length s - e <= n -> e <= length s ->
  finish s (fold_left (loop_body s) (finditer_from e (skipn e s)) (e, runs))
  = runs ++ decode_line (skipn e s).
Proof.
  induction n as [|n IH]; intros s e runs Hn He.
  - assert (Hnil : skipn e s = []) by (apply skipn_all2; lia).
    rewrite Hnil. unfold decode_line, finditer.
    rewrite !finditer_from_none by reflexivity. simpl.
    replace (e <? length s) with false by (symmetry; apply Nat.ltb_ge; lia).
    now rewrite app_nil_r.
  - destruct (search (skipn e s)) as [[st k]|] eqn:E.
    + pose proof (search_bound _ _ _ E) as Hb. rewrite length_skipn in Hb.
      assert (Hsk : forall a, skipn (st + k + 4) (skipn a s) = skipn (a + st + k + 4) s).
      { intros a. rewrite skipn_skipn. f_equal. lia. }
      rewrite (finditer_from_some _ _ _ _ E). cbn [fold_left].
      rewrite (loop_body_at s e runs st k) by reflexivity.
      rewrite Hsk. rewrite IH by lia.
      unfold decode_line at 2, finditer.
      rewrite (finditer_from_some _ _ _ _ E). cbn [fold_left].
      rewrite (loop_body_at (skipn e s) 0 [] st k) by reflexivity.
      cbn [skipn app]. 
      replace (skipn (st + k + 4) (skipn e s))
        with (skipn (0 + st + k + 4) (skipn e s)) by reflexivity.
      rewrite IH by (rewrite length_skipn; lia).
      rewrite skipn_skipn, <- app_assoc. do 4 f_equal. lia.
    + unfold decode_line, finditer. rewrite !finditer_from_none by assumption.
      simpl. unfold slice_from.
      destruct (skipn e s) as [|c r] eqn:Er.
      * apply (f_equal (@List.length _)) in Er. rewrite length_skipn in Er.
        simpl in Er.
        replace (e <? length s) with false by (symmetry; apply Nat.ltb_ge; lia).
        now rewrite app_nil_r.
      * apply (f_equal (@List.length _)) in Er as El. rewrite length_skipn in El.
        simpl in El.
        replace (e <? length s) with true by (symmetry; apply Nat.ltb_lt; lia).
        reflexivity.
Qed.

(** The decoder on a line without a match and on a line with one. *)
Lemma decode_line_no_match line :
  search line = None ->
  decode_line line = if truthy line then [mkRun false line] else [].
Proof.
  intros E. unfold decode_line, finditer. rewrite finditer_from_none by assumption.
  destruct line; reflexivity.
Qed.

Lemma decode_line_match line st k :
  search line = Some (st, k) ->
  decode_line line =
  match_runs line st k ++ decode_line (skipn (st + k + 4) line).
Proof.
  intros E. pose proof (search_bound _ _ _ E) as Hb.
  unfold decode_line at 1, finditer.
  rewrite (finditer_from_some _ _ _ _ E). cbn [fold_left].
  rewrite (loop_body_at line 0 [] st k) by reflexivity.
  cbn [skipn app].
  apply (decode_resume (length line)); lia.
Qed.

Lemma encode_app r1 r2 : encode (r1 ++ r2) = encode r1 ++ encode r2.
Proof. unfold encode. now rewrite map_app, concat_app. Qed.

Lemma plain_text_app r1 r2 :
  plain_text (r1 ++ r2) = plain_text r1 ++ plain_text r2.
Proof. unfold plain_text. now rewrite map_app, concat_app. Qed.

Lemma encode_match_runs s st k :
  encode (match_runs s st k)
  = firstn st s ++ stars ++ firstn k (skipn (st + 2) s) ++ stars.
Proof.
  unfold match_runs. rewrite encode_app.
  destruct (firstn st s) as [|c r]; unfold encode; simpl;
    now rewrite ?app_nil_r, <- ?app_assoc.
Qed.

Lemma plain_text_match_runs s st k :
  plain_text (match_runs s st k) = firstn st s ++ firstn k (skipn (st + 2) s).
Proof.
  unfold match_runs. rewrite plain_text_app.
  destruct (firstn st s) as [|c r]; unfold plain_text; simpl;
    now rewrite ?app_nil_r.
Qed.

Lemma encode_decode_line line : encode (decode_line line) = line.
Proof.
  induction line as [line IH] using str_length_ind.
  destruct (search line) as [[st k]|] eqn:E.
  - rewrite (decode_line_match _ _ _ E), encode_app, encode_match_runs.
    pose proof (search_bound _ _ _ E) as Hb.
    rewrite IH by (rewrite length_skipn; lia).
    destruct (search_sound _ _ _ E) as (Hs & _).
    rewrite <- !app_assoc. symmetry. exact Hs.
  - rewrite (decode_line_no_match _ E).
    destruct line; [reflexivity|]. unfold encode. simpl. now rewrite app_nil_r.
Qed.

Lemma encode_length runs :
  length (encode runs)
  = length (plain_text runs) + 4 * length (filter bold runs).
Proof.
  unfold encode, plain_text. induction runs as [|[b t] runs IH]; [reflexivity|].
  cbn [map List.concat filter bold]. rewrite !length_app, IH.
  unfold encode_run. cbn [bold text].
  destruct b; cbn [length]; rewrite ?length_app; simpl; lia.
Qed.

(** Every bold run is a span of the line that is closed on both sides. *)
Lemma bold_runs_closed line : forall r,
  In r (decode_line line) -> bold r = true ->
  exists pre rest, line = pre ++ stars ++ text r ++ stars ++ rest
                   /\ dot_plus (text r).
Proof.
  induction line as [line IH] using str_length_ind. intros r Hin Hb.
  destruct (search line) as [[st k]|] eqn:E.
  - pose proof (search_bound _ _ _ E) as Hbd.
    destruct (search_first_match _ _ _ E) as (Hs & Hg & _).
    rewrite (decode_line_match _ _ _ E) in Hin.
    apply in_app_or in Hin as [Hin | Hin].
    + unfold match_runs in Hin. apply in_app_or in Hin as [Hin | Hin].
      * destruct (truthy (firstn st line)); [|contradiction].
        destruct Hin as [<- | []]. discriminate.
      * destruct Hin as [<- | []]. cbn [text]. eauto.
    + destruct (IH (skipn (st + k + 4) line)
                  ltac:(rewrite length_skipn; lia) r Hin Hb)
        as (pre & rest & Hsk & Hd).
      exists (firstn (st + k + 4) line ++ pre), rest. split; [|exact Hd].
      rewrite <- app_assoc, <- Hsk. symmetry. apply firstn_skipn.
  - rewrite (decode_line_no_match _ E) in Hin.
    destruct (truthy line); [|contradiction].
    destruct Hin as [<- | []]. discriminate.
Qed.

Lemma select_app p off a b :
  select p off (a ++ b) = select p off a ++ select p (off + length a) b.
Proof.
  revert off; induction a as [|c a IH]; intros off; cbn [app select length].
  - now rewrite Nat.add_0_r.
  - rewrite IH. replace (S off + length a) with (off + S (length a)) by lia.
    now destruct (p off).
Qed.

Lemma select_ext p q off s :
  (forall i, off <= i < off + length s -> p i = q i) ->
  select p off s = select q off s.
Proof.
  revert off; induction s as [|c s IH]; intros off H; cbn [select]; auto.
  rewrite (H off) by (simpl; lia).
  rewrite (IH (S off)); [reflexivity|].
  intros i Hi. apply H. simpl. lia.
Qed.

Lemma select_true off s : select (fun _ => true) off s = s.
Proof. revert off; induction s; intros; cbn [select]; congruence. Qed.

Lemma select_false off s : select (fun _ => false) off s = [].
Proof. revert off; induction s; intros; cbn [select]; auto. Qed.

Lemma plain_text_select_aux n : forall s off, length s <= n ->
  select (fun i => negb (is_marker (finditer_from off s) i)) off s
  = plain_text (decode_line s).
Proof.
  induction n as [|n IH]; intros s off Hn.
  - destruct s; [|simpl in Hn; lia]. reflexivity.
  - destruct (search s) as [[st k]|] eqn:E.
    + pose proof (search_bound _ _ _ E) as Hb.
      destruct (search_sound _ _ _ E) as (Hs & Hk & _).
      rewrite (decode_line_match _ _ _ E), plain_text_app, plain_text_match_runs.
      rewrite (finditer_from_some off _ _ _ E).
      set (ms := finditer_from _ (skipn _ s)).
      set (m := mkMatch _ _ _).
      set (pre := firstn st s) in *.
      set (g := firstn k (skipn (st + 2) s)) in *.
      set (rest := skipn (st + k + 4) s) in *.
      assert (Lpre : length pre = st) by (subst pre; rewrite length_firstn; lia).
      assert (Lg : length g = k)
        by (subst g; rewrite length_firstn, length_skipn; lia).
      assert (Hms : forall i, i < off + st + k + 4 -> is_marker ms i = false).
      { intros i Hi. subst ms rest.
        apply (finditer_from_after n); [|exact Hi].
        rewrite length_skipn. lia. }
      set (P := fun i => negb (is_marker (m :: ms) i)).
      assert (HP : forall i, P i =
                negb ((i =? off + st) || (i =? off + st + 1)
                      || (i =? off + st + k + 4 - 2)
                      || (i =? off + st + k + 4 - 1) || is_marker ms i)).
      { intros i. unfold P. now rewrite is_marker_cons. }
      assert (H1 : select P off pre = pre).
      { rewrite (select_ext P (fun _ => true)); [apply select_true|].
        intros i Hi. rewrite HP, Hms by lia. apply negb_true_iff.
        now eqb_false. }
      assert (H2 : select P (off + length pre) stars = []).
      { rewrite (select_ext P (fun _ => false)); [apply select_false|].
        intros i Hi. simpl in Hi. rewrite HP. apply negb_false_iff.
        assert (Hc : i = off + st \/ i = off + st + 1) by lia.
        destruct Hc as [-> | ->]; rewrite Nat.eqb_refl;
          now rewrite ?orb_true_r. }
      assert (H3 : select P (off + length pre + length stars) g = g).
      { rewrite (select_ext P (fun _ => true)); [apply select_true|].
        intros i Hi. simpl in Hi. rewrite HP, Hms by lia. apply negb_true_iff.
        now eqb_false. }
      assert (H4 : select P (off + length pre + length stars + length g) stars
                   = []).
      { rewrite (select_ext P (fun _ => false)); [apply select_false|].
        intros i Hi. simpl in Hi. rewrite HP. apply negb_false_iff.
        assert (Hc : i = off + st + k + 4 - 2 \/ i = off + st + k + 4 - 1)
          by lia.
        destruct Hc as [-> | ->]; rewrite Nat.eqb_refl;
          now rewrite ?orb_true_r. }
      assert (H5 : select P (off + st + k + 4) rest
                   = select (fun i => negb (is_marker ms i))
                       (off + st + k + 4) rest).
      { apply select_ext. intros i Hi. rewrite HP. f_equal.
        now eqb_false. }
      rewrite Hs at 1. rewrite !select_app, H1, H2, H3, H4.
      replace (off + length pre + length stars + length g + length stars)
        with (off + st + k + 4) by (simpl; lia).
      rewrite H5. cbn [app]. rewrite <- app_assoc. do 2 f_equal.
      subst ms. apply IH. subst rest. rewrite length_skipn. lia.
    + rewrite (finditer_from_none off _ E), (decode_line_no_match _ E).
      rewrite (select_ext _ (fun _ => true)) by reflexivity.
      rewrite select_true. destruct s; [reflexivity|].
      unfold plain_text. simpl. now rewrite app_nil_r.
Qed.

Lemma plain_text_without_markers line :
  plain_text (decode_line line) = without_markers line.
Proof.
  symmetry. apply (plain_text_select_aux (length line)). lia.
Qed.

End DecoderFacts.

(** ** Facts about the normalizer *)

Module NormalizerFacts.
Import Py Soup Normalizer PyFacts.

Lemma parse_node_li attrs children indent list_type :
  parse_node (Tag "li" attrs children) indent list_type =
  match flat_map (fun child => parse_node child (indent + 2) None) children with
  | first :: rest =>
      (spaces indent ++ bullet_of list_type ++ lstrip first)
        :: map (fun line => spaces (indent + 2) ++ line) rest
  | [] => [spaces indent ++ bullet_of list_type]
  end.
Proof. reflexivity. Qed.

Lemma parse_node_a attrs children indent list_type :
  parse_node (Tag "a" attrs children) indent list_type =
  [spaces indent ++
   (if truthy (get attrs "href" "")
    then "[" ++ get_text children ++ "](" ++ get attrs "href" "" ++ ")"
    else get_text children)].
Proof. reflexivity. Qed.

Lemma get_lookup attrs key default :
  get attrs key default =
  match lookup attrs key with Some v => v | None => default end.
Proof.
  induction attrs as [|[k v] attrs IH]; [reflexivity|]. cbn [get lookup].
  now destruct (String.eqb k key).
Qed.

Lemma leading_spaces_indent n s :
  leading_spaces (spaces n ++ s) = n + leading_spaces s.
Proof.
  unfold spaces. induction n as [|n IH]; [reflexivity|].
  cbn [repeat app leading_spaces]. now rewrite Ascii.eqb_refl, IH.
Qed.

Lemma bullet_of_cases lt : bullet_of lt = "- " \/ bullet_of lt = "1. ".
Proof.
  destruct lt as [t|]; cbn [bullet_of]; [|now left].
  destruct (String.eqb t "ol"); [now right | now left].
Qed.

Lemma rstrip_bullet n list_type :
  rstrip (spaces n ++ bullet_of list_type) = spaces n ++ bare_bullet list_type.
Proof.
  assert (H : bullet_of list_type = bare_bullet list_type ++ [space]
              /\ exists r c, bare_bullet list_type = r ++ [c]
                             /\ isspace c = false).
  { destruct list_type as [t|]; cbn [bullet_of bare_bullet].
    - destruct (String.eqb t "ol"); split; try reflexivity.
      + now exists ["1"%char], "."%char.
      + now exists [], "-"%char.
    - split; [reflexivity|]. now exists [], "-"%char. }
  destruct H as (-> & r & c & -> & Hc).
  rewrite !app_assoc. rewrite rstrip_snoc_space by reflexivity.
  now apply rstrip_snoc.
Qed.

Lemma blank_bullet n list_type : blank (spaces n ++ bullet_of list_type) = false.
Proof.
  unfold blank. rewrite forallb_app.
  destruct (bullet_of_cases list_type) as [-> | ->];
    cbn [forallb list_ascii_of_string]; apply andb_false_r.
Qed.

Lemma final_lines_eq lines :
  final_lines lines = map rstrip (filter nonblank lines).
Proof.
  unfold final_lines. f_equal. apply filter_ext. intros l. apply strip_blank.
Qed.

(** Every entry the final filter keeps is neither blank nor followed by
    whitespace. *)
Lemma final_lines_clean lines :
  Forall (fun l => blank l = false /\ rstrip l = l) (final_lines lines).
Proof.
  rewrite final_lines_eq. induction lines as [|l lines IH]; [constructor|].
  cbn [filter]. destruct (nonblank l) eqn:E; [|exact IH].
  cbn [map]. constructor; [|exact IH]. split.
  - rewrite blank_rstrip. unfold nonblank in E. now destruct (blank l).
  - apply rstrip_idem.
Qed.

(** Every line that is kept is stripped on the right and not empty. *)
Lemma final_lines_ends_clean lines : Forall ends_clean (final_lines lines).
Proof.
  rewrite final_lines_eq. induction lines as [|l lines IH]; [constructor|].
  cbn [filter]. destruct (nonblank l) eqn:E; [|exact IH].
  cbn [map]. constructor; [|exact IH].
  destruct (rstrip_cases l) as [Hnil | H]; [|exact H].
  pose proof (rstrip_blank l) as Hb. rewrite Hnil in Hb.
  unfold nonblank in E. rewrite E in Hb. discriminate.
Qed.

Lemma head_clean_app a b : head_clean a -> head_clean b -> head_clean (a ++ b).
Proof.
  unfold head_clean. intros Ha Hb. induction a as [|l a IH]; [exact Hb|].
  cbn [app find] in Ha |- *. destruct (nonblank l); [exact Ha | now apply IH].
Qed.

Lemma head_clean_flat_map (f : Node -> list str) children :
  Forall (fun n => head_clean (f n)) children ->
  head_clean (flat_map f children).
Proof.
  induction 1 as [|n l Hn Hl IH]; cbn [flat_map]; [exact I|].
  now apply head_clean_app.
Qed.

Lemma head_clean_single l : lstrip l = l -> head_clean [l].
Proof. intros H. unfold head_clean. cbn [find]. now destruct (nonblank l). Qed.

Lemma head_clean_blank : head_clean [[]].
Proof. exact I. Qed.

(** The pieces [get_text] joins are stripped and not empty. *)
Lemma all_strings_stripped node :
  Forall (fun p => truthy p = true /\ stripped p) (all_strings node).
Proof.
  induction node as [cls data | name attrs children IH] using Node_ind;
    cbn [all_strings].
  - destruct (in_text cls); cbn [andb]; [|constructor].
    destruct (truthy (strip data)) eqn:E; constructor; [|constructor].
    split; [exact E | apply strip_stripped].
  - induction IH as [|n l Hn _ IHl]; cbn [flat_map]; [constructor|].
    apply Forall_app. now split.
Qed.

Lemma concat_head_clean (ps : list str) :
  Forall (fun p => truthy p = true /\ stripped p) ps ->
  lstrip (List.concat ps) = List.concat ps.
Proof.
  intros H. destruct H as [|p ps [Hp [Hl _]] _]; [reflexivity|].
  destruct p as [|c r]; [discriminate|]. cbn [List.concat app].
  apply lstrip_fixed. eapply lstrip_head; eauto.
Qed.

Lemma get_text_head_clean children :
  lstrip (get_text children) = get_text children.
Proof.
  apply concat_head_clean. induction children as [|n l IH]; cbn [flat_map].
  - constructor.
  - apply Forall_app. split; [apply all_strings_stripped | exact IH].
Qed.

(** At the top level (indent 0) the first surviving line of a node starts
    with a character that is not whitespace. *)
Lemma parse_node_head_clean node :
  forall list_type, head_clean (parse_node node 0 list_type).
Proof.
  induction node as [cls data | name attrs children IH] using Node_ind;
    intros lt; cbn [parse_node].
  - destruct (truthy (strip data)); [|exact I].
    apply head_clean_single. cbn [spaces repeat app].
    apply (strip_stripped data).
  - destruct (String.eqb name "ul" || String.eqb name "ol").
    { apply head_clean_flat_map. eapply Forall_impl; [|exact IH].
      intros n Hn. apply Hn. }
    destruct (String.eqb name "li").
    { destruct (flat_map _ children) as [|first rest];
        unfold head_clean; cbn [spaces repeat app find].
      - destruct (bullet_of_cases lt) as [-> | ->]; reflexivity.
      - destruct (bullet_of_cases lt) as [-> | ->]; reflexivity. }
    destruct (String.eqb name "a").
    { apply head_clean_single. cbn [spaces repeat app].
      destruct (truthy (get attrs "href" "")); [reflexivity|].
      apply get_text_head_clean. }
    destruct (String.eqb name "br"); [exact head_clean_blank|].
    assert (Hsub : head_clean
              (flat_map (fun child => parse_node child 0 lt) children)).
    { apply head_clean_flat_map. eapply Forall_impl; [|exact IH].
      intros n Hn. apply Hn. }
    destruct (String.eqb name "p" || String.eqb name "div"); [|exact Hsub].
    destruct (flat_map _ children) as [|l ls] eqn:E; [exact I|].
    apply head_clean_app; [exact Hsub | exact head_clean_blank].
Qed.

Lemma parsed_lines_head_clean soup : head_clean (parsed_lines soup).
Proof.
  unfold parsed_lines. apply head_clean_flat_map.
  apply Forall_forall. intros n _. apply parse_node_head_clean.
Qed.

Lemma final_lines_head lines :
  head_clean lines ->
  final_lines lines = []
  \/ exists c r more,
       final_lines lines = (c :: r) :: more /\ isspace c = false.
Proof.
  rewrite final_lines_eq. unfold head_clean.
  induction lines as [|l lines IH]; [now left|].
  cbn [find filter]. destruct (nonblank l) eqn:E; [|exact IH].
  intros Hl. right. destruct l as [|c r]; [discriminate|].
  assert (Hc : isspace c = false) by (eapply lstrip_head; eauto).
  destruct (rstrip_keeps_head c r Hc) as [r' Hr].
  exists c, r', (map rstrip (filter nonblank lines)).
  cbn [map]. now rewrite Hr.
Qed.

Lemma join_ends_clean sep ps :
  ps <> [] -> Forall ends_clean ps -> ends_clean (join sep ps).
Proof.
  induction ps as [|p ps IH]; [congruence|]. intros _ H.
  inversion H as [|? ? Hp Hps]; subst.
  destruct ps as [|q ps]; [exact Hp|].
  destruct (IH ltac:(discriminate) Hps) as (r & c & Hj & Hc).
  exists (p ++ sep ++ r), c. split; [|exact Hc].
  change (join sep (p :: q :: ps)) with (p ++ sep ++ join sep (q :: ps)).
  rewrite Hj. now rewrite <- !app_assoc.
Qed.

Lemma join_head sep c r more : exists r', join sep ((c :: r) :: more) = c :: r'.
Proof. destruct more; cbn [join app]; eauto. Qed.

(** The output of the normalizer has no whitespace at either end. *)
Lemma normalize_soup_stripped soup : stripped (normalize_soup soup).
Proof.
  unfold normalize_soup.
  destruct (final_lines_head _ (parsed_lines_head_clean soup))
    as [Hnil | (c & r & more & Hf & Hc)].
  - rewrite Hnil. split; reflexivity.
  - pose proof (final_lines_ends_clean (parsed_lines soup)) as He.
    rewrite Hf in *. split.
    + destruct (join_head [LF] c r more) as [r' ->]. now apply lstrip_fixed.
    + assert (Hne : (c :: r) :: more <> []) by discriminate.
      destruct (join_ends_clean [LF] _ Hne He) as (r' & c' & -> & Hc').
      now apply rstrip_snoc.
Qed.

(** A stripped text, taken as one string node, comes out as it went in. *)
Lemma normalize_text_soup s : stripped s -> normalize_soup (text_soup s) = s.
Proof.
  intros Hs. destruct s as [|c r]; [reflexivity|].
  unfold normalize_soup, parsed_lines, final_lines.
  cbn [text_soup flat_map parse_node].
  rewrite (stripped_strip _ Hs). cbn [truthy spaces repeat app filter].
  rewrite (stripped_strip _ Hs). cbn [truthy map join].
  apply Hs.
Qed.

(** *** Trees without line feeds *)

Lemma one_line_app a b : one_line (a ++ b) = one_line a && one_line b.
Proof. apply forallb_app. Qed.

Lemma one_line_rev s : one_line (rev s) = one_line s.
Proof.
  induction s as [|c s IH]; [reflexivity|]. cbn [rev].
  rewrite one_line_app, IH. cbn [one_line forallb].
  rewrite andb_true_r. apply andb_comm.
Qed.

Lemma one_line_lstrip s : one_line s = true -> one_line (lstrip s) = true.
Proof.
  induction s as [|c s IH]; [reflexivity|]. intros H. cbn [lstrip].
  destruct (isspace c); [|exact H].
  apply IH. cbn [one_line forallb] in H. now apply andb_prop in H.
Qed.

Lemma one_line_rstrip s : one_line s = true -> one_line (rstrip s) = true.
Proof.
  intros H. unfold rstrip. rewrite one_line_rev. apply one_line_lstrip.
  now rewrite one_line_rev.
Qed.

Lemma one_line_strip s : one_line s = true -> one_line (strip s) = true.
Proof. intros H. now apply one_line_rstrip, one_line_lstrip. Qed.

Lemma one_line_spaces n : one_line (spaces n) = true.
Proof. induction n as [|n IH]; [reflexivity | exact IH]. Qed.

Lemma one_line_concat ps :
  Forall (fun p => one_line p = true) ps -> one_line (List.concat ps) = true.
Proof.
  induction 1 as [|p ps Hp _ IH]; [reflexivity|].
  cbn [List.concat]. now rewrite one_line_app, Hp, IH.
Qed.

Lemma Forall_flat_map {A B} (P : B -> Prop) (f : A -> list B) l :
  Forall (fun a => Forall P (f a)) l -> Forall P (flat_map f l).
Proof.
  induction 1 as [|a l Ha _ IH]; cbn [flat_map]; [constructor|].
  apply Forall_app. now split.
Qed.

Lemma Forall_flat_map_iff {A B} (P : B -> Prop) (f : A -> list B) l :
  Forall P (flat_map f l) <-> Forall (fun a => Forall P (f a)) l.
Proof.
  split; [|apply Forall_flat_map].
  induction l as [|a l IH]; cbn [flat_map]; intros H; [constructor|].
  apply Forall_app in H as [Ha Hl]. constructor; auto.
Qed.

(** A tidy tree gives entries without line feeds. *)
Lemma parse_node_one_line node : forall indent list_type,
  tidy node = true ->
  Forall (fun l => one_line l = true) (parse_node node indent list_type).
Proof.
  induction node as [cls data | name attrs children IH] using Node_ind;
    intros indent lt H; cbn [tidy] in H.
  - cbn [parse_node]. destruct (truthy (strip data)); constructor; [|constructor].
    now rewrite one_line_app, one_line_spaces.
  - destruct (String.eqb name "a") eqn:Ea.
    { apply String.eqb_eq in Ea. subst name. rewrite parse_node_a.
      apply andb_prop in H as [Ht Hh].
      constructor; [|constructor]. rewrite one_line_app, one_line_spaces.
      destruct (truthy (get attrs "href" "")); [|exact Ht].
      cbn [andb]. rewrite !one_line_app, Ht, Hh. reflexivity. }
    rename H into Hc. cbn [parse_node]. rewrite Ea.
    assert (Hsub : forall i t,
               Forall (fun l => one_line l = true)
                 (flat_map (fun child => parse_node child i t) children)).
    { intros i t. apply Forall_flat_map.
      rewrite forallb_forall in Hc. rewrite Forall_forall in IH |- *.
      intros n Hn. apply IH; auto. }
    destruct (String.eqb name "ul" || String.eqb name "ol"); [apply Hsub|].
    destruct (String.eqb name "li").
    { specialize (Hsub (indent + 2) None).
      destruct (flat_map _ children) as [|first rest].
      - constructor; [|constructor]. rewrite one_line_app, one_line_spaces.
        destruct (bullet_of_cases lt) as [-> | ->]; reflexivity.
      - inversion Hsub as [|? ? Hf Hr]; subst. constructor.
        + rewrite !one_line_app, one_line_spaces, (one_line_lstrip _ Hf).
          destruct (bullet_of_cases lt) as [-> | ->]; reflexivity.
        + apply Forall_map. eapply Forall_impl; [|exact Hr].
          intros l Hl. cbn beta. now rewrite one_line_app, one_line_spaces. }
    destruct (String.eqb name "br"); [repeat constructor|].
    destruct (String.eqb name "p" || String.eqb name "div"); [|apply Hsub].
    specialize (Hsub indent lt).
    destruct (flat_map _ children) as [|l ls]; [constructor|].
    apply Forall_app. split; [exact Hsub | repeat constructor].
Qed.

Lemma split_lines_one_line l : one_line l = true -> split_lines l = [l].
Proof.
  induction l as [|c l IH]; [reflexivity|]. cbn [one_line forallb split_lines].
  intros H. apply andb_prop in H as [Hc Hl].
  destruct (Ascii.eqb c LF); [discriminate|]. now rewrite (IH Hl).
Qed.

Lemma split_lines_app l rest :
  one_line l = true -> split_lines (l ++ LF :: rest) = l :: split_lines rest.
Proof.
  induction l as [|c l IH]; cbn [one_line forallb app split_lines].
  - now rewrite Ascii.eqb_refl.
  - intros H. apply andb_prop in H as [Hc Hl].
    destruct (Ascii.eqb c LF); [discriminate|]. now rewrite (IH Hl).
Qed.

(** Joining entries without line feeds and splitting again gives the
    entries back. *)
Lemma split_lines_join ls :
  ls <> [] -> Forall (fun l => one_line l = true) ls ->
  split_lines (join [LF] ls) = ls.
Proof.
  induction ls as [|l ls IH]; [congruence|]. intros _ H.
  inversion H as [|? ? Hl Hls]; subst.
  destruct ls as [|l' ls]; [now apply split_lines_one_line|].
  change (join [LF] (l :: l' :: ls)) with (l ++ LF :: join [LF] (l' :: ls)).
  rewrite (split_lines_app _ _ Hl). f_equal. apply IH; [discriminate | exact Hls].
Qed.

(** Cutting at a line feed cuts the list of lines. *)
Lemma split_lines_cut a b :
  split_lines (a ++ LF :: b) = split_lines a ++ split_lines b.
Proof.
  induction a as [|c a IH]; cbn [app split_lines].
  - now rewrite Ascii.eqb_refl.
  - rewrite IH. destruct (Ascii.eqb c LF); [reflexivity|].
    destruct (split_lines a) eqn:E; [|reflexivity].
    destruct a as [|c' a']; [discriminate|]. cbn [split_lines] in E.
    destruct (Ascii.eqb c' LF); [discriminate|].
    destruct (split_lines a'); discriminate.
Qed.

(** The lines of entries joined by line feeds are the lines of the
    entries, whatever the entries hold. *)
Lemma split_lines_entries ls :
  ls <> [] -> split_lines (join [LF] ls) = flat_map split_lines ls.
Proof.
  induction ls as [|l ls IH]; [congruence|]. intros _.
  destruct ls as [|l' ls]; [cbn [join flat_map]; now rewrite app_nil_r|].
  change (join [LF] (l :: l' :: ls)) with (l ++ LF :: join [LF] (l' :: ls)).
  rewrite split_lines_cut, IH by discriminate. reflexivity.
Qed.

(** The output is empty exactly when the final filter keeps nothing. *)
Lemma normalize_soup_empty soup :
  normalize_soup soup = [] <-> final_lines (parsed_lines soup) = [].
Proof.
  unfold normalize_soup. split; [|now intros ->].
  pose proof (final_lines_clean (parsed_lines soup)) as H.
  destruct (final_lines (parsed_lines soup)) as [|f fs]; [reflexivity|].
  inversion H as [|? ? [Hb _] _]; subst.
  destruct f as [|c f]; [discriminate|]. destruct fs; discriminate.
Qed.

(** On a tidy tree, the lines of the output are the entries the final
    filter keeps: none of them is blank. *)
Lemma tidy_output soup :
  forallb tidy soup = true ->
  normalize_soup soup = []
  \/ (split_lines (normalize_soup soup) = final_lines (parsed_lines soup)
      /\ Forall (fun l => blank l = false /\ rstrip l = l)
           (split_lines (normalize_soup soup))).
Proof.
  intros H. unfold normalize_soup.
  destruct (final_lines (parsed_lines soup)) as [|f fs] eqn:E; [now left|].
  right.
  assert (Hone : Forall (fun l => one_line l = true) (f :: fs)).
  { rewrite <- E. unfold final_lines. apply Forall_map.
    apply Forall_forall. intros l Hl. apply filter_In in Hl as [Hl _].
    apply one_line_rstrip. revert l Hl. apply Forall_forall.
    unfold parsed_lines. apply Forall_flat_map.
    rewrite forallb_forall in H. apply Forall_forall.
    intros n Hn. apply parse_node_one_line. auto. }
  rewrite split_lines_join by (discriminate || exact Hone).
  split; [reflexivity|]. rewrite <- E. apply final_lines_clean.
Qed.

End NormalizerFacts.

(** ** Facts about the walk on the call stack *)

Module StackFacts.
Import Py Soup Normalizer Samples Stack PyFacts NormalizerFacts.

Lemma map_outcome_returned {A B} (f : A -> Outcome B) (g : A -> B) xs :
  Forall (fun x => f x = Returned (g x)) xs ->
  map_outcome f xs = Returned (map g xs).
Proof.
  induction 1 as [|x xs Hx _ IH]; [reflexivity|].
  cbn [map_outcome map]. now rewrite Hx, IH.
Qed.

(** When every call returns or raises [exc], and one raises, the loop
    raises [exc]. *)
Lemma map_outcome_raised {A B} (f : A -> Outcome B) exc xs :
  Forall (fun x => (exists y, f x = Returned y) \/ f x = Raised exc) xs ->
  Exists (fun x => f x = Raised exc) xs ->
  map_outcome f xs = Raised exc.
Proof.
  induction 1 as [|x xs Hx Hxs IH]; intros He; [inversion He|].
  cbn [map_outcome]. destruct Hx as [[y Hy] | Hx].
  - rewrite Hy. cbn [bind]. inversion He as [? ? H | ? ? H]; subst.
    + congruence.
    + now rewrite (IH H).
  - now rewrite Hx.
Qed.

Lemma extend_all_returned f g children :
  Forall (fun child => f child = Returned (g child)) children ->
  extend_all f children = Returned (flat_map g children).
Proof.
  intros H. unfold extend_all. rewrite (map_outcome_returned f g _ H).
  cbn [bind]. now rewrite flat_map_concat_map.
Qed.

Lemma extend_all_raised f exc children :
  Forall (fun x => (exists y, f x = Returned y) \/ f x = Raised exc)
    children ->
  Exists (fun x => f x = Raised exc) children ->
  extend_all f children = Raised exc.
Proof.
  intros H1 H2. unfold extend_all. now rewrite (map_outcome_raised f exc _ H1 H2).
Qed.

Lemma list_max_lt (l : list nat) n :
  n < list_max l -> Exists (fun k => n < k) l.
Proof.
  induction l as [|k l IH]; intros H; [exact (False_ind _ (Nat.nlt_0_r _ H))|].
  change (list_max (k :: l)) with (Nat.max k (list_max l)) in H.
  destruct (Nat.max_spec k (list_max l)) as [[_ E] | [_ E]]; rewrite E in H.
  - right. now apply IH.
  - now left.
Qed.

(** With frames enough for its depth, the walk of a node returns what
    [parse_node] gives. *)
Lemma parse_node_on_enough frames : forall node indent list_type,
  walk_depth node <= frames ->
  parse_node_on frames node indent list_type
  = Returned (parse_node node indent list_type).
Proof.
  induction frames as [|frames IH]; intros node indent lt H.
  - destruct node as [cls data | name attrs children]; cbn [walk_depth] in H;
      [lia|]. destruct (String.eqb name "a" || String.eqb name "br"); lia.
  - destruct node as [cls data | name attrs children]; [reflexivity|].
    cbn [parse_node_on parse_node].
    assert (Hsub : ~ (String.eqb name "a" || String.eqb name "br" = true) ->
               forall i t,
                 extend_all (fun child => parse_node_on frames child i t)
                   children
                 = Returned (flat_map (fun child => parse_node child i t)
                               children)).
    { intros Hn i t. apply extend_all_returned. cbn [walk_depth] in H.
      destruct (String.eqb name "a" || String.eqb name "br");
        [now contradiction Hn|].
      apply le_S_n in H. apply list_max_le in H.
      rewrite Forall_map in H. eapply Forall_impl; [|exact H].
      intros child Hc. now apply IH. }
    destruct (String.eqb name "ul" || String.eqb name "ol") eqn:E1.
    { apply Hsub. apply orb_prop in E1 as [E | E];
        apply String.eqb_eq in E; subst name; discriminate. }
    destruct (String.eqb name "li") eqn:E2.
    { rewrite Hsub; [reflexivity|].
      apply String.eqb_eq in E2; subst name; discriminate. }
    destruct (String.eqb name "a") eqn:E3; [reflexivity|].
    destruct (String.eqb name "br") eqn:E4; [reflexivity|].
    destruct (String.eqb name "p" || String.eqb name "div").
    + rewrite Hsub by discriminate. reflexivity.
    + apply Hsub. discriminate.
Qed.

(** With fewer frames than its depth, the walk of a node raises
    [RecursionError]. *)
Lemma parse_node_on_short frames : forall node indent list_type,
  frames < walk_depth node ->
  parse_node_on frames node indent list_type = Raised RecursionError.
Proof.
  induction frames as [|frames IH]; intros node indent lt H; [reflexivity|].
  destruct node as [cls data | name attrs children]; cbn [walk_depth] in H;
    [lia|].
  destruct (String.eqb name "a" || String.eqb name "br") eqn:E; [lia|].
  apply orb_false_elim in E as [E3 E4].
  assert (Hsub : forall i t,
             extend_all (fun child => parse_node_on frames child i t) children
             = Raised RecursionError).
  { intros i t. apply extend_all_raised.
    - apply Forall_forall. intros child _.
      destruct (Nat.le_gt_cases (walk_depth child) frames) as [Hle | Hgt].
      + left. eexists. now apply parse_node_on_enough.
      + right. now apply IH.
    - apply Nat.succ_lt_mono in H. apply list_max_lt in H.
      apply Exists_exists in H as (k & Hk & Hlt).
      apply in_map_iff in Hk as (child & <- & Hin).
      apply Exists_exists. exists child. split; [exact Hin|]. now apply IH. }
  cbn [parse_node_on]. rewrite E3, E4.
  destruct (String.eqb name "ul" || String.eqb name "ol"); [apply Hsub|].
  destruct (String.eqb name "li"); [now rewrite Hsub|].
  destruct (String.eqb name "p" || String.eqb name "div");
    [now rewrite Hsub | apply Hsub].
Qed.

(** The walk returns exactly when the frames are enough, and then what
    [parse_node] gives. *)
Lemma parse_node_on_returns frames node indent list_type lines :
  parse_node_on frames node indent list_type = Returned lines <->
  walk_depth node <= frames /\ lines = parse_node node indent list_type.
Proof.
  split.
  - intros H. destruct (Nat.le_gt_cases (walk_depth node) frames) as [Hle | Hgt].
    + rewrite (parse_node_on_enough _ _ _ _ Hle) in H. injection H as <-. auto.
    + rewrite (parse_node_on_short _ _ _ _ Hgt) in H. discriminate.
  - intros [Hle ->]. now apply parse_node_on_enough.
Qed.


Section ParseStep.

Variable BeautifulSoup : str -> Outcome (list Node).



End ParseStep.

End StackFacts.

(** * The claims *)

Import Py Re Decoder Soup Normalizer Samples Stack.
Import PyFacts ReFacts DecoderFacts NormalizerFacts StackFacts.

(** C1, counterexample.  A text node is kept as one entry, line feeds and
    all: the text [a], an empty line, [b], alone or inside a paragraph,
    comes out as it is, and the output, split on the line feed, has an
    empty line. *)
Lemma text_node_blank_line_survives :
  normalize_soup [txt text_with_blank_line] = text_with_blank_line
  /\ normalize_soup [Tag "p" [] [txt text_with_blank_line]]
     = text_with_blank_line
  /\ split_lines (normalize_soup [txt text_with_blank_line])
     = [("a" : str); []; ("b" : str)]
  /\ ~ Forall (fun l => truthy (strip l) = true)
         (split_lines (normalize_soup [txt text_with_blank_line])).
Proof.
  repeat split; try reflexivity.
  intros H. inversion H as [|? ? _ H']; subst.
  inversion H' as [|? ? Hb _]; subst. discriminate.
Qed.

(** C1, amended.  Every entry of the line list that the final filter keeps
    is not empty after stripping and has no whitespace at its end.  The
    output is empty exactly when no entry is kept; otherwise its lines,
    split on the line feed, are the lines of the kept entries, so that
    it has an empty or whitespace-only line exactly when a kept entry has
    one inside.  On a tidy tree (no walked string, stripped, and no
    link's text or address holds a line feed) the lines are the kept
    entries themselves: none is empty or whitespace-only. *)
Theorem output_lines_not_blank
  (BeautifulSoup : str -> Outcome (list Node)) (html_content : str)
  (soup : list Node) :
  BeautifulSoup html_content = Returned soup ->
  Forall (fun l => truthy (strip l) = true /\ rstrip l = l)
    (final_lines (parsed_lines soup))
  /\ exists out,
       parse_html_to_text BeautifulSoup html_content = Returned out
       /\ (out = [] <-> final_lines (parsed_lines soup) = [])
       /\ (out <> [] ->
           split_lines out
           = flat_map split_lines (final_lines (parsed_lines soup))
           /\ (Forall (fun l => truthy (strip l) = true) (split_lines out)
               <-> Forall (fun entry =>
                             Forall (fun l => truthy (strip l) = true)
                               (split_lines entry))
                     (final_lines (parsed_lines soup))))
       /\ (forallb tidy soup = true ->
           out = []
           \/ (split_lines out = final_lines (parsed_lines soup)
               /\ Forall (fun l => truthy (strip l) = true /\ rstrip l = l)
                    (split_lines out))).
Proof.
  intros Hp.
  assert (Hconv : forall ls,
             Forall (fun l => blank l = false /\ rstrip l = l) ls ->
             Forall (fun l => truthy (strip l) = true /\ rstrip l = l) ls).
  { intros ls H. eapply Forall_impl; [|exact H].
    intros l [Hb Hr]. now rewrite strip_blank, Hb. }
  split; [apply Hconv, final_lines_clean|].
  exists (normalize_soup soup). unfold parse_html_to_text.
  rewrite Hp. split; [reflexivity|].
  split; [apply normalize_soup_empty|]. split.
  - intros Hne.
    assert (He : final_lines (parsed_lines soup) <> [])
      by (intros E; apply Hne; now apply normalize_soup_empty).
    unfold normalize_soup at 1 2. rewrite (split_lines_entries _ He).
    split; [reflexivity|]. apply Forall_flat_map_iff.
  - intros Hs.
    destruct (tidy_output soup Hs) as [E | [E H]]; [now left|].
    right. split; [exact E | now apply Hconv].
Qed.

(** C1, at a list of two items; and at two paragraphs with a line feed
    between them and a title of two lines, a tidy tree all the same. *)
Lemma output_lines_not_blank_witness :
  sample_parse_step "<ul><li>A</li><li>B</li></ul>" = Returned ul_a_b
  /\ forallb tidy ul_a_b = true
  /\ Forall (fun l => truthy (strip l) = true /\ rstrip l = l)
       (split_lines ("- A" ++ [LF] ++ "- B"))
  /\ forallb tidy two_paragraphs = true
  /\ split_lines (normalize_soup two_paragraphs)
     = [("a" : str); ("b" : str); ("c" : str)].
Proof.
  split; [reflexivity|]. split; [reflexivity|]. split.
  - destruct (output_lines_not_blank sample_parse_step
                "<ul><li>A</li><li>B</li></ul>" ul_a_b eq_refl)
      as (_ & out & Ho & _ & _ & Ht).
    injection Ho as <-. destruct (Ht eq_refl) as [E | [_ H]].
    + discriminate E.
    + exact H.
  - split; reflexivity.
Defined.

(** C2, counterexample.  For [<ul><li>A<ul><li>B</li></ul></li></ul>] the
    inner bullet comes out behind four spaces, not two. *)
Lemma nested_item_indent_is_four :
  split_lines (normalize_soup nested_list)
  = [("- A" : str); ("    - B" : str)]
  /\ split_lines (normalize_soup nested_list)
     <> [("- A" : str); ("  - B" : str)].
Proof. split; [reflexivity | discriminate]. Qed.

(** C2, amended.  When the children of an [li] give the sublines
    [first :: rest], the item's first line is the indent, the bullet and
    [first] without its leading whitespace; every later subline gets
    [indent + 2] spaces in front of the indentation it already has.  The
    nested list of the example gives [- A] and, behind four spaces, [- B]. *)
Theorem li_sublines_layout attrs children indent list_type first rest :
  flat_map (fun child => parse_node child (indent + 2) None) children
  = first :: rest ->
  parse_node (Tag "li" attrs children) indent list_type
  = (spaces indent ++ bullet_of list_type ++ lstrip first)
      :: map (fun line => spaces (indent + 2) ++ line) rest
  /\ Forall2
       (fun line out => leading_spaces out = indent + 2 + leading_spaces line)
       rest (tl (parse_node (Tag "li" attrs children) indent list_type))
  /\ split_lines (normalize_soup nested_list)
     = [("- A" : str); ("    - B" : str)].
Proof.
  intros H. rewrite parse_node_li, H. split; [reflexivity|].
  split; [|reflexivity]. cbn [tl]. clear H.
  induction rest as [|l rest IH]; cbn [map]; constructor.
  - apply leading_spaces_indent.
  - apply IH.
Qed.

(** C2, at the item of the nested list. *)
Lemma li_sublines_layout_witness :
  flat_map (fun child => parse_node child (0 + 2) None) nested_children
  = ("  A" : str) :: [("  - B" : str)]
  /\ parse_node (Tag "li" [] nested_children) 0 (Some "ul")
     = [("- A" : str); ("    - B" : str)].
Proof.
  split; [reflexivity|].
  exact (proj1 (li_sublines_layout [] nested_children 0 (Some "ul")
                  "  A" [("  - B" : str)] eq_refl)).
Defined.

(** C3, counterexample.  The empty line has no match and gets no run at
    all. *)
Lemma empty_line_yields_no_run :
  ~ has_match [] /\ decode_line [] = [] /\ decode_line [] <> [mkRun false []].
Proof.
  split; [now apply search_none_iff|]. split; [reflexivity | discriminate].
Qed.

(** C3, amended.  For a line without a complete span the decoder yields
    the whole line as one plain run, and no run when the line is empty.
    For a line with one, it finds the first match (the leftmost span, its
    group the shortest), emits the text before it as a plain run when
    there is some, the group as a bold run, and goes on with what follows
    the match.  The texts of the runs, put together, are the line without
    the asterisks of its matches. *)
Theorem decode_line_scan line :
  (~ has_match line ->
   decode_line line = if truthy line then [mkRun false line] else [])
  /\ (has_match line -> exists pre g rest, first_match line pre g rest)
  /\ (forall pre g rest,
        first_match line pre g rest ->
        decode_line line =
        (if truthy pre then [mkRun false pre] else [])
        ++ mkRun true g :: decode_line rest)
  /\ plain_text (decode_line line) = without_markers line
  /\ decode_line "Hello **world** today"
     = [mkRun false "Hello "; mkRun true "world"; mkRun false " today"]
  /\ plain_text (decode_line "Hello **world** today") = "Hello world today".
Proof.
  split; [|split; [|split; [|split]]].
  - intros H. apply decode_line_no_match. now apply search_none_iff.
  - intros H. destruct (search line) as [[st k]|] eqn:E.
    + eauto using search_first_match.
    + now apply search_complete in H.
  - intros pre g rest H.
    destruct (first_match_search _ _ _ _ H) as (E & Hp & Hg & Hr).
    rewrite (decode_line_match _ _ _ E). unfold match_runs.
    rewrite <- Hp, <- Hg, <- Hr. now rewrite <- app_assoc.
  - apply plain_text_without_markers.
  - split; reflexivity.
Qed.

(** C3, at the line of the example. *)
Lemma decode_line_scan_witness :
  first_match "Hello **world** today" "Hello " "world" " today"
  /\ decode_line "Hello **world** today"
     = [mkRun false "Hello "] ++ mkRun true "world" :: decode_line " today".
Proof.
  assert (H : first_match "Hello **world** today" "Hello " "world" " today")
    by exact (search_first_match "Hello **world** today" 6 5 eq_refl).
  split; [exact H|].
  exact (proj1 (proj2 (proj2 (decode_line_scan "Hello **world** today")))
           "Hello " "world" " today" H).
Defined.

(** C4, counterexample.  An output that holds a character reference is
    not plain text to the parser: from [&amp;amp;] the normalizer makes
    [&amp;], and from [&amp;] it makes [&]. *)
Lemma reference_resolved_again :
  parse_html_to_text entity_parse_step "&amp;amp;" = Returned ("&amp;" : str)
  /\ parse_html_to_text entity_parse_step "&amp;" = Returned ("&" : str)
  /\ parse_html_to_text entity_parse_step "&amp;"
     <> Returned ("&amp;" : str).
Proof. repeat split; try reflexivity. discriminate. Qed.

(** C4, amended.  An output of the normalizer has no whitespace at
    either end.  When the parse step hands it back as it is (as one
    string, or as nothing when it is empty), a second pass returns it
    unchanged.  When the parse step makes one string of it, whatever
    that string is, the second pass returns that string stripped: the
    output stays as it is exactly when the parse step's string,
    stripped, is the output. *)
Theorem normalize_idempotent
  (BeautifulSoup : str -> Outcome (list Node)) (html_content out : str) :
  parse_html_to_text BeautifulSoup html_content = Returned out ->
  stripped out
  /\ (BeautifulSoup out = Returned (text_soup out) ->
      parse_html_to_text BeautifulSoup out = Returned out)
  /\ (forall cls data,
        BeautifulSoup out = Returned [NavigableString cls data] ->
        parse_html_to_text BeautifulSoup out = Returned (strip data)
        /\ (parse_html_to_text BeautifulSoup out = Returned out
            <-> strip data = out)).
Proof.
  unfold parse_html_to_text. intros H1.
  destruct (BeautifulSoup html_content) as [soup|]; [|discriminate].
  injection H1 as <-. pose proof (normalize_soup_stripped soup) as Hs.
  split; [exact Hs|]. split.
  - intros H2. rewrite H2. f_equal. now apply normalize_text_soup.
  - intros cls data H2. rewrite H2.
    assert (E : normalize_soup [NavigableString cls data] = strip data).
    { transitivity (normalize_soup (text_soup (strip data)));
        [|apply normalize_text_soup, strip_stripped].
      pose proof (stripped_strip _ (strip_stripped data)) as Hi.
      unfold normalize_soup, parsed_lines.
      destruct (strip data) as [|c r] eqn:Ed.
      - cbn [text_soup flat_map parse_node]. now rewrite Ed.
      - cbn [text_soup flat_map parse_node]. now rewrite Ed, Hi. }
    rewrite E. split; [reflexivity|]. split.
    + now intros [= ->].
    + now intros ->.
Qed.

(** C4, at a list of two items. *)
Lemma normalize_idempotent_witness :
  parse_html_to_text sample_parse_step "<ul><li>A</li><li>B</li></ul>"
  = Returned ("- A" ++ [LF] ++ "- B")
  /\ sample_parse_step ("- A" ++ [LF] ++ "- B")
     = Returned (text_soup ("- A" ++ [LF] ++ "- B"))
  /\ parse_html_to_text sample_parse_step ("- A" ++ [LF] ++ "- B")
     = Returned ("- A" ++ [LF] ++ "- B").
Proof.
  split; [reflexivity|]. split; [reflexivity|].
  exact (proj1 (proj2 (normalize_idempotent sample_parse_step
                         "<ul><li>A</li><li>B</li></ul>"
                         ("- A" ++ [LF] ++ "- B") eq_refl))
           eq_refl).
Defined.

(** C5.  The first line of an [li] is the indent, then the bullet, then the
    item's text; the bullet is [1. ] under the list type [ol] and [- ]
    under any other; an [ol] hands the same list type to every child,
    whatever its position, so no item is numbered beyond 1. *)
Theorem li_bullet_prefix attrs children indent list_type :
  (exists tail more,
      parse_node (Tag "li" attrs children) indent list_type
      = (spaces indent ++ bullet_of list_type ++ tail) :: more)
  /\ bullet_of (Some "ol") = "1. "
  /\ (list_type <> Some "ol" -> bullet_of list_type = "- ")
  /\ parse_node (Tag "ol" attrs children) indent list_type
     = flat_map (fun child => parse_node child indent (Some "ol")) children
  /\ split_lines (normalize_soup ul_a_b) = [("- A" : str); ("- B" : str)]
  /\ split_lines (normalize_soup ol_first) = [("1. First" : str)]
  /\ split_lines (normalize_soup ol_a_b) = [("1. A" : str); ("1. B" : str)].
Proof.
  split.
  { rewrite parse_node_li.
    destruct (flat_map _ children) as [|first rest].
    - exists [], []. now rewrite app_nil_r.
    - eauto. }
  split; [reflexivity|]. split.
  { intros H. destruct list_type as [t|]; [|reflexivity]. cbn [bullet_of].
    destruct (String.eqb t "ol") eqn:E; [|reflexivity].
    apply String.eqb_eq in E. congruence. }
  repeat split; reflexivity.
Qed.

(** C5, at an item of a [ul]. *)
Lemma li_bullet_prefix_witness :
  Some "ul" <> Some "ol" /\ bullet_of (Some "ul") = "- ".
Proof.
  split; [discriminate|].
  exact (proj1 (proj2 (proj2
           (li_bullet_prefix [] [txt "A"] 0 (Some "ul"))))
           ltac:(discriminate)).
Defined.

(** C6.  A line that holds two asterisks in a row somewhere but no
    complete span is emitted as one plain run, asterisks included; and on
    any line, a bold run is always a span closed on both sides. *)
Theorem unmatched_marker_is_literal line :
  ((exists a b, line = a ++ stars ++ b) -> ~ has_match line ->
   decode_line line = [mkRun false line])
  /\ (forall r, In r (decode_line line) -> bold r = true ->
      exists pre rest, line = pre ++ stars ++ text r ++ stars ++ rest
                       /\ dot_plus (text r))
  /\ decode_line "**unterminated" = [mkRun false "**unterminated"].
Proof.
  split; [|split; [apply bold_runs_closed | reflexivity]].
  intros (a & b & Hl) Hn. apply search_none_iff in Hn.
  rewrite (decode_line_no_match _ Hn).
  destruct line; [|reflexivity]. now destruct a.
Qed.

(** C6, at the line of the example. *)
Lemma unmatched_marker_is_literal_witness :
  (exists a b, ("**unterminated" : str) = a ++ stars ++ b)
  /\ ~ has_match "**unterminated"
  /\ decode_line "**unterminated" = [mkRun false "**unterminated"].
Proof.
  assert (H1 : exists a b, ("**unterminated" : str) = a ++ stars ++ b)
    by (exists [], "unterminated"; reflexivity).
  assert (H2 : ~ has_match "**unterminated")
    by (apply search_none_iff; reflexivity).
  split; [exact H1|]. split; [exact H2|].
  exact (proj1 (unmatched_marker_is_literal "**unterminated") H1 H2).
Defined.

(** C7.  An [li] always emits a line.  When its children give no subline,
    that line is the indent and the bullet alone; the final filter keeps
    it and [rstrip] leaves [-] or [1.] behind the indent. *)
Theorem li_emits_a_line attrs children indent list_type :
  parse_node (Tag "li" attrs children) indent list_type <> []
  /\ (flat_map (fun child => parse_node child (indent + 2) None) children = []
      -> parse_node (Tag "li" attrs children) indent list_type
         = [spaces indent ++ bullet_of list_type]
         /\ final_lines (parse_node (Tag "li" attrs children) indent list_type)
            = [spaces indent ++ bare_bullet list_type])
  /\ (Forall (fun child => exists cls data,
                child = NavigableString cls data /\ blank data = true)
        children ->
      flat_map (fun child => parse_node child (indent + 2) None) children = [])
  /\ normalize_soup ul_blank_item = "-".
Proof.
  split.
  { rewrite parse_node_li. destruct (flat_map _ children); discriminate. }
  split.
  { intros H. rewrite parse_node_li, H. split; [reflexivity|].
    rewrite final_lines_eq. cbn [filter]. unfold nonblank.
    rewrite blank_bullet. cbn [negb map]. now rewrite rstrip_bullet. }
  split; [|reflexivity].
  induction 1 as [|child l (cls & data & -> & Hb) _ IH]; [reflexivity|].
  cbn [flat_map parse_node].
  pose proof (strip_blank data) as Hs. rewrite Hb in Hs. cbn [negb] in Hs.
  rewrite Hs. exact IH.
Qed.

(** C7, at an item that holds one space. *)
Lemma li_emits_a_line_witness :
  flat_map (fun child => parse_node child (0 + 2) None) [txt " "] = []
  /\ parse_node (Tag "li" [] [txt " "]) 0 (Some "ul") = [("- " : str)]
  /\ final_lines (parse_node (Tag "li" [] [txt " "]) 0 (Some "ul"))
     = [("-" : str)].
Proof.
  split; [reflexivity|].
  exact (proj1 (proj2 (li_emits_a_line [] [txt " "] 0 (Some "ul"))) eq_refl).
Defined.

(** C8.  An [a] element emits one line: [[text](href)] behind the indent
    when the element has an [href] that is not empty, and the text alone
    when it has none or an empty one; the text is what [get_text] makes of
    the element's strings. *)
Theorem a_emits_link_line attrs children indent list_type :
  length (parse_node (Tag "a" attrs children) indent list_type) = 1
  /\ (forall href,
        lookup attrs "href" = Some href -> href <> [] ->
        parse_node (Tag "a" attrs children) indent list_type
        = [spaces indent ++ "[" ++ get_text children ++ "](" ++ href ++ ")"])
  /\ (lookup attrs "href" = None \/ lookup attrs "href" = Some [] ->
      parse_node (Tag "a" attrs children) indent list_type
      = [spaces indent ++ get_text children])
  /\ split_lines (normalize_soup a_click) = [("[click](http://x)" : str)].
Proof.
  split; [reflexivity|]. rewrite parse_node_a, get_lookup.
  split; [|split; [|reflexivity]].
  - intros href -> Hne. destruct href; [contradiction | reflexivity].
  - intros [-> | ->]; reflexivity.
Qed.

(** C8, at the link of the example. *)
Lemma a_emits_link_line_witness :
  lookup [("href", "http://x" : str)] "href" = Some ("http://x" : str)
  /\ ("http://x" : str) <> []
  /\ parse_node (Tag "a" [("href", "http://x" : str)] [txt "click"]) 0 None
     = [("[click](http://x)" : str)].
Proof.
  split; [reflexivity|]. split; [discriminate|].
  exact (proj1 (proj2 (a_emits_link_line [("href", "http://x" : str)]
                         [txt "click"] 0 None))
           "http://x" eq_refl ltac:(discriminate)).
Defined.




(** C10.  Decoding loses nothing: the runs of a line, the bold ones put
    back between two asterisks on each side, spell the line again; the
    line is longer than the runs' text by four characters for each bold
    run. *)
Theorem decode_lossless line :
  encode (decode_line line) = line
  /\ length line
     = length (plain_text (decode_line line))
       + 4 * length (filter bold (decode_line line))
  /\ plain_text (decode_line line) = without_markers line.
Proof.
  split; [apply encode_decode_line|]. split.
  - rewrite <- encode_length. now rewrite encode_decode_line.
  - apply plain_text_without_markers.
Qed.

(** * Facts about the further models *)


Module PyTextFacts.
Import Py PyText PyFacts.
Import Shape.

Lemma str_eqb_eq a b : str_eqb a b = true <-> a = b.
Proof.
  revert b; induction a as [|x a IH]; intros [|y b]; cbn [str_eqb];
    split; try discriminate; try reflexivity.
  - intros H. apply andb_prop in H as [Hx Ha].
    apply Ascii.eqb_eq in Hx. apply IH in Ha. now subst.
  - intros [= -> ->]. rewrite Ascii.eqb_refl. now apply IH.
Qed.

Lemma str_eqb_refl a : str_eqb a a = true.
Proof. now apply str_eqb_eq. Qed.

Lemma str_in_In x seen : str_in x seen = true <-> In x seen.
Proof.
  unfold str_in. rewrite existsb_exists. split.
  - intros (y & Hy & E). apply str_eqb_eq in E. now subst.
  - intros H. exists x. split; [exact H | apply str_eqb_refl].
Qed.

Lemma nat_of_ascii_inj x y : nat_of_ascii x = nat_of_ascii y -> x = y.
Proof.
  intros H. rewrite <- (ascii_nat_embedding x), <- (ascii_nat_embedding y).
  now rewrite H.
Qed.

Lemma str_leb_total a b : str_leb a b = true \/ str_leb b a = true.
Proof.
  revert b; induction a as [|x a IH]; intros [|y b]; cbn [str_leb]; auto.
  destruct (nat_of_ascii x <? nat_of_ascii y) eqn:E1; [now left|].
  destruct (nat_of_ascii y <? nat_of_ascii x) eqn:E2; [now right|].
  apply IH.
Qed.

Lemma str_leb_antisym a b : str_leb a b = true -> str_leb b a = true -> a = b.
Proof.
  revert b; induction a as [|x a IH]; intros [|y b]; cbn [str_leb];
    try discriminate; auto.
  destruct (nat_of_ascii x <? nat_of_ascii y) eqn:E1;
    destruct (nat_of_ascii y <? nat_of_ascii x) eqn:E2; try discriminate.
  - apply Nat.ltb_lt in E1, E2. lia.
  - intros Ha Hb. apply Nat.ltb_ge in E1, E2.
    assert (x = y) by (apply nat_of_ascii_inj; lia). subst.
    f_equal. now apply IH.
Qed.

Lemma str_leb_trans a b c :
  str_leb a b = true -> str_leb b c = true -> str_leb a c = true.
Proof.
  revert b c; induction a as [|x a IH]; intros [|y b] [|z c]; cbn [str_leb];
    try discriminate; auto.
  destruct (nat_of_ascii x <? nat_of_ascii y) eqn:E1;
    destruct (nat_of_ascii y <? nat_of_ascii x) eqn:E2;
    destruct (nat_of_ascii y <? nat_of_ascii z) eqn:E3;
    destruct (nat_of_ascii z <? nat_of_ascii y) eqn:E4;
    destruct (nat_of_ascii x <? nat_of_ascii z) eqn:E5;
    destruct (nat_of_ascii z <? nat_of_ascii x) eqn:E6;
    try discriminate; auto;
    repeat match goal with
           | H : (_ <? _) = true |- _ => apply Nat.ltb_lt in H
           | H : (_ <? _) = false |- _ => apply Nat.ltb_ge in H
           end; try lia.
  apply IH.
Qed.

(** *** Sorting by insertion *)

Section Sorting.

Variable A : Type.
Variable leb : A -> A -> bool.
Hypothesis leb_total : forall a b, leb a b = true \/ leb b a = true.
Hypothesis leb_trans :
  forall a b c, leb a b = true -> leb b c = true -> leb a c = true.

Lemma insert_by_perm x l : Permutation (x :: l) (insert_by leb x l).
Proof.
  induction l as [|y l IH]; cbn [insert_by]; [reflexivity|].
  destruct (leb x y); [reflexivity|].
  rewrite perm_swap. now constructor.
Qed.

Lemma sort_by_perm l : Permutation l (sort_by leb l).
Proof.
  induction l as [|x l IH]; cbn [sort_by fold_right]; [reflexivity|].
  rewrite <- insert_by_perm. now constructor.
Qed.

Lemma insert_by_sorted x l :
  StronglySorted (fun a b => leb a b = true) l ->
  StronglySorted (fun a b => leb a b = true) (insert_by leb x l).
Proof.
  induction 1 as [|y l Hs IH Hy]; cbn [insert_by].
  - repeat constructor.
  - destruct (leb x y) eqn:E.
    + constructor; [now constructor|]. constructor; [exact E|].
      eapply Forall_impl; [|exact Hy]. intros z Hz. eapply leb_trans; eauto.
    + constructor; [exact IH|].
      assert (Hyx : leb y x = true) by (destruct (leb_total x y); congruence).
      eapply Permutation_Forall; [apply insert_by_perm|].
      constructor; assumption.
Qed.

Lemma sort_by_sorted l :
  StronglySorted (fun a b => leb a b = true) (sort_by leb l).
Proof.
  induction l as [|x l IH]; cbn [sort_by fold_right]; [constructor|].
  now apply insert_by_sorted.
Qed.

End Sorting.

(** *** [split()] *)

Lemma split_go_blank acc w :
  blank w = true ->
  split_go acc w = match acc with [] => [] | _ :: _ => [rev acc] end.
Proof.
  revert acc; induction w as [|c w IH]; intros acc; [reflexivity|].
  cbn [blank forallb split_go]. intros H. apply andb_prop in H as [Hc Hw].
  rewrite Hc. destruct acc as [|a acc]; [now apply (IH [])|].
  now rewrite (IH [] Hw).
Qed.

Lemma split_go_app_blank s : forall acc w,
  blank w = true -> split_go acc (s ++ w) = split_go acc s.
Proof.
  induction s as [|c s IH]; intros acc w Hw.
  - cbn [app]. now rewrite split_go_blank.
  - cbn [app split_go]. destruct (isspace c).
    + destruct acc; now rewrite IH.
    + now apply IH.
Qed.

Lemma split_ws_lstrip s : split_ws (lstrip s) = split_ws s.
Proof.
  unfold split_ws. induction s as [|c s IH]; [reflexivity|].
  cbn [lstrip split_go]. destruct (isspace c) eqn:Ec; [exact IH|].
  cbn [split_go]. now rewrite Ec.
Qed.

Lemma lstrip_suffix_blank s : exists w, s = w ++ lstrip s /\ blank w = true.
Proof.
  induction s as [|c s (w & Hw & Hb)]; [now exists []|]. cbn [lstrip].
  destruct (isspace c) eqn:Ec; [|now exists []].
  exists (c :: w). cbn [app blank forallb]. rewrite Ec. split; [now f_equal|].
  exact Hb.
Qed.

Lemma rstrip_prefix_blank s : exists w, s = rstrip s ++ w /\ blank w = true.
Proof.
  unfold rstrip. destruct (lstrip_suffix_blank (rev s)) as (w & Hw & Hb).
  exists (rev w). split.
  - rewrite <- rev_app_distr, <- Hw. now rewrite rev_involutive.
  - now rewrite blank_rev.
Qed.

Lemma split_ws_rstrip s : split_ws (rstrip s) = split_ws s.
Proof.
  destruct (rstrip_prefix_blank s) as (w & Hw & Hb).
  unfold split_ws. rewrite Hw at 2. now rewrite split_go_app_blank.
Qed.

Lemma split_ws_strip s : split_ws (strip s) = split_ws s.
Proof. unfold strip. now rewrite split_ws_rstrip, split_ws_lstrip. Qed.

Lemma split_go_word w : forall acc rest,
  forallb (fun c => negb (isspace c)) w = true ->
  split_go acc (w ++ rest) = split_go (rev w ++ acc) rest.
Proof.
  induction w as [|c w IH]; intros acc rest H; [reflexivity|].
  cbn [forallb] in H. apply andb_prop in H as [Hc Hw].
  apply negb_true_iff in Hc. cbn [app split_go]. rewrite Hc.
  rewrite (IH _ _ Hw). cbn [rev]. now rewrite <- app_assoc.
Qed.

(** The words of a text are words. *)
Lemma split_go_words s : forall acc,
  forallb (fun c => negb (isspace c)) acc = true ->
  Forall word (split_go acc s).
Proof.
  assert (Hrev : forall acc, acc <> [] ->
             forallb (fun c => negb (isspace c)) acc = true -> word (rev acc)).
  { intros acc Hne Hacc. split.
    - intros E. apply (f_equal (@rev _)) in E. rewrite rev_involutive in E.
      now apply Hne.
    - rewrite forallb_forall in *. intros c Hc. apply Hacc.
      now apply in_rev. }
  induction s as [|c s IH]; intros acc Hacc; cbn [split_go].
  - destruct acc as [|a acc]; constructor; [|constructor].
    now apply Hrev.
  - destruct (isspace c) eqn:Ec.
    + destruct acc as [|a acc]; [now apply IH|].
      constructor; [now apply Hrev | now apply IH].
    + apply IH. cbn [forallb]. now rewrite Ec, Hacc.
Qed.

Lemma split_ws_words s : Forall word (split_ws s).
Proof. now apply split_go_words. Qed.

Lemma rev_word_cons (w : str) : w <> [] -> exists a l, rev w = a :: l.
Proof.
  intros Hne. destruct (rev w) as [|a l] eqn:E; [|eauto].
  apply (f_equal (@rev _)) in E. rewrite rev_involutive in E. contradiction.
Qed.

Lemma split_go_last_word w : word w -> split_go [] w = [w].
Proof.
  intros [Hne Hw]. pose proof (split_go_word w [] [] Hw) as H.
  rewrite !app_nil_r in H. rewrite H. cbn [split_go].
  destruct (rev_word_cons w Hne) as (a & l & E). rewrite E, <- E.
  now rewrite rev_involutive.
Qed.

Lemma split_go_word_space w rest :
  word w -> split_go [] (w ++ " "%char :: rest) = w :: split_go [] rest.
Proof.
  intros [Hne Hw]. rewrite (split_go_word _ _ _ Hw), app_nil_r.
  cbn [split_go]. change (isspace " ") with true. cbn iota.
  destruct (rev_word_cons w Hne) as (a & l & E). rewrite E, <- E.
  now rewrite rev_involutive.
Qed.

(** Joining words with a space and splitting again gives the words. *)
Lemma split_ws_join ws : Forall word ws -> split_ws (join " " ws) = ws.
Proof.
  unfold split_ws. induction 1 as [|w ws Hw Hws IH]; [reflexivity|].
  destruct ws as [|w' ws].
  - cbn [join]. now apply split_go_last_word.
  - change (join " " (w :: w' :: ws))
      with (w ++ " "%char :: join " " (w' :: ws)).
    rewrite (split_go_word_space _ _ Hw). now rewrite IH.
Qed.

End PyTextFacts.

(** ** More facts about the decoder *)

Module DocumentFacts.
Import Py Re Decoder Normalizer PyFacts ReFacts DecoderFacts NormalizerFacts.
Import Shape.

Lemma split_lines_not_nil s : split_lines s <> [].
Proof.
  destruct s as [|c s]; cbn [split_lines]; [discriminate|].
  destruct (Ascii.eqb c LF); [discriminate|].
  destruct (split_lines s); discriminate.
Qed.

(** Joining the pieces of [split("\n")] gives the text back. *)
Lemma join_split_lines s : join [LF] (split_lines s) = s.
Proof.
  induction s as [|c s IH]; [reflexivity|]. cbn [split_lines].
  destruct (Ascii.eqb c LF) eqn:Ec.
  - apply Ascii.eqb_eq in Ec. subst c.
    pose proof (split_lines_not_nil s) as Hne.
    destruct (split_lines s) as [|l ls]; [contradiction|].
    change (join [LF] ([] :: l :: ls)) with (LF :: join [LF] (l :: ls)).
    now rewrite IH.
  - pose proof (split_lines_not_nil s) as Hne.
    destruct (split_lines s) as [|l ls]; [contradiction|].
    destruct ls as [|l' ls].
    + cbn [join] in *. now rewrite IH.
    + change (join [LF] ((c :: l) :: l' :: ls))
        with (c :: join [LF] (l :: l' :: ls)).
      now rewrite IH.
Qed.

(** The pieces of [split("\n")] hold no line feed, and there is one more
    piece than there are line feeds. *)
Lemma split_lines_one_line_pieces s :
  Forall (fun l => one_line l = true) (split_lines s).
Proof.
  induction s as [|c s IH]; [repeat constructor|]. cbn [split_lines].
  destruct (Ascii.eqb c LF) eqn:Ec; [constructor; [reflexivity | exact IH]|].
  destruct (split_lines s) as [|l ls]; [repeat constructor|].
  - cbn [one_line forallb]. now rewrite Ec.
  - inversion IH as [|? ? Hl Hls]; subst. constructor; [|exact Hls].
    cbn [one_line forallb]. rewrite Ec. exact Hl.
Qed.

Lemma split_lines_length s :
  length (split_lines s) = S (count_occ ascii_dec s LF).
Proof.
  induction s as [|c s IH]; [reflexivity|]. cbn [split_lines count_occ].
  destruct (ascii_dec c LF) as [-> | Hn].
  - rewrite Ascii.eqb_refl. cbn [length]. now rewrite IH.
  - apply Ascii.eqb_neq in Hn. rewrite Hn.
    pose proof (split_lines_not_nil s) as Hne.
    destruct (split_lines s) as [|l ls]; [contradiction|]. exact IH.
Qed.

Lemma one_line_encode runs :
  one_line (encode runs) = true ->
  Forall (fun r => one_line (text r) = true) runs.
Proof.
  unfold encode. induction runs as [|r runs IH]; [constructor|].
  cbn [map List.concat]. rewrite one_line_app. intros H.
  apply andb_prop in H as [Hr Hrs]. constructor; [|now apply IH].
  unfold encode_run in Hr. destruct (bold r); [|exact Hr].
  rewrite !one_line_app in Hr. apply andb_prop in Hr as [_ Hr].
  now apply andb_prop in Hr as [Hr _].
Qed.

(** No run is empty. *)
Lemma decode_line_runs_not_empty line :
  Forall (fun r => text r <> []) (decode_line line).
Proof.
  induction line as [line IH] using str_length_ind.
  destruct (search line) as [[st k]|] eqn:E.
  - pose proof (search_bound _ _ _ E) as Hb.
    destruct (search_sound _ _ _ E) as (_ & Hk & _).
    rewrite (decode_line_match _ _ _ E). apply Forall_app. split.
    + unfold match_runs. apply Forall_app. split.
      * destruct (firstn st line) as [|c r] eqn:Ef; constructor;
          [discriminate | constructor].
      * constructor; [|constructor]. cbn [text]. intros Hnil.
        apply (f_equal (@List.length _)) in Hnil.
        rewrite length_firstn, length_skipn in Hnil. simpl in Hnil. lia.
    + apply IH. rewrite length_skipn. lia.
  - rewrite (decode_line_no_match _ E).
    destruct line; constructor; [discriminate | constructor].
Qed.

(** The text before the first match holds no match of its own. *)
Lemma search_before_match s st k :
  search s = Some (st, k) -> search (firstn st s) = None.
Proof.
  intros E. apply search_none_iff. intros (pre & g & rest & Hf & Hg).
  pose proof (search_bound _ _ _ E) as Hb.
  assert (Hs : s = pre ++ stars ++ g ++ stars ++ (rest ++ skipn st s)).
  { rewrite <- (firstn_skipn st s) at 1. rewrite Hf.
    now rewrite <- !app_assoc. }
  rewrite Hs in E at 1. apply search_leftmost in E; [|exact Hg].
  apply (f_equal (@List.length _)) in Hf.
  rewrite length_firstn, !length_app in Hf. simpl in Hf. lia.
Qed.

Lemma decode_line_plain_runs line :
  plain_runs_apart (decode_line line)
  /\ forall r, In r (decode_line line) -> bold r = false ->
               search (text r) = None.
Proof.
  induction line as [line IH] using str_length_ind.
  destruct (search line) as [[st k]|] eqn:E.
  - pose proof (search_bound _ _ _ E) as Hb.
    destruct (IH (skipn (st + k + 4) line)) as [IH1 IH2];
      [rewrite length_skipn; lia|].
    rewrite (decode_line_match _ _ _ E). unfold match_runs. split.
    + destruct (truthy (firstn st line)); cbn [app plain_runs_apart].
      * repeat split; auto; try discriminate.
        destruct (decode_line _); [exact I|]. split; [discriminate | exact IH1].
      * destruct (decode_line _); [exact I|]. split; [discriminate | exact IH1].
    + intros r Hin Hb'. apply in_app_or in Hin as [Hin | Hin]; [|now apply IH2].
      apply in_app_or in Hin as [Hin | Hin].
      * destruct (truthy (firstn st line)); [|contradiction].
        destruct Hin as [<- | []]. cbn [text].
        eapply search_before_match; eauto.
      * destruct Hin as [<- | []]. discriminate.
  - rewrite (decode_line_no_match _ E). destruct line as [|c l]; cbn [truthy].
    + split; [exact I | intros r []].
    + split; [exact I|]. intros r [<- | []] _. exact E.
Qed.

Lemma search_cons_other c s :
  Ascii.eqb c star = false ->
  search (c :: s) =
  match search s with Some (st, k) => Some (S st, k) | None => None end.
Proof.
  intros Hc. rewrite search_eq. unfold match_at.
  cbn [starts_with_stars]. destruct s; now rewrite ?Hc.
Qed.

Lemma search_star_free_prefix pre s :
  star_free pre = true ->
  search (pre ++ s) =
  match search s with
  | Some (st, k) => Some (length pre + st, k)
  | None => None
  end.
Proof.
  induction pre as [|c pre IH]; cbn [star_free forallb app length].
  - intros _. now destruct (search s) as [[st k]|].
  - intros H. apply andb_prop in H as [Hc Hp]. apply negb_true_iff in Hc.
    rewrite (search_cons_other _ _ Hc), (IH Hp).
    now destruct (search s) as [[st k]|].
Qed.

Lemma star_free_not_stars c s rest :
  Ascii.eqb c star = false -> starts_with_stars ((c :: s) ++ rest) = false.
Proof. intros H. cbn [app starts_with_stars]. destruct (s ++ rest); now rewrite ?H. Qed.

Lemma lazy_tail_star_free label rest :
  star_free label = true -> one_line label = true ->
  lazy_tail (label ++ stars ++ rest) = Some (length label).
Proof.
  induction label as [|c l IH]; cbn [star_free one_line forallb]; intros Hs Ho.
  - reflexivity.
  - apply andb_prop in Hs as [Hc Hs]. apply andb_prop in Ho as [Hl Ho].
    apply negb_true_iff in Hc, Hl. rewrite lazy_tail_eq.
    rewrite (star_free_not_stars _ _ _ Hc). cbn [app]. rewrite Hl.
    rewrite (IH Hs Ho). reflexivity.
Qed.

Lemma match_at_label label rest :
  label <> [] -> star_free label = true -> one_line label = true ->
  match_at (stars ++ label ++ stars ++ rest) = Some (length label).
Proof.
  intros Hne Hs Ho. unfold match_at. rewrite starts_with_stars_stars.
  change (skipn 2 (stars ++ label ++ stars ++ rest))
    with (label ++ stars ++ rest).
  destruct label as [|c l]; [contradiction|].
  cbn [star_free one_line forallb] in Hs, Ho.
  apply andb_prop in Hs as [_ Hs]. apply andb_prop in Ho as [Hl Ho].
  apply negb_true_iff in Hl. cbn [app]. rewrite Hl.
  now rewrite (lazy_tail_star_free _ _ Hs Ho).
Qed.

Lemma decode_line_label pre label rest :
  star_free pre = true -> label <> [] ->
  star_free label = true -> one_line label = true ->
  decode_line (pre ++ stars ++ label ++ stars ++ rest)
  = (if truthy pre then [mkRun false pre] else [])
    ++ mkRun true label :: decode_line rest.
Proof.
  intros Hp Hne Hs Ho.
  assert (E : search (pre ++ stars ++ label ++ stars ++ rest)
              = Some (length pre, length label)).
  { rewrite (search_star_free_prefix _ _ Hp), search_eq.
    rewrite (match_at_label _ _ Hne Hs Ho). now rewrite Nat.add_0_r. }
  rewrite (decode_line_match _ _ _ E). unfold match_runs.
  pose proof (search_bound _ _ _ E) as Hb.
  destruct (search_sound _ _ _ E) as (Hl & _).
  set (line := pre ++ stars ++ label ++ stars ++ rest) in *.
  set (pre0 := firstn (length pre) line) in *.
  set (g0 := firstn (length label) (skipn (length pre + 2) line)) in *.
  set (rest0 := skipn (length pre + length label + 4) line) in *.
  assert (L1 : length pre0 = length pre)
    by (subst pre0; rewrite length_firstn; lia).
  assert (L2 : length g0 = length label)
    by (subst g0; rewrite length_firstn, length_skipn; lia).
  assert (Heq : pre0 ++ stars ++ g0 ++ stars ++ rest0
                = pre ++ stars ++ label ++ stars ++ rest) by (now rewrite <- Hl).
  apply app_eq_length in Heq as [-> Heq]; [|exact L1].
  apply (app_eq_length stars _ stars _) in Heq as [_ Heq]; [|reflexivity].
  apply app_eq_length in Heq as [-> Heq]; [|exact L2].
  apply (app_eq_length stars _ stars _) in Heq as [_ ->]; [|reflexivity].
  now rewrite <- app_assoc.
Qed.

End DocumentFacts.

(** ** More facts about the normalizer *)

Module LayoutFacts.
Import Py Soup Normalizer Samples PyFacts NormalizerFacts.
Import Shape.

Lemma final_lines_app a b : final_lines (a ++ b) = final_lines a ++ final_lines b.
Proof. unfold final_lines. now rewrite filter_app, map_app. Qed.

Lemma parsed_lines_cons node soup :
  parsed_lines (node :: soup) = parse_node node 0 None ++ parsed_lines soup.
Proof. reflexivity. Qed.

Lemma parsed_lines_app a b :
  parsed_lines (a ++ b) = parsed_lines a ++ parsed_lines b.
Proof. unfold parsed_lines. apply flat_map_app. Qed.

Lemma final_lines_container name attrs children :
  plain_container name = true ->
  final_lines (parse_node (Tag name attrs children) 0 None)
  = final_lines (parsed_lines children).
Proof.
  unfold plain_container. intros H. apply negb_true_iff in H.
  repeat (apply orb_false_elim in H as [H ?]).
  cbn [parse_node].
  repeat match goal with E : String.eqb _ _ = false |- _ => rewrite E; clear E end.
  cbn [orb]. fold (parsed_lines children).
  destruct (String.eqb name "p" || String.eqb name "div"); [|reflexivity].
  destruct (parsed_lines children) as [|l ls] eqn:E; [reflexivity|].
  rewrite final_lines_app. cbn. now rewrite app_nil_r.
Qed.

Lemma spaces_add a b : spaces (a + b) = spaces a ++ spaces b.
Proof. apply repeat_app. Qed.

Lemma parse_node_indented node : forall indent list_type,
  Forall (indented indent) (parse_node node indent list_type).
Proof.
  induction node as [cls data | name attrs children IH] using Node_ind;
    intros indent lt; cbn [parse_node].
  - destruct (truthy (strip data)); constructor; [|constructor].
    right. eauto.
  - assert (Hsub : forall t,
               Forall (indented indent)
                 (flat_map (fun child => parse_node child indent t) children)).
    { intros t. apply Forall_flat_map. eapply Forall_impl; [|exact IH].
      intros n Hn. apply Hn. }
    destruct (String.eqb name "ul" || String.eqb name "ol"); [apply Hsub|].
    destruct (String.eqb name "li").
    { destruct (flat_map _ children) as [|first rest].
      - constructor; [|constructor]. right. eauto.
      - constructor; [right; eauto|]. apply Forall_map, Forall_forall.
        intros l _. right. exists (spaces 2 ++ l).
        now rewrite spaces_add, <- app_assoc. }
    destruct (String.eqb name "a"); [constructor; [right; eauto | constructor]|].
    destruct (String.eqb name "br"); [constructor; [now left | constructor]|].
    destruct (String.eqb name "p" || String.eqb name "div"); [|apply Hsub].
    specialize (Hsub lt). destruct (flat_map _ children); [constructor|].
    apply Forall_app. split; [exact Hsub|]. constructor; [now left | constructor].
Qed.

Lemma lstrip_spaces n s : lstrip (spaces n ++ s) = lstrip s.
Proof. induction n as [|n IH]; [reflexivity | exact IH]. Qed.

Lemma parse_node_ul attrs children indent list_type :
  parse_node (Tag "ul" attrs children) indent list_type
  = flat_map (fun child => parse_node child indent (Some "ul")) children.
Proof. reflexivity. Qed.

Lemma parse_node_txt_A indent list_type :
  parse_node (txt "A") indent list_type = [spaces indent ++ "A"].
Proof. reflexivity. Qed.

Lemma nest_children_lines i rest :
  flat_map (fun child => parse_node child (i + 2) None) (txt "A" :: rest)
  = (spaces (i + 2) ++ "A")
      :: flat_map (fun child => parse_node child (i + 2) None) rest.
Proof. cbn [flat_map]. now rewrite parse_node_txt_A. Qed.

Lemma parse_node_nest d : forall i list_type,
  parse_node (nest d) i list_type
  = map (fun k => spaces (nest_indent i k) ++ "- A") (seq 0 (S d)).
Proof.
  induction d as [|d IH]; intros i lt.
  - change (nest 0) with (Tag "ul" [] [Tag "li" [] (txt "A" :: [])]).
    rewrite parse_node_ul. cbn [flat_map].
    rewrite parse_node_li, nest_children_lines, lstrip_spaces, app_nil_r.
    cbn [flat_map map seq]. unfold nest_indent.
    replace ((0 + 1) * i + 0 * 0 + 3 * 0) with i by lia. reflexivity.
  - change (nest (S d))
      with (Tag "ul" [] [Tag "li" [] (txt "A" :: [nest d])]).
    rewrite parse_node_ul. cbn [flat_map].
    rewrite parse_node_li, nest_children_lines, lstrip_spaces, app_nil_r.
    cbn [flat_map]. rewrite app_nil_r, IH.
    change (seq 0 (S (S d))) with (0 :: seq 1 (S d)).
    rewrite <- seq_shift. cbn [map]. f_equal.
    + unfold nest_indent. replace ((0 + 1) * i + 0 * 0 + 3 * 0) with i by lia.
      reflexivity.
    + rewrite !map_map. apply map_ext. intros k.
      rewrite app_assoc, <- spaces_add. do 2 f_equal.
      unfold nest_indent. lia.
Qed.

Lemma final_lines_fixed lines :
  Forall (fun l => blank l = false /\ rstrip l = l) lines ->
  final_lines lines = lines.
Proof.
  rewrite final_lines_eq. induction 1 as [|l ls [Hb Hr] _ IH]; [reflexivity|].
  cbn [filter]. change (nonblank l) with (negb (blank l)). rewrite Hb.
  cbn [negb map]. now rewrite Hr, IH.
Qed.

Lemma nest_line_clean n :
  blank (spaces n ++ "- A") = false /\ rstrip (spaces n ++ "- A") = spaces n ++ "- A"
  /\ one_line (spaces n ++ "- A") = true.
Proof.
  repeat split.
  - unfold blank. rewrite forallb_app. cbn. apply andb_false_r.
  - change (spaces n ++ "- A") with (spaces n ++ ("- " ++ ["A"%char])).
    rewrite !app_assoc. now apply rstrip_snoc.
  - now rewrite one_line_app, one_line_spaces.
Qed.

End LayoutFacts.

Module OdooFacts.
Import Py PyText PyValue Soup Normalizer Config Odoo PyFacts PyTextFacts.
Import Shape.

Lemma item_eqb_eq a b : item_eqb a b = true <-> a = b.
Proof.
  destruct a as [m|s], b as [n|t]; cbn [item_eqb]; split;
    try discriminate; intros H.
  - apply Z.eqb_eq in H. now subst.
  - injection H as ->. apply Z.eqb_refl.
  - apply str_eqb_eq in H. now subst.
  - injection H as ->. apply str_eqb_refl.
Qed.

Lemma existsb_item_In i items : existsb (item_eqb i) items = true <-> In i items.
Proof.
  rewrite existsb_exists. split.
  - intros (y & Hy & E). apply item_eqb_eq in E. now subst.
  - intros H. exists i. split; [exact H | now apply item_eqb_eq].
Qed.

Lemma distinct_In i items : In i (distinct items) <-> In i items.
Proof.
  induction items as [|j items IH]; [reflexivity|]. cbn [distinct].
  destruct (existsb (item_eqb j) items) eqn:E.
  - apply existsb_item_In in E. rewrite IH. cbn [In]. split; [auto|].
    intros [<- | H]; auto.
  - cbn [In]. now rewrite IH.
Qed.

Lemma distinct_NoDup items : NoDup (distinct items).
Proof.
  induction items as [|j items IH]; [constructor|]. cbn [distinct].
  destruct (existsb (item_eqb j) items) eqn:E; [exact IH|].
  constructor; [|exact IH]. rewrite distinct_In. intros H.
  apply existsb_item_In in H. congruence.
Qed.

Lemma the_strs_In s items : In s (the_strs items) <-> In (IStr s) items.
Proof.
  unfold the_strs. rewrite in_flat_map. split.
  - intros ([n|t] & Hi & H); [contradiction|]. destruct H as [<- | []]. exact Hi.
  - intros H. exists (IStr s). split; [exact H | now left].
Qed.

Lemma the_strs_NoDup items : NoDup items -> NoDup (the_strs items).
Proof.
  induction 1 as [|i items Hi Hn IH]; [constructor|].
  destruct i as [n|s]; [exact IH|].
  change (the_strs (IStr s :: items)) with (s :: the_strs items).
  constructor; [|exact IH]. now rewrite the_strs_In.
Qed.

Lemma sorted_strict (l : list str) :
  StronglySorted (fun a b => str_leb a b = true) l -> NoDup l ->
  StronglySorted str_lt l.
Proof.
  induction 1 as [|a l Hs IH Ha]; intros Hn; [constructor|].
  inversion Hn as [|? ? Hnot Hn']; subst. constructor; [now apply IH|].
  rewrite Forall_forall in *. intros b Hb. split; [now apply Ha|].
  intros ->. contradiction.
Qed.

(** A set of strings comes back in order, each member once. *)
Lemma sorted_set_strs items :
  forallb is_str items = true ->
  exists names,
    sorted_set items = Some (map IStr names)
    /\ StronglySorted str_lt names
    /\ forall s, In s names <-> In (IStr s) items.
Proof.
  intros H. unfold sorted_set.
  assert (Hd : forallb is_str (distinct items) = true).
  { rewrite forallb_forall in *. intros i Hi. apply H. now apply distinct_In. }
  rewrite Hd. exists (sort_by str_leb (the_strs (distinct items))).
  pose proof (sort_by_perm _ str_leb (the_strs (distinct items))) as Hp.
  split; [reflexivity|]. split.
  - apply sorted_strict.
    + apply sort_by_sorted; [apply str_leb_total | apply str_leb_trans].
    + eapply Permutation_NoDup; [exact Hp|].
      apply the_strs_NoDup, distinct_NoDup.
  - intros s. rewrite <- distinct_In, <- the_strs_In. split; intros Hin.
    + eapply Permutation_in; [symmetry; exact Hp | exact Hin].
    + eapply Permutation_in; [exact Hp | exact Hin].
Qed.

Lemma collect_names_In key lines name :
  In name (collect_names key lines) <->
  exists line first,
    In line lines /\ rec_get line key = Some (FList [first; name]).
Proof.
  unfold collect_names. rewrite in_flat_map. split.
  - intros (line & Hl & H). exists line.
    destruct (rec_get line key) as [[b|i|[|a [|n [|? ?]]]]|]; try contradiction.
    destruct H as [<- | []]. eauto.
  - intros (line & first & Hl & E). exists line. split; [exact Hl|].
    rewrite E. now left.
Qed.

End OdooFacts.

Module TaskFacts.
Import Py PyText PyValue Soup Normalizer Config Tasks PyFacts PyTextFacts.
Import Shape.

Lemma fold_dedupe_step task_infos : forall seen task_data,
  exists seen',
    fold_left dedupe_step task_infos (seen, task_data)
    = (seen', task_data ++ kept seen task_infos).
Proof.
  induction task_infos as [|info rest IH]; intros seen data; cbn [fold_left kept].
  - exists seen. now rewrite app_nil_r.
  - unfold dedupe_step at 2.
    destruct (str_in (normalized info) seen); [apply IH|].
    destruct (IH (normalized info :: seen) (data ++ [info])) as [seen' ->].
    exists seen'. now rewrite <- app_assoc.
Qed.

Lemma dedupe_kept task_infos : dedupe task_infos = kept [] task_infos.
Proof.
  unfold dedupe. destruct (fold_dedupe_step task_infos [] []) as [seen' ->].
  reflexivity.
Qed.

Lemma kept_ext s1 s2 task_infos :
  (forall x, str_in x s1 = str_in x s2) ->
  kept s1 task_infos = kept s2 task_infos.
Proof.
  revert s1 s2; induction task_infos as [|info rest IH]; intros s1 s2 H;
    cbn [kept]; [reflexivity|].
  rewrite (H (normalized info)).
  destruct (str_in (normalized info) s2); [now apply IH|].
  f_equal. apply IH. intros x. unfold str_in. cbn [existsb].
  f_equal. apply H.
Qed.

(** Dropping what a seen form would drop anyway. *)
Lemma kept_cons_seen n seen task_infos :
  kept (n :: seen) task_infos
  = kept seen
      (filter (fun info => negb (str_eqb (normalized info) n)) task_infos).
Proof.
  revert seen; induction task_infos as [|info rest IH]; intros seen;
    cbn [kept filter]; [reflexivity|].
  unfold str_in at 1. cbn [existsb].
  destruct (str_eqb (normalized info) n) eqn:E; cbn [orb negb]; [apply IH|].
  cbn [kept]. fold (str_in (normalized info) seen).
  destruct (str_in (normalized info) seen); [apply IH|].
  f_equal. rewrite <- IH. apply kept_ext. intros x.
  unfold str_in. cbn [existsb]. now rewrite !orb_assoc, (orb_comm (str_eqb x _)).
Qed.

(** The first text is kept, and with it go all later texts of the same
    normalized form. *)
Lemma dedupe_cons info rest :
  dedupe (info :: rest)
  = info :: dedupe (filter (fun other =>
                              negb (str_eqb (normalized other) (normalized info)))
                      rest).
Proof. rewrite !dedupe_kept. cbn [kept str_in existsb]. now rewrite kept_cons_seen. Qed.

Lemma kept_incl seen task_infos : incl (kept seen task_infos) task_infos.
Proof.
  revert seen; induction task_infos as [|info rest IH]; intros seen;
    cbn [kept]; [apply incl_refl|].
  destruct (str_in (normalized info) seen).
  - apply incl_tl, IH.
  - apply incl_cons; [now left | apply incl_tl, IH].
Qed.

Lemma kept_normalized seen task_infos :
  NoDup (map normalized (kept seen task_infos))
  /\ (forall info, In info (kept seen task_infos) ->
                   ~ In (normalized info) seen)
  /\ (forall info, In info task_infos ->
                   In (normalized info) seen
                   \/ In (normalized info)
                        (map normalized (kept seen task_infos))).
Proof.
  revert seen; induction task_infos as [|info rest IH]; intros seen; cbn [kept].
  - repeat split; [constructor | intros ? [] | intros ? []].
  - destruct (str_in (normalized info) seen) eqn:E.
    + destruct (IH seen) as (H1 & H2 & H3). repeat split; auto.
      intros i [<- | Hi]; [left; now apply str_in_In | now apply H3].
    + destruct (IH (normalized info :: seen)) as (H1 & H2 & H3).
      assert (Hn : ~ In (normalized info) seen).
      { intros H. apply str_in_In in H. congruence. }
      repeat split.
      * cbn [map]. constructor; [|exact H1]. rewrite in_map_iff.
        intros (i & Ei & Hi). apply (H2 i Hi). left. now symmetry.
      * intros i [<- | Hi]; [exact Hn|]. intros H. apply (H2 i Hi). now right.
      * intros i [<- | Hi]; [right; now left|].
        destruct (H3 i Hi) as [[<- | H] | H]; [right; now left | now left |].
        right. now right.
Qed.

(** Two texts have the same normalized form when they have the same
    words. *)
Lemma normalized_words a b :
  normalized a = normalized b <-> split_ws a = split_ws b.
Proof.
  unfold normalized. rewrite !split_ws_strip. split; intros H.
  - apply (f_equal split_ws) in H.
    now rewrite !split_ws_join in H by apply split_ws_words.
  - now rewrite H.
Qed.

Section Server.

Variable Proxy : Type.
Variable execute_kw :
  Proxy -> str -> Field -> str -> string -> string -> Domain -> list string ->
  Outcome (list Rec).
Variable BeautifulSoup : str -> Outcome (list Node).
Variable BeautifulSoup_other : Field -> Outcome (list Node).
Variable repr_str : str -> str.
Variable settings : Settings.
Variable uid : Field.
Variable models : Proxy.

Let info_of :=
  task_info Proxy execute_kw BeautifulSoup BeautifulSoup_other repr_str
    settings uid models.
Let loop :=
  report_loop Proxy execute_kw BeautifulSoup BeautifulSoup_other repr_str
    settings uid models.

(** The loop keeps what [dedupe_step] keeps of the texts, and stops at
    the first task whose text cannot be made. *)
Lemma report_loop_outcome tasks : forall st,
  loop tasks st =
  match map_outcome info_of tasks with
  | Returned infos => Returned (snd (fold_left dedupe_step infos st))
  | Raised exc => Raised exc
  end.
Proof.
  induction tasks as [|task tasks IH]; intros st; [reflexivity|].
  cbn [map_outcome]. unfold loop. cbn [report_loop]. fold loop. fold info_of.
  destruct (info_of task) as [info|exc]; cbn [bind]; [|reflexivity].
  rewrite IH. now destruct (map_outcome info_of tasks).
Qed.

End Server.

End TaskFacts.

Module GmailFacts.
Import Py PyText Soup Gmail PyFacts PyTextFacts.
Import Shape.

Lemma is_from_not_subject header :
  is_from header = true -> is_subject header = false.
Proof.
  unfold is_from, is_subject. intros H. apply str_eqb_eq in H. now rewrite H.
Qed.

Lemma last_header_snoc p headers header :
  last_header p (headers ++ [header])
  = if p header then Some header else last_header p headers.
Proof. unfold last_header. now rewrite rev_app_distr. Qed.

Lemma scan_headers_last headers :
  scan_headers headers
  = (match last_header is_from headers with
     | Some header => get header "value" "Unknown"
     | None => "Unknown" : str
     end,
     match last_header is_subject headers with
     | Some header => get header "value" "No Subject"
     | None => "No Subject" : str
     end).
Proof.
  induction headers as [|header headers IH] using rev_ind; [reflexivity|].
  unfold scan_headers in *. rewrite fold_left_app, IH. cbn [fold_left].
  rewrite !last_header_snoc. unfold header_step.
  fold (is_from header) (is_subject header).
  destruct (is_from header) eqn:Ef.
  - now rewrite (is_from_not_subject _ Ef).
  - now destruct (is_subject header).
Qed.

End GmailFacts.

Module ReportFacts.
Import Py Re Decoder Normalizer PyFacts ReFacts DecoderFacts NormalizerFacts.
Import DocumentFacts.
Import Shape.

(** [split("\n")] of two texts joined by a line feed. *)
Lemma split_lines_at_LF a b :
  split_lines (a ++ LF :: b) = split_lines a ++ split_lines b.
Proof. apply split_lines_cut. Qed.

Lemma decode_text_at_LF a b :
  decode_text (a ++ LF :: b) = decode_text a ++ decode_text b.
Proof. unfold decode_text. now rewrite split_lines_at_LF, map_app. Qed.

Lemma decode_text_one_line l :
  one_line l = true -> decode_text l = [decode_line l].
Proof. intros H. unfold decode_text. now rewrite split_lines_one_line. Qed.

Lemma search_star_free s : star_free s = true -> search s = None.
Proof.
  intros H. rewrite <- (app_nil_r s), (search_star_free_prefix _ _ H).
  reflexivity.
Qed.

Lemma star_free_app a b : star_free (a ++ b) = star_free a && star_free b.
Proof. apply forallb_app. Qed.

(** A line [pre**label** value] with no asterisk in the value. *)
Lemma decode_labelled_line pre label value :
  star_free pre = true -> pre <> [] -> label <> [] ->
  star_free label = true -> one_line label = true ->
  star_free value = true ->
  decode_line (pre ++ stars ++ label ++ stars ++ " " ++ value)
  = [mkRun false pre; mkRun true label; mkRun false (" " ++ value)].
Proof.
  intros Hp Hpne Hne Hs Ho Hv.
  rewrite (decode_line_label _ _ _ Hp Hne Hs Ho).
  destruct pre as [|c pre]; [contradiction|]. cbn [truthy app]. do 2 f_equal.
  rewrite decode_line_no_match; [reflexivity|].
  apply search_star_free. now rewrite star_free_app, Hv.
Qed.

End ReportFacts.

(** ** Facts on [map_outcome] *)

Lemma map_outcome_then {A B C} (f : A -> Outcome B) (g : B -> C) xs :
  map_outcome (fun x => y <- f x ;; Returned (g y)) xs
  = (ys <- map_outcome f xs ;; Returned (map g ys)).
Proof.
  induction xs as [|x xs IH]; cbn [map_outcome]; [reflexivity|].
  destruct (f x) as [y|exc]; cbn [bind]; [|reflexivity].
  rewrite IH. now destruct (map_outcome f xs).
Qed.

Lemma map_outcome_length {A B} (f : A -> Outcome B) xs ys :
  map_outcome f xs = Returned ys -> length ys = length xs.
Proof.
  revert ys. induction xs as [|x xs IH]; cbn [map_outcome]; intros ys H.
  - now injection H as <-.
  - destruct (f x) as [y|]; cbn [bind] in H; [|discriminate].
    destruct (map_outcome f xs) as [ys'|]; cbn [bind] in H; [|discriminate].
    injection H as <-. cbn [List.length]. now rewrite (IH ys').
Qed.

Lemma map_outcome_first_raise {A B} (f : A -> Outcome B) xs x exc :
  In x xs -> f x = Raised exc ->
  exists before x' after exc',
    xs = before ++ x' :: after
    /\ (forall z, In z before -> exists y, f z = Returned y)
    /\ f x' = Raised exc'
    /\ map_outcome f xs = Raised exc'.
Proof.
  induction xs as [|a xs IH]; [intros []|]. intros Hin Hx.
  cbn [map_outcome]. destruct (f a) as [y|e] eqn:Ea.
  - destruct Hin as [->|Hin]; [congruence|].
    destruct (IH Hin Hx) as (before & x' & after & exc' & -> & Hb & Hx' & Hm).
    exists (a :: before), x', after, exc'. repeat split; try assumption.
    + intros z [<-|Hz]; [now exists y | now apply Hb].
    + cbn [bind]. now rewrite Hm.
  - exists [], a, xs, e. repeat split; try assumption. intros z [].
Qed.

(** * Further properties *)

Import Py PyText PyValue Re Decoder Soup Normalizer Samples Config.
Import PyFacts ReFacts DecoderFacts NormalizerFacts PyTextFacts.
Import DocumentFacts LayoutFacts ReportFacts.
Import Shape SampleData.

(** X1.  The paragraphs of a document spell its text: the runs of each
    line, the bold ones put back between their markers, joined by line
    feeds, are [content_text] again. *)
Theorem document_round_trip content_text :
  join [LF] (map encode (decode_text content_text)) = content_text.
Proof.
  unfold decode_text. rewrite map_map.
  rewrite (map_ext _ (fun l => l)) by (intros l; apply encode_decode_line).
  rewrite map_id. apply join_split_lines.
Qed.

(** X2.  A document has one paragraph per line of its text, one more than
    the text has line feeds; no run holds a line feed; and the paragraphs
    of two texts joined by a line feed are the paragraphs of the one
    followed by those of the other. *)
Theorem document_paragraphs content_text :
  length (decode_text content_text)
  = S (count_occ ascii_dec content_text LF)
  /\ Forall (fun paragraph =>
               Forall (fun r => one_line (text r) = true) paragraph)
       (decode_text content_text)
  /\ forall more,
       decode_text (content_text ++ LF :: more)
       = decode_text content_text ++ decode_text more.
Proof.
  split; [|split].
  - unfold decode_text. rewrite length_map. apply split_lines_length.
  - unfold decode_text. apply Forall_map.
    eapply Forall_impl; [|apply split_lines_one_line_pieces].
    intros l Hl. apply one_line_encode. now rewrite encode_decode_line.
  - intros more. apply decode_text_at_LF.
Qed.

(** X3.  No run of a line is empty, bold or not. *)
Theorem runs_not_empty line :
  Forall (fun r => text r <> []) (decode_line line).
Proof. apply decode_line_runs_not_empty. Qed.

(** X4.  A plain run holds no complete span, so that decoding its text
    again gives the run itself; and a plain run never follows a plain
    run. *)
Theorem plain_runs_inert line :
  plain_runs_apart (decode_line line)
  /\ forall r, In r (decode_line line) -> bold r = false ->
       ~ has_match (text r) /\ decode_line (text r) = [r].
Proof.
  destruct (decode_line_plain_runs line) as [H1 H2]. split; [exact H1|].
  intros r Hin Hb. specialize (H2 r Hin Hb). split; [now apply search_none_iff|].
  rewrite (decode_line_no_match _ H2).
  pose proof (decode_line_runs_not_empty line) as Hne.
  rewrite Forall_forall in Hne. specialize (Hne r Hin).
  destruct r as [b t]. cbn [bold text] in *. subst b.
  destruct t; [contradiction | reflexivity].
Qed.

(** X4, at a line with two bold words. *)
Lemma plain_runs_inert_witness :
  In (mkRun false " and ") (decode_line "**a** and **b**")
  /\ decode_line " and " = [mkRun false " and "].
Proof.
  assert (Hin : In (mkRun false " and ") (decode_line "**a** and **b**"))
    by (right; left; reflexivity).
  split; [exact Hin|].
  exact (proj2 (proj2 (plain_runs_inert "**a** and **b**")
                  (mkRun false " and ") Hin eq_refl)).
Defined.

(** X5.  A label between markers comes out bold: when neither the text
    before the opening marker nor the label holds an asterisk, and the
    label is not empty and holds no line feed, the line
    [pre**label**rest] gives [pre] as a plain run (if there is any), the
    label as a bold run, and then the runs of [rest]. *)
Theorem label_is_bold pre label rest :
  star_free pre = true -> label <> [] ->
  star_free label = true -> one_line label = true ->
  decode_line (pre ++ stars ++ label ++ stars ++ rest)
  = (if truthy pre then [mkRun false pre] else [])
    ++ mkRun true label :: decode_line rest.
Proof. apply decode_line_label. Qed.

(** X5, at a product line. *)
Lemma label_is_bold_witness :
  star_free "- " = true /\ ("Product:" : str) <> []
  /\ star_free "Product:" = true /\ one_line "Product:" = true
  /\ decode_line "- **Product:** Desk"
     = [mkRun false "- "; mkRun true "Product:"; mkRun false " Desk"].
Proof.
  split; [reflexivity|]. split; [discriminate|].
  split; [reflexivity|]. split; [reflexivity|].
  exact (label_is_bold "- " "Product:" " Desk" eq_refl
           ltac:(discriminate) eq_refl eq_refl).
Defined.

Import SaleOrder.

(** X6.  The markup of an order line comes out of the decoder with its
    four labels bold and its four values plain, when no value holds an
    asterisk or a line feed: four paragraphs of three runs each, and two
    empty paragraphs for the two line feeds that end the block. *)
Theorem order_line_labels_bold product description quantity delivered :
  star_free product && one_line product = true ->
  star_free description && one_line description = true ->
  star_free quantity && one_line quantity = true ->
  star_free delivered && one_line delivered = true ->
  decode_text (order_line_markup product description quantity delivered)
  = [[mkRun false "- "; mkRun true "Product:";
      mkRun false (" " ++ product)];
     [mkRun false "  - "; mkRun true "Description:";
      mkRun false (" " ++ description)];
     [mkRun false "  - "; mkRun true "Quantity:";
      mkRun false (" " ++ quantity)];
     [mkRun false "  - "; mkRun true "Delivered:";
      mkRun false (" " ++ delivered)];
     []; []].
Proof.
  intros Hp Hd Hq Hv.
  apply andb_prop in Hp as [Hp1 Hp2]. apply andb_prop in Hd as [Hd1 Hd2].
  apply andb_prop in Hq as [Hq1 Hq2]. apply andb_prop in Hv as [Hv1 Hv2].
  assert (Hline : forall pre label value,
             star_free pre = true -> one_line pre = true -> pre <> [] ->
             label <> [] -> star_free label = true -> one_line label = true ->
             star_free value = true -> one_line value = true ->
             forall more,
               decode_text ((pre ++ stars ++ label ++ stars ++ " " ++ value)
                            ++ LF :: more)
               = [mkRun false pre; mkRun true label;
                  mkRun false (" " ++ value)] :: decode_text more).
  { intros pre label value H1 H2 H3 H4 H5 H6 H7 H8 more.
    rewrite decode_text_at_LF, decode_text_one_line.
    - now rewrite decode_labelled_line.
    - rewrite !one_line_app, H2, H6, H8. reflexivity. }
  unfold order_line_markup.
  change ("- **Product:** " ++ product ++ [LF]
          ++ "  - **Description:** " ++ description ++ [LF]
          ++ "  - **Quantity:** " ++ quantity ++ [LF]
          ++ "  - **Delivered:** " ++ delivered ++ [LF; LF])
    with (("- " ++ stars ++ "Product:" ++ stars ++ " " ++ product)
          ++ LF :: ("  - " ++ stars ++ "Description:" ++ stars ++ " "
                    ++ description)
          ++ LF :: ("  - " ++ stars ++ "Quantity:" ++ stars ++ " " ++ quantity)
          ++ LF :: ("  - " ++ stars ++ "Delivered:" ++ stars ++ " "
                    ++ delivered)
          ++ LF :: [] ++ LF :: []).
  rewrite !Hline by (assumption || reflexivity || discriminate).
  rewrite decode_text_at_LF. reflexivity.
Qed.

(** X6, at a line of two desks. *)
Lemma order_line_labels_bold_witness :
  star_free "Desk" && one_line "Desk" = true
  /\ star_free "Oak desk" && one_line "Oak desk" = true
  /\ star_free "2.0" && one_line "2.0" = true
  /\ star_free "1.0" && one_line "1.0" = true
  /\ length (decode_text (order_line_markup "Desk" "Oak desk" "2.0" "1.0")) = 6.
Proof.
  repeat (split; [reflexivity|]).
  now rewrite (order_line_labels_bold "Desk" "Oak desk" "2.0" "1.0"
                 eq_refl eq_refl eq_refl eq_refl).
Defined.

(** X7.  What the normalizer returns has no whitespace at either end, so
    that the check [desc_clean.strip()] of [get_odoo_data] asks whether
    the text is empty. *)
Theorem normalizer_output_trimmed
  (BeautifulSoup : str -> Outcome (list Node)) (html_content out : str) :
  parse_html_to_text BeautifulSoup html_content = Returned out ->
  stripped out /\ strip out = out /\ truthy (strip out) = truthy out.
Proof.
  unfold parse_html_to_text. intros H.
  destruct (BeautifulSoup html_content) as [soup|]; [|discriminate].
  injection H as <-. pose proof (normalize_soup_stripped soup) as Hs.
  split; [exact Hs|]. rewrite (stripped_strip _ Hs). auto.
Qed.

(** X7, at a list of two items. *)
Lemma normalizer_output_trimmed_witness :
  parse_html_to_text sample_parse_step "<ul><li>A</li><li>B</li></ul>"
  = Returned ("- A" ++ [LF] ++ "- B")
  /\ strip ("- A" ++ [LF] ++ "- B") = "- A" ++ [LF] ++ "- B".
Proof.
  split; [reflexivity|].
  exact (proj1 (proj2 (normalizer_output_trimmed sample_parse_step
                         "<ul><li>A</li><li>B</li></ul>"
                         ("- A" ++ [LF] ++ "- B") eq_refl))).
Defined.

(** X8.  At the top level a paragraph, a division or any tag that is no
    list, item, link or break leaves no trace: the output is that of its
    children in its place.  A break leaves no trace at all. *)
Theorem containers_leave_no_trace name attrs children rest :
  (plain_container name = true ->
   normalize_soup (Tag name attrs children :: rest)
   = normalize_soup (children ++ rest))
  /\ normalize_soup (Tag "br" attrs children :: rest) = normalize_soup rest.
Proof.
  unfold normalize_soup. split.
  - intros H. rewrite parsed_lines_cons, parsed_lines_app, !final_lines_app.
    now rewrite (final_lines_container _ _ _ H).
  - rewrite parsed_lines_cons, final_lines_app. reflexivity.
Qed.

(** X8, at a paragraph before a text. *)
Lemma containers_leave_no_trace_witness :
  plain_container "p" = true
  /\ normalize_soup [Tag "p" [] [txt "one"]; txt "two"]
     = normalize_soup [txt "one"; txt "two"].
Proof.
  split; [reflexivity|].
  exact (proj1 (containers_leave_no_trace "p" [] [txt "one"] [txt "two"])
           eq_refl).
Defined.

(** X9.  Every entry [parse_node] makes at indent [n] is empty or starts
    with [n] spaces. *)
Theorem entries_indented node indent list_type :
  Forall (indented indent) (parse_node node indent list_type).
Proof. apply parse_node_indented. Qed.

(** X10.  Indentation grows with the square of the depth: in a list
    nested [d] deep, each item a text followed by the next list, the
    item at depth [k] comes out behind [k * k + 3 * k] spaces. *)
Theorem nested_indent_quadratic d :
  split_lines (normalize_soup [nest d])
  = map (fun k => spaces (k * k + 3 * k) ++ "- A") (seq 0 (S d)).
Proof.
  unfold normalize_soup. rewrite parsed_lines_cons.
  change (parsed_lines []) with (@nil str). rewrite app_nil_r, parse_node_nest.
  assert (Hmap : map (fun k => spaces (nest_indent 0 k) ++ "- A") (seq 0 (S d))
                 = map (fun k => spaces (k * k + 3 * k) ++ "- A") (seq 0 (S d))).
  { apply map_ext. intros k. unfold nest_indent. do 2 f_equal. lia. }
  rewrite Hmap.
  rewrite final_lines_fixed.
  - apply split_lines_join; [discriminate|].
    apply Forall_map, Forall_forall. intros k _. apply nest_line_clean.
  - apply Forall_map, Forall_forall. intros k _.
    split; apply nest_line_clean.
Qed.


Lemma or_env_truthy environ value key :
  truthy (or_env environ value key) = true
  <-> truthy value = true \/ truthy (getenv environ key) = true.
Proof.
  unfold or_env. destruct (truthy value) eqn:E; [rewrite E|]; intuition congruence.
Qed.

(** X11.  Where a setting comes from.  The four connection details are
    all there exactly when each has a value that is not empty in the
    [odoo] table of the secrets or in the environment.  Each of the six
    settings with a fallback (the four details, the redirect URI and the
    API key) is its secret whatever the environment holds when the
    secret is not empty, and the variable of the environment when it is
    empty.  The model name never comes from the environment, and is
    [gpt-4-turbo] when the secrets have no [openai] table. *)
Theorem settings_sources secrets environ :
  (odoo_details_present
     (odoo_url (get_settings secrets environ))
     (odoo_db (get_settings secrets environ))
     (odoo_username (get_settings secrets environ))
     (odoo_password (get_settings secrets environ)) = true
   <-> Forall (fun key => truthy (secret secrets "odoo" key "" "") = true
                          \/ truthy (getenv environ key) = true)
         ["ODOO_URL"; "ODOO_DB"; "ODOO_USERNAME"; "ODOO_PASSWORD"]%string)
  /\ Forall (fun '(setting, name, key, variable) =>
               (truthy (secret secrets name key "" "") = true ->
                forall other,
                  setting (get_settings secrets other)
                  = secret secrets name key "" "")
               /\ (truthy (secret secrets name key "" "") = false ->
                   setting (get_settings secrets environ)
                   = getenv environ variable))
       [(odoo_url, "odoo", "ODOO_URL", "ODOO_URL");
        (odoo_db, "odoo", "ODOO_DB", "ODOO_DB");
        (odoo_username, "odoo", "ODOO_USERNAME", "ODOO_USERNAME");
        (odoo_password, "odoo", "ODOO_PASSWORD", "ODOO_PASSWORD");
        (redirect_uri, "auth", "redirect_uri", "REDIRECT_URI");
        (openai_api_key, "openai", "api_key", "OPENAI_API_KEY")]%string
  /\ (forall other,
        openai_model (get_settings secrets other)
        = openai_model (get_settings secrets environ))
  /\ (table secrets "openai" = None ->
      openai_model (get_settings secrets environ) = "gpt-4-turbo").
Proof.
  split; [|split; [|split]].
  - unfold odoo_details_present. cbn [get_settings odoo_url odoo_db
      odoo_username odoo_password].
    rewrite !andb_true_iff, !or_env_truthy.
    rewrite !Forall_cons_iff, Forall_nil_iff. tauto.
  - repeat (apply Forall_cons; [split; [intros H other | intros H];
             cbn [get_settings odoo_url odoo_db odoo_username odoo_password
                    redirect_uri openai_api_key];
             unfold or_env; now rewrite H|]).
    apply Forall_nil.
  - reflexivity.
  - intros H. cbn [get_settings openai_model]. unfold secret. now rewrite H.
Qed.

(** X11, at the sample secrets: the address is the secret, though the
    environment has another; the user name, empty in the secrets, is
    the one of the environment. *)
Lemma settings_sources_witness :
  truthy (secret SampleServer.secrets "odoo" "ODOO_URL" "" "") = true
  /\ getenv SampleServer.environ "ODOO_URL" = "https://other.example"
  /\ odoo_url (get_settings SampleServer.secrets SampleServer.environ)
     = "https://odoo.example"
  /\ truthy (secret SampleServer.secrets "odoo" "ODOO_USERNAME" "" "") = false
  /\ odoo_username (get_settings SampleServer.secrets SampleServer.environ)
     = "bot".
Proof.
  pose proof (proj1 (proj2 (settings_sources SampleServer.secrets
                              SampleServer.environ))) as H.
  split; [reflexivity|]. split; [reflexivity|]. split.
  - exact (proj1 (Forall_inv H) eq_refl SampleServer.environ).
  - split; [reflexivity|].
    exact (proj2 (Forall_inv (Forall_inv_tail (Forall_inv_tail H))) eq_refl).
Defined.

Import Odoo Tasks Gmail OdooFacts TaskFacts GmailFacts.

Lemma details_present_guard url db username password :
  negb (truthy url) || negb (truthy db) || negb (truthy username)
  || negb (truthy password)
  = negb (odoo_details_present url db username password).
Proof.
  unfold odoo_details_present.
  destruct (truthy url), (truthy db), (truthy username), (truthy password);
    reflexivity.
Qed.

Section Server.

Variable Proxy : Type.
Variable ServerProxy : str -> Outcome Proxy.
Variable authenticate : Proxy -> str -> str -> str -> Outcome Field.
Variable execute_kw :
  Proxy -> str -> Field -> str -> string -> string -> Domain -> list string ->
  Outcome (list Rec).
Variable BeautifulSoup : str -> Outcome (list Node).
Variable BeautifulSoup_other : Field -> Outcome (list Node).
Variable repr_str : str -> str.

(** X12.  What [get_odoo_connection] can do.  It returns only when the
    four details are there, the server answered the login with a user id
    that is not false, and both proxies were made.  It raises with the
    message that the details are missing exactly when one of them is
    empty; every other failure, a refused login included, carries the
    prefix [Odoo connection failed: ] before its cause. *)
Theorem connection_outcomes odoo_url db_name username password :
  match get_odoo_connection Proxy ServerProxy authenticate
          odoo_url db_name username password with
  | Returned (uid, models) =>
      odoo_details_present odoo_url db_name username password = true
      /\ field_truthy uid = true
      /\ exists common,
           ServerProxy (odoo_url ++ "/xmlrpc/2/common") = Returned common
           /\ authenticate common db_name username password = Returned uid
           /\ ServerProxy (odoo_url ++ "/xmlrpc/2/object") = Returned models
  | Raised exc =>
      (odoo_details_present odoo_url db_name username password = false
       /\ exc = "Odoo connection details missing. Please check your configuration."%string)
      \/ (odoo_details_present odoo_url db_name username password = true
          /\ exists cause,
               exc = ("Odoo connection failed: " ++ cause)%string)
  end.
Proof.
  unfold get_odoo_connection. rewrite details_present_guard.
  destruct (odoo_details_present odoo_url db_name username password);
    cbn [negb]; [|now left].
  unfold connect.
  destruct (ServerProxy (odoo_url ++ "/xmlrpc/2/common")) as [common|e] eqn:E1;
    cbn [bind]; [|right; eauto].
  destruct (authenticate common db_name username password) as [uid|e] eqn:E2;
    cbn [bind]; [|right; eauto].
  destruct (field_truthy uid) eqn:E3; cbn [negb]; [|right; eauto].
  destruct (ServerProxy (odoo_url ++ "/xmlrpc/2/object")) as [models|e] eqn:E4;
    cbn [bind]; [|right; eauto].
  repeat split; eauto.
Qed.

(** X13.  With a connection detail missing from the secrets and from the
    environment, nothing is fetched: [get_odoo_data] returns the message
    that says so, behind its own prefix, and the two lists for the
    dropdowns are empty. *)
Theorem missing_details_reported secrets environ order_reference company :
  odoo_details_present
    (odoo_url (get_settings secrets environ))
    (odoo_db (get_settings secrets environ))
    (odoo_username (get_settings secrets environ))
    (odoo_password (get_settings secrets environ)) = false ->
  get_odoo_data Proxy ServerProxy authenticate execute_kw BeautifulSoup
    BeautifulSoup_other repr_str secrets environ order_reference company
  = "Error fetching Odoo tasks: Odoo connection details missing. Please check your configuration."
  /\ get_odoo_companies Proxy ServerProxy authenticate execute_kw
       secrets environ = []
  /\ get_odoo_order_references Proxy ServerProxy authenticate execute_kw
       secrets environ company = [].
Proof.
  intros H.
  unfold get_odoo_data, task_report, get_odoo_companies,
    get_odoo_order_references, names_of, get_odoo_connection.
  rewrite details_present_guard, H. cbn [negb bind or_empty]. auto.
Qed.

(** X14.  The names offered in a dropdown.  When the connection stands,
    the server returns the lines and every name in a pair is a string,
    the list is in strictly ascending order (so no name occurs twice) and
    holds exactly the names of the lines whose field is a pair.
    [get_odoo_companies] is this for the field [company_id] and no
    domain, [get_odoo_order_references] for the field [order_id] and the
    domain of the company. *)
Theorem names_sorted_unique settings domain key uid models lines :
  get_odoo_connection Proxy ServerProxy authenticate
    (odoo_url settings) (odoo_db settings)
    (odoo_username settings) (odoo_password settings)
  = Returned (uid, models) ->
  execute_kw models (odoo_db settings) uid (odoo_password settings)
    "sale.order.line" "search_read" domain [key] = Returned lines ->
  forallb is_str (collect_names key lines) = true ->
  exists names,
    or_empty (names_of Proxy ServerProxy authenticate execute_kw
                settings domain key) = map IStr names
    /\ StronglySorted str_lt names
    /\ forall name,
         In name names <->
         exists line first,
           In line lines
           /\ rec_get line key = Some (FList [first; IStr name]).
Proof.
  intros Hc He Hs. unfold names_of. rewrite Hc. cbn [bind]. rewrite He.
  cbn [bind or_empty].
  destruct (sorted_set_strs _ Hs) as (names & -> & Hsorted & Hin).
  exists names. split; [reflexivity|]. split; [exact Hsorted|].
  intros name. rewrite Hin. apply collect_names_In.
Qed.

(** X15.  What the report keeps.  When the connection stands, the server
    returns the tasks and the text of every task can be made, the report
    is the texts that are kept, joined by line feeds: no two of them have
    the same normalized form, each is one of the texts, every text has
    its normalized form among them, and the first text is kept and takes
    all later texts of its normalized form with it. *)
Theorem tasks_deduplicated secrets environ order_reference company
  uid models all_tasks infos :
  get_odoo_connection Proxy ServerProxy authenticate
    (odoo_url (get_settings secrets environ))
    (odoo_db (get_settings secrets environ))
    (odoo_username (get_settings secrets environ))
    (odoo_password (get_settings secrets environ))
  = Returned (uid, models) ->
  execute_kw models (odoo_db (get_settings secrets environ)) uid
    (odoo_password (get_settings secrets environ))
    "project.task" "search_read"
    [("sale_line_id.order_id.name", "=", FItem (IStr order_reference));
     ("sale_line_id.company_id.name", "=", FItem (IStr company))]
    ["id"; "name"; "user_ids"; "date_deadline"; "sale_line_id";
     "description"]%string
  = Returned all_tasks ->
  map_outcome
    (task_info Proxy execute_kw BeautifulSoup BeautifulSoup_other repr_str
       (get_settings secrets environ) uid models) all_tasks
  = Returned infos ->
  get_odoo_data Proxy ServerProxy authenticate execute_kw BeautifulSoup
    BeautifulSoup_other repr_str secrets environ order_reference company
  = join [LF] (dedupe infos)
  /\ NoDup (map normalized (dedupe infos))
  /\ incl (dedupe infos) infos
  /\ (forall info, In info infos ->
                   In (normalized info) (map normalized (dedupe infos)))
  /\ (forall info rest,
        infos = info :: rest ->
        dedupe infos
        = info :: dedupe (filter (fun other =>
                                    negb (str_eqb (normalized other)
                                            (normalized info)))
                            rest)).
Proof.
  intros Hc He Hi. split.
  - unfold get_odoo_data, task_report. rewrite Hc. cbn [bind]. rewrite He.
    cbn [bind]. rewrite report_loop_outcome, Hi. reflexivity.
  - rewrite dedupe_kept. destruct (kept_normalized [] infos) as (H1 & H2 & H3).
    split; [exact H1|]. split; [apply kept_incl|]. split.
    + intros info Hin. destruct (H3 info Hin) as [[] | H]. exact H.
    + intros info rest ->. rewrite <- !dedupe_kept. apply dedupe_cons.
Qed.

(** X16.  Two task texts count as the same exactly when they have the
    same words: whitespace of any kind and amount between the words does
    not tell them apart. *)
Theorem same_words_same_task a b :
  normalized a = normalized b <-> split_ws a = split_ws b.
Proof. apply normalized_words. Qed.

(** X17.  One task whose text cannot be made costs the whole report:
    when making the texts stops with an exception (a parse step that
    gives up on a description, a user record without a name), the
    function returns the error message and none of the texts made before. *)
Theorem task_failure_discards_report secrets environ order_reference company
  uid models all_tasks exc :
  get_odoo_connection Proxy ServerProxy authenticate
    (odoo_url (get_settings secrets environ))
    (odoo_db (get_settings secrets environ))
    (odoo_username (get_settings secrets environ))
    (odoo_password (get_settings secrets environ))
  = Returned (uid, models) ->
  execute_kw models (odoo_db (get_settings secrets environ)) uid
    (odoo_password (get_settings secrets environ))
    "project.task" "search_read"
    [("sale_line_id.order_id.name", "=", FItem (IStr order_reference));
     ("sale_line_id.company_id.name", "=", FItem (IStr company))]
    ["id"; "name"; "user_ids"; "date_deadline"; "sale_line_id";
     "description"]%string
  = Returned all_tasks ->
  map_outcome
    (task_info Proxy execute_kw BeautifulSoup BeautifulSoup_other repr_str
       (get_settings secrets environ) uid models) all_tasks
  = Raised exc ->
  get_odoo_data Proxy ServerProxy authenticate execute_kw BeautifulSoup
    BeautifulSoup_other repr_str secrets environ order_reference company
  = "Error fetching Odoo tasks: " ++ exc.
Proof.
  intros Hc He Hi.
  unfold get_odoo_data, task_report. rewrite Hc. cbn [bind]. rewrite He.
  cbn [bind]. rewrite report_loop_outcome, Hi. reflexivity.
Qed.

End Server.

(** X13, with no secrets and an empty environment. *)
Lemma missing_details_reported_witness :
  odoo_details_present
    (odoo_url (get_settings [] [])) (odoo_db (get_settings [] []))
    (odoo_username (get_settings [] []))
    (odoo_password (get_settings [] [])) = false
  /\ get_odoo_companies unit SampleServer.ServerProxy
       SampleServer.authenticate SampleServer.execute_kw [] [] = [].
Proof.
  split; [reflexivity|].
  exact (proj1 (proj2 (missing_details_reported unit SampleServer.ServerProxy
                         SampleServer.authenticate SampleServer.execute_kw
                         SampleServer.BeautifulSoup
                         SampleServer.BeautifulSoup_other
                         SampleServer.repr_str [] [] "S001" "Acme" eq_refl))).
Defined.

(** X14, at the companies of the sample server. *)
Lemma names_sorted_unique_witness :
  forallb is_str (collect_names "company_id" sample_lines) = true
  /\ get_odoo_companies unit SampleServer.ServerProxy
       SampleServer.authenticate SampleServer.execute_kw
       SampleServer.secrets SampleServer.environ
     = [IStr "Acme"; IStr "Zeta"]
  /\ exists names,
       get_odoo_companies unit SampleServer.ServerProxy
         SampleServer.authenticate SampleServer.execute_kw
         SampleServer.secrets SampleServer.environ = map IStr names
       /\ StronglySorted str_lt names
       /\ forall name,
            In name names <->
            exists line first,
              In line sample_lines
              /\ rec_get line "company_id" = Some (FList [first; IStr name]).
Proof.
  split; [reflexivity|]. split; [reflexivity|].
  exact (names_sorted_unique unit SampleServer.ServerProxy
           SampleServer.authenticate SampleServer.execute_kw
           sample_settings [] "company_id" (FItem (IInt 2)) tt sample_lines
           eq_refl eq_refl eq_refl).
Defined.

(** X15, at the tasks of the sample server: the second differs from the
    first by a space and is dropped. *)
Lemma tasks_deduplicated_witness :
  length sample_infos = 3
  /\ length (dedupe sample_infos) = 2
  /\ get_odoo_data unit SampleServer.ServerProxy SampleServer.authenticate
       SampleServer.execute_kw SampleServer.BeautifulSoup
       SampleServer.BeautifulSoup_other SampleServer.repr_str
       SampleServer.secrets SampleServer.environ "S001" "Acme"
     = join [LF] (dedupe sample_infos).
Proof.
  split; [reflexivity|]. split; [reflexivity|].
  exact (proj1 (tasks_deduplicated unit SampleServer.ServerProxy
                  SampleServer.authenticate SampleServer.execute_kw
                  SampleServer.BeautifulSoup SampleServer.BeautifulSoup_other
                  SampleServer.repr_str SampleServer.secrets
                  SampleServer.environ "S001" "Acme" (FItem (IInt 2)) tt
                  _ sample_infos eq_refl eq_refl eq_refl)).
Defined.

(** X17, at a server whose second task has a description the parse step
    gives up on. *)
Lemma task_failure_discards_report_witness :
  get_odoo_data unit SampleServer.ServerProxy SampleServer.authenticate
    SampleServer.execute_kw_bad SampleServer.BeautifulSoup
    SampleServer.BeautifulSoup_other SampleServer.repr_str
    SampleServer.secrets SampleServer.environ "S001" "Acme"
  = "Error fetching Odoo tasks: ParserRejectedMarkup".
Proof.
  exact (task_failure_discards_report unit SampleServer.ServerProxy
           SampleServer.authenticate SampleServer.execute_kw_bad
           SampleServer.BeautifulSoup SampleServer.BeautifulSoup_other
           SampleServer.repr_str SampleServer.secrets SampleServer.environ
           "S001" "Acme" (FItem (IInt 2)) tt _ "ParserRejectedMarkup"
           eq_refl eq_refl eq_refl).
Defined.

(** ** The text of one task *)

Section TaskText.

Variable Proxy : Type.
Variable execute_kw :
  Proxy -> str -> Field -> str -> string -> string -> Domain -> list string ->
  Outcome (list Rec).
Variable BeautifulSoup : str -> Outcome (list Node).
Variable BeautifulSoup_other : Field -> Outcome (list Node).
Variable repr_str : str -> str.
Variable settings : Settings.
Variable uid : Field.
Variable models : Proxy.

Lemma clean_description_stripped raw_desc desc_clean :
  clean_description BeautifulSoup BeautifulSoup_other raw_desc
  = Returned desc_clean ->
  stripped desc_clean.
Proof.
  unfold clean_description, parse_html_to_text. intros H.
  destruct raw_desc as [b|[n|html]|items];
    try (destruct (BeautifulSoup_other _) as [soup|]; cbn [bind] in H;
         [injection H as <-; apply normalize_soup_stripped | discriminate]).
  destruct (BeautifulSoup html) as [soup|]; [|discriminate].
  injection H as <-. apply normalize_soup_stripped.
Qed.

(** The text of a task, piece by piece. *)
Lemma task_info_shape task info :
  task_info Proxy execute_kw BeautifulSoup BeautifulSoup_other repr_str
    settings uid models task = Returned info ->
  exists assigned sale_line desc_text,
    info = ("Task: "
            ++ match rec_get task "name" with
               | Some v => field_str repr_str v
               | None => []
               end) ++ LF
           :: ("Assigned to: " ++ assigned) ++ LF
           :: ("Deadline: "
               ++ match rec_get task "date_deadline" with
                  | Some v => field_str repr_str v
                  | None => "No deadline"
                  end) ++ LF
           :: ("Sale Line: " ++ sale_line) ++ LF
           :: desc_text ++ rule ++ [LF]
    /\ (field_truthy match rec_get task "user_ids" with
                      | Some v => v
                      | None => FList []
                      end = false ->
        assigned = "N/A")
    /\ (desc_text = []
        \/ exists desc_clean,
             desc_clean <> [] /\ stripped desc_clean
             /\ desc_text = "Description:" ++ LF :: desc_clean ++ [LF]).
Proof.
  unfold task_info.
  destruct (get_user_names _ _ _ _ _ _) as [user_names|] eqn:Eu; cbn [bind];
    [|discriminate].
  match goal with
  | |- bind ?m _ = _ -> _ => destruct m as [assigned|] eqn:Ea; cbn [bind];
                               [|discriminate]
  end.
  destruct (clean_description _ _ _) as [desc_clean|] eqn:Ed; cbn [bind];
    [|discriminate].
  intros [= <-].
  pose proof (clean_description_stripped _ _ Ed) as Hs.
  rewrite (stripped_strip _ Hs).
  exists assigned.
  exists (item_str
            match match rec_get task "sale_line_id" with
                  | Some v => v
                  | None => FList []
                  end with
            | FList [_; name] => name
            | _ => IStr "N/A"
            end).
  exists (if truthy desc_clean
          then "Description:" ++ [LF] ++ desc_clean ++ [LF]
          else []).
  split; [|split].
  - rewrite <- !app_assoc. reflexivity.
  - intros Hu. unfold get_user_names in Eu. rewrite Hu in Eu.
    cbn [negb] in Eu. injection Eu as <-. now injection Ea as <-.
  - destruct desc_clean as [|c r]; cbn [truthy]; [now left|].
    right. exists (c :: r). repeat split; try discriminate; apply Hs.
Qed.

End TaskText.

Section TaskDeadline.

Variable Proxy : Type.
Variable execute_kw :
  Proxy -> str -> Field -> str -> string -> string -> Domain -> list string ->
  Outcome (list Rec).
Variable BeautifulSoup : str -> Outcome (list Node).
Variable BeautifulSoup_other : Field -> Outcome (list Node).
Variable repr_str : str -> str.
Variable settings : Settings.
Variable uid : Field.
Variable models : Proxy.

(** X18.  The head of a task's text.  The text is [Task: ] and the name,
    [Assigned to: ] and the assignees, [Deadline: ] and the deadline,
    each followed by a line feed, then more, then the rule and a line
    feed.  The name is the task's name as text, empty without the key;
    the assignees are [N/A] for a task without user ids; the deadline is
    the field as text when the record has the key, so [False] for the
    [False] by which Odoo gives a date that is not set, and
    [No deadline] when the record has no such key.  When the three
    hold no line feed, these are the first three lines of the text; a
    deadline without a line feed is a line of the text in any case. *)
Theorem unset_deadline_prints_False task info :
  task_info Proxy execute_kw BeautifulSoup BeautifulSoup_other repr_str
    settings uid models task = Returned info ->
  let name :=
    match rec_get task "name" with
    | Some v => field_str repr_str v
    | None => []
    end in
  let deadline :=
    match rec_get task "date_deadline" with
    | Some v => field_str repr_str v
    | None => "No deadline"
    end in
  (rec_get task "date_deadline" = Some (FBool false) -> deadline = "False")
  /\ (rec_get task "date_deadline" = None -> deadline = "No deadline")
  /\ exists assigned rest,
       info = ("Task: " ++ name) ++ LF
              :: ("Assigned to: " ++ assigned) ++ LF
              :: ("Deadline: " ++ deadline) ++ LF
              :: rest ++ rule ++ [LF]
       /\ (field_truthy match rec_get task "user_ids" with
                         | Some v => v
                         | None => FList []
                         end = false ->
           assigned = "N/A")
       /\ (one_line name = true -> one_line assigned = true ->
           one_line deadline = true ->
           firstn 3 (split_lines info)
           = [("Task: " ++ name); ("Assigned to: " ++ assigned);
              ("Deadline: " ++ deadline)])
       /\ (one_line deadline = true ->
           In ("Deadline: " ++ deadline) (split_lines info)).
Proof.
  intros H name deadline.
  split; [intros E; unfold deadline; now rewrite E|].
  split; [intros E; unfold deadline; now rewrite E|].
  destruct (task_info_shape _ _ _ _ _ _ _ _ _ _ H)
    as (assigned & sale & desc_text & E & Hu & _).
  assert (E' : info = ("Task: " ++ name) ++ LF
                      :: ("Assigned to: " ++ assigned) ++ LF
                      :: ("Deadline: " ++ deadline) ++ LF
                      :: ("Sale Line: " ++ sale) ++ LF
                      :: desc_text ++ rule ++ [LF]) by exact E.
  clear E H. clearbody name deadline. subst info.
  exists assigned, (("Sale Line: " ++ sale) ++ LF :: desc_text).
  split; [|split; [exact Hu|split]].
  - repeat (rewrite <- app_assoc || rewrite <- app_comm_cons). reflexivity.
  - intros Hn Ha Hd.
    rewrite split_lines_app by (now rewrite one_line_app, Hn).
    rewrite split_lines_app by (now rewrite one_line_app, Ha).
    rewrite split_lines_app by (now rewrite one_line_app, Hd).
    reflexivity.
  - intros Hd. rewrite !split_lines_at_LF.
    apply in_or_app. right. apply in_or_app. right. apply in_or_app. left.
    rewrite split_lines_one_line; [now left|].
    rewrite one_line_app, Hd. reflexivity.
Qed.

End TaskDeadline.

(** X18, at the sample task without a description and without users. *)
Lemma unset_deadline_prints_False_witness :
  firstn 3
    (split_lines
       ("Task: Paint" ++ LF :: "Assigned to: N/A" ++ LF
        :: "Deadline: False" ++ LF :: "Sale Line: S001 - Desk" ++ LF
        :: rule ++ [LF]))
  = [("Task: Paint" : str); ("Assigned to: N/A" : str);
     ("Deadline: False" : str)].
Proof.
  destruct (proj2 (proj2 (unset_deadline_prints_False unit
                            SampleServer.execute_kw
                            SampleServer.BeautifulSoup
                            SampleServer.BeautifulSoup_other
                            SampleServer.repr_str sample_settings
                            (FItem (IInt 2)) tt
                            (SampleServer.task "Paint" (FBool false)) _
                            eq_refl)))
    as (assigned & rest & _ & Hu & Hl & _).
  rewrite (Hu eq_refl) in Hl. exact (Hl eq_refl eq_refl eq_refl).
Defined.

Section Mail.

Variable Service : Type.
Variable get_gmail_service : Outcome Service.
Variable messages_list : Service -> str -> Outcome SearchResult.
Variable messages_get : Service -> str -> Outcome Message.

(** X19.  The text of a message names the sender of the last header
    called [From] and the subject of the last header called [Subject],
    whatever the case of the letters of the name; without such a header,
    or a value in it, it says [Unknown] and [No Subject]; without a
    snippet the content is empty. *)
Theorem last_header_wins message :
  format_message message
  = "Sender: "
    ++ match last_header is_from (headers_of message) with
       | Some header => get header "value" "Unknown"
       | None => "Unknown"
       end
    ++ LF :: "Subject: "
    ++ match last_header is_subject (headers_of message) with
       | Some header => get header "value" "No Subject"
       | None => "No Subject"
       end
    ++ LF :: "Email content: "
    ++ match snippet message with Some s => s | None => [] end
    ++ LF :: mail_rule ++ [LF].
Proof.
  unfold format_message. rewrite scan_headers_last. reflexivity.
Qed.

(** X20.  When the search and every message arrive, the digest is the
    texts of the messages, in the order of the search, joined by a line
    feed: one empty line between two messages.  A search that finds the
    key [messages] with an empty list gives the empty text, not the
    sentence about no emails. *)
Theorem digest_of_messages sales_order_code service results refs msgs :
  get_gmail_service = Returned service ->
  messages_list service sales_order_code = Returned results ->
  messages results = Some refs ->
  map_outcome (messages_get service) refs = Returned msgs ->
  get_gmail_data Service get_gmail_service messages_list messages_get
    sales_order_code
  = Returned (join [LF] (map format_message msgs))
  /\ length msgs = length refs
  /\ (refs = [] ->
      get_gmail_data Service get_gmail_service messages_list messages_get
        sales_order_code = Returned []).
Proof.
  intros Hs Hl Hr Hm.
  assert (Hd : get_gmail_data Service get_gmail_service messages_list
                 messages_get sales_order_code
               = Returned (join [LF] (map format_message msgs))).
  { unfold get_gmail_data, mail_digest. rewrite Hs. cbn [bind]. rewrite Hl.
    cbn [bind]. rewrite Hr, map_outcome_then, Hm. reflexivity. }
  split; [exact Hd|]. split.
  - exact (map_outcome_length _ _ _ Hm).
  - intros ->. rewrite Hd. cbn [map_outcome] in Hm. now injection Hm as <-.
Qed.

(** X21.  One message that cannot be fetched costs the whole digest: the
    function returns the error message of the first failure, and none of
    the texts made before.  Once the service is there the function never
    raises. *)
Theorem mail_failure_discards_digest sales_order_code service :
  get_gmail_service = Returned service ->
  (exists text,
     get_gmail_data Service get_gmail_service messages_list messages_get
       sales_order_code = Returned text)
  /\ (forall results refs id exc,
        messages_list service sales_order_code = Returned results ->
        messages results = Some refs ->
        In id refs ->
        messages_get service id = Raised exc ->
        exists before id' after exc',
          refs = before ++ id' :: after
          /\ (forall x, In x before ->
                        exists m, messages_get service x = Returned m)
          /\ messages_get service id' = Raised exc'
          /\ get_gmail_data Service get_gmail_service messages_list
               messages_get sales_order_code
             = Returned ("Error fetching Gmail data: " ++ exc')).
Proof.
  intros Hs. split.
  - unfold get_gmail_data. rewrite Hs. cbn [bind].
    destruct (mail_digest _ _ _ _ _); eexists; reflexivity.
  - intros results refs id exc Hl Hr Hin Hg.
    destruct (map_outcome_first_raise _ _ _ _ Hin Hg)
      as (before & id' & after & exc' & -> & Hb & Hg' & Hm).
    exists before, id', after, exc'. repeat split; try assumption.
    unfold get_gmail_data, mail_digest. rewrite Hs. cbn [bind]. rewrite Hl.
    cbn [bind]. rewrite Hr, map_outcome_then, Hm. reflexivity.
Qed.

End Mail.

(** X20, at the sample mailbox: two messages, the first with two senders. *)
Lemma digest_of_messages_witness :
  get_gmail_data unit SampleMail.get_gmail_service SampleMail.messages_list
    SampleMail.messages_get "S001"
  = Returned
      ("Sender: bob@example.org" ++ LF :: "Subject: Desk" ++ LF
       :: "Email content: Hello" ++ LF :: mail_rule ++ LF :: LF
       :: "Sender: Unknown" ++ LF :: "Subject: No Subject" ++ LF
       :: "Email content: " ++ LF :: mail_rule ++ [LF]).
Proof.
  exact (proj1 (digest_of_messages unit SampleMail.get_gmail_service
                  SampleMail.messages_list SampleMail.messages_get
                  "S001" tt _ _ _ eq_refl eq_refl eq_refl eq_refl)).
Defined.

(** X21, at the sample mailbox: the second of three messages is gone. *)
Lemma mail_failure_discards_digest_witness :
  exists before id after exc,
    ["m1" : str; "m3" : str; "m2" : str] = before ++ id :: after
    /\ (forall x, In x before ->
                  exists m, SampleMail.messages_get tt x = Returned m)
    /\ SampleMail.messages_get tt id = Raised exc
    /\ get_gmail_data unit SampleMail.get_gmail_service
         SampleMail.messages_list SampleMail.messages_get "S002"
       = Returned ("Error fetching Gmail data: " ++ exc).
Proof.
  exact (proj2 (mail_failure_discards_digest unit
                  SampleMail.get_gmail_service SampleMail.messages_list
                  SampleMail.messages_get "S002" tt eq_refl)
           _ ["m1" : str; "m3" : str; "m2" : str] "m3" "HttpError 404"
           eq_refl eq_refl (or_intror (or_introl eq_refl)) eq_refl).
Defined.

Import Briefing.

Section Client.

Variable ChatCompletion_create : str -> str -> Outcome str.

(** X22.  What [summarize_text] returns.  Without an API key in the
    [openai] table of the secrets and in the environment it is the
    sentence about the missing key, whatever the client would answer.
    With a key, the client is asked once, for the model of the settings
    (never one of the environment) and the fixed prompt followed by the
    text: an answer is returned with the whitespace at its ends removed,
    a failure of the client as the error message. *)
Theorem summary_outcomes secrets environ text :
  (truthy (secret secrets "openai" "api_key" "" "") = false ->
   truthy (getenv environ "OPENAI_API_KEY") = false ->
   summarize_text ChatCompletion_create secrets environ text
   = "Unable to generate summary: API key missing")
  /\ (truthy (secret secrets "openai" "api_key" "" "") = true
      \/ truthy (getenv environ "OPENAI_API_KEY") = true ->
      match ChatCompletion_create
              (secret secrets "openai" "model" "gpt-4-turbo" "gpt-4-turbo")
              (prompt_head ++ text) with
      | Returned content =>
          summarize_text ChatCompletion_create secrets environ text
          = strip content
          /\ stripped (summarize_text ChatCompletion_create secrets environ
                         text)
      | Raised exc =>
          summarize_text ChatCompletion_create secrets environ text
          = "Error generating summary: " ++ exc
      end).
Proof.
  unfold summarize_text, setup_openai.
  cbn [get_settings openai_api_key openai_model].
  split.
  - intros H1 H2.
    assert (H : truthy (or_env environ (secret secrets "openai" "api_key" "" "")
                          "OPENAI_API_KEY") = false).
    { unfold or_env. rewrite H1. exact H2. }
    now rewrite H.
  - intros H. apply or_env_truthy in H. rewrite H. cbn [negb].
    destruct (ChatCompletion_create _ _) as [content|exc]; [|reflexivity].
    split; [reflexivity | apply strip_stripped].
Qed.

End Client.

(** X22, at the sample client. *)
Lemma summary_outcomes_witness :
  summarize_text SampleClient.ChatCompletion_create [] [] "Desk"
  = "Unable to generate summary: API key missing"
  /\ summarize_text SampleClient.ChatCompletion_create SampleClient.secrets []
       "Desk"
     = "**Project**: gpt-4-turbo".
Proof.
  split.
  - exact (proj1 (summary_outcomes SampleClient.ChatCompletion_create [] []
                    "Desk") eq_refl eq_refl).
  - exact (proj1 (proj2 (summary_outcomes SampleClient.ChatCompletion_create
                           SampleClient.secrets [] "Desk")
                    (or_introl eq_refl))).
Defined.
